(** * PLS Command Center: the pattern extractor and the extract endpoint

    A shallow embedding of the regular-expression heuristics of
    [app/server.js] ([extractFallback], the [/api/extract] handler) and of
    [app/src/services/aiService.js] ([extractLegislationFallback]).

    JavaScript strings are sequences of UTF-16 code units; the regular
    expressions of the program are compiled to backtracking matchers the
    way ECMA-262 (22.2.2, Pattern Semantics) defines them: a matcher takes
    a match state and a continuation. *)

From Stdlib Require Import String Ascii.
From Stdlib Require Import List NArith ZArith Arith Bool Lia.
Import ListNotations.

(** ** Code units and strings *)

Definition char := N.
Definition jsstring := list char.

Definition ch (a : ascii) : char := N_of_ascii a.
(** An ASCII literal as a JavaScript string. *)
Definition js (s : String.string) : jsstring :=
  map ch (String.list_ascii_of_string s).
Arguments ch a%_char.
Arguments js s%_string.

Definition LF : char := 10%N.
(** U+2022 BULLET, one code unit. *)
Definition BULLET : char := 8226%N.

Definition char_eqb (a b : char) : bool := N.eqb a b.

Fixpoint jsstring_eqb (s t : jsstring) : bool :=
  match s, t with
  | [], [] => true
  | a :: s', b :: t' => char_eqb a b && jsstring_eqb s' t'
  | _, _ => false
  end.

Definition between (lo hi c : char) : bool := (N.leb lo c && N.leb c hi)%bool.

(** WhiteSpace and LineTerminator of ECMA-262 (12.2, 12.3): the code units
    that [\s] matches and that [String.prototype.trim] strips. *)
Definition isWhiteSpace (c : char) : bool :=
  (between 9 13 c            (* TAB, LF, VT, FF, CR *)
   || N.eqb c 32             (* SPACE *)
   || N.eqb c 160            (* NO-BREAK SPACE *)
   || N.eqb c 5760           (* OGHAM SPACE MARK *)
   || between 8192 8202 c    (* EN QUAD .. HAIR SPACE *)
   || N.eqb c 8232 || N.eqb c 8233   (* LINE / PARAGRAPH SEPARATOR *)
   || N.eqb c 8239 || N.eqb c 8287 || N.eqb c 12288
   || N.eqb c 65279)%bool%N. (* ZERO WIDTH NO-BREAK SPACE *)

Definition isDigit (c : char) : bool := between 48%N 57%N c.
Definition isLowerAZ (c : char) : bool := between 97%N 122%N c.
Definition isUpperAZ (c : char) : bool := between 65%N 90%N c.
(** WordCharacters without the [u] and [i] flags together: [a-zA-Z0-9_]. *)
Definition isWordCharacter (c : char) : bool :=
  (isLowerAZ c || isUpperAZ c || isDigit c || N.eqb c 95%N)%bool.

(** Case conversion on Basic Latin: [a-z] and [A-Z] are mapped onto each
    other and every other code unit is left unchanged. This is what
    Canonicalize does to the code units below 128, which is all that the
    patterns of this program ask of it: ECMA-262's Canonicalize never maps a
    code unit above 127 to one below 128, and the only pattern characters
    above 127 (the bullet and the Unicode spaces of [\s]) have no case. *)
Definition toUpper1 (c : char) : char := if isLowerAZ c then (c - 32)%N else c.
Definition toLower1 (c : char) : char := if isUpperAZ c then (c + 32)%N else c.

Definition asciiUpperCase (s : jsstring) : jsstring := map toUpper1 s.
Definition asciiLowerCase (s : jsstring) : jsstring := map toLower1 s.

(** [String.prototype.toUpperCase] and [toLowerCase] belong to the host:
    they apply the Unicode case tables, which are no part of this program. *)
Record Host := mkHost {
  toUpperCase : jsstring -> jsstring;
  toLowerCase : jsstring -> jsstring
}.



(** The host that knows no letters outside Basic Latin. *)
Definition basicLatinHost : Host := mkHost asciiUpperCase asciiLowerCase.

Module JSString.

(** [s.substring(a, b)] for [0 <= a <= b]. *)
Definition substring (s : jsstring) (a b : nat) : jsstring :=
  firstn (b - a) (skipn a s).

(** [s.charAt(i)]: the empty string out of range. *)
Definition charAt (s : jsstring) (i : nat) : jsstring :=
  match nth_error s i with Some c => [c] | None => [] end.

(** [s.slice(a)] for [0 <= a]. *)
Definition slice (s : jsstring) (a : nat) : jsstring := skipn a s.

Fixpoint trimStart (s : jsstring) : jsstring :=
  match s with
  | c :: s' => if isWhiteSpace c then trimStart s' else s
  | [] => []
  end.

Definition trimEnd (s : jsstring) : jsstring := rev (trimStart (rev s)).

Definition trim (s : jsstring) : jsstring := trimEnd (trimStart s).

(** [parts.join(sep)] *)
Fixpoint join (sep : jsstring) (parts : list jsstring) : jsstring :=
  match parts with
  | [] => []
  | [p] => p
  | p :: rest => p ++ sep ++ join sep rest
  end.

Fixpoint startsWith (p s : jsstring) : bool :=
  match p, s with
  | [], _ => true
  | a :: p', b :: s' => char_eqb a b && startsWith p' s'
  | _ :: _, [] => false
  end.

(** [s.split(sep)] for a non-empty string separator: [cur] collects the
    code units of the piece being read, in reverse. *)
Fixpoint splitAux (sep : jsstring) (skip : nat) (cur : jsstring) (s : jsstring)
  : list jsstring :=
  match s with
  | [] => [rev cur]
  | c :: s' =>
      match skip with
      | S k => splitAux sep k cur s'
      | 0 =>
          if startsWith sep s
          then rev cur :: splitAux sep (length sep - 1) [] s'
          else splitAux sep 0 (c :: cur) s'
      end
  end.

Definition split (s sep : jsstring) : list jsstring := splitAux sep 0 [] s.

End JSString.

(** ** Regular expressions (ECMA-262 22.2) *)

Module RegExp.

(** The members of a character class. *)
Inductive ClassAtom :=
| ClChar (c : char)              (* a literal character *)
| ClRange (lo hi : char)         (* lo-hi *)
| ClDigit                        (* \d *)
| ClSpace                        (* \s *)
| ClNotSpace.                    (* \S *)

Inductive Regex :=
| REmpty
| RChar (c : char)                                   (* a pattern character *)
| RClass (invert : bool) (A : list ClassAtom)        (* [...] and [^...] *)
| RSeq (r1 r2 : Regex)
| RAlt (r1 r2 : Regex)                               (* r1|r2 *)
| RQuant (min : nat) (max : option nat) (greedy : bool) (r : Regex)
| RGroup (n : nat) (r : Regex)                       (* the n-th ( ... ) *)
| RStart                                             (* ^ *)
| REnd                                               (* $ *)
| RWordB.                                            (* \b *)

(** The pattern characters of a literal word, in sequence. *)
Fixpoint lit (w : jsstring) : Regex :=
  match w with
  | [] => REmpty
  | [c] => RChar c
  | c :: w' => RSeq (RChar c) (lit w')
  end.

Fixpoint RSeqs (rs : list Regex) : Regex :=
  match rs with
  | [] => REmpty
  | [r] => r
  | r :: rs' => RSeq r (RSeqs rs')
  end.

Fixpoint RAlts (rs : list Regex) : Regex :=
  match rs with
  | [] => REmpty
  | [r] => r
  | r :: rs' => RAlt r (RAlts rs')
  end.

Definition star (r : Regex) := RQuant 0 None true r.      (* r* *)
Definition plus (r : Regex) := RQuant 1 None true r.      (* r+ *)
Definition opt (r : Regex) := RQuant 0 (Some 1) true r.   (* r? *)

(** The capture groups inside a pattern (reset by an enclosing quantifier). *)
Fixpoint groups (r : Regex) : list nat :=
  match r with
  | RSeq r1 r2 | RAlt r1 r2 => groups r1 ++ groups r2
  | RQuant _ _ _ r' => groups r'
  | RGroup n r' => n :: groups r'
  | _ => []
  end.

(** The literal members of a class. *)
Definition cls (s : String.string) : list ClassAtom := map ClChar (js s).
Arguments cls s%_string.

Definition inAtom (a : ClassAtom) (c : char) : bool :=
  match a with
  | ClChar x => char_eqb x c
  | ClRange lo hi => between lo hi c
  | ClDigit => isDigit c
  | ClSpace => isWhiteSpace c
  | ClNotSpace => negb (isWhiteSpace c)
  end.

Definition inCharSet (A : list ClassAtom) (c : char) : bool :=
  existsb (fun a => inAtom a c) A.

Record MatchState := mkState {
  endIndex : nat;
  captures : list (option (nat * nat))
}.

Definition MatchResult := option MatchState.
Definition Continuation := MatchState -> MatchResult.
Definition Matcher := MatchState -> Continuation -> MatchResult.

Fixpoint setCapture (n : nat) (v : option (nat * nat))
  (caps : list (option (nat * nat))) : list (option (nat * nat)) :=
  match n, caps with
  | _, [] => []
  | 0, _ :: rest => v :: rest
  | S k, c :: rest => c :: setCapture k v rest
  end.

Definition clearCaptures (ns : list nat) (caps : list (option (nat * nat))) :=
  fold_left (fun cs n => setCapture n None cs) ns caps.

Section Semantics.

Variable Input : jsstring.
Variable IgnoreCase : bool.

Definition InputLength : nat := length Input.

(** Canonicalize (22.2.2.7.3), without the [u] flag. *)
Definition Canonicalize (c : char) : char :=
  if IgnoreCase then toUpper1 c else c.

(** The code units [a] with [Canonicalize a = cc], for a canonical [cc]. *)
Definition canonicalClass (cc : char) : list char :=
  if (IgnoreCase && isUpperAZ cc)%bool then [cc; (cc + 32)%N] else [cc].

(** CharacterSetMatcher (22.2.2.7.1): some member [a] of the set has
    [Canonicalize a = Canonicalize c]. *)
Definition CharacterSetMatcher (A : list ClassAtom) (invert : bool) : Matcher :=
  fun x c =>
    let e := endIndex x in
    match nth_error Input e with
    | None => None
    | Some chr =>
        let cc := Canonicalize chr in
        let found := existsb (inCharSet A) (canonicalClass cc) in
        if xorb invert found
        then c (mkState (S e) (captures x))
        else None
    end.

(** IsWordChar (22.2.2.6.2) *)
Definition IsWordChar (e : Z) : bool :=
  if (Z.eqb e (-1) || Z.eqb e (Z.of_nat InputLength))%bool then false
  else match nth_error Input (Z.to_nat e) with
       | Some c => isWordCharacter c
       | None => false
       end.

(** RepeatMatcher (22.2.2.3.1). [fuel] bounds the nesting of iterations:
    with [min] at zero every further iteration moves [endIndex]. *)
Fixpoint RepeatMatcher (fuel : nat) (m : Matcher) (min : nat) (max : option nat)
  (greedy : bool) (x : MatchState) (c : Continuation) (parens : list nat)
  : MatchResult :=
  match fuel with
  | 0 => None
  | S fuel' =>
      match max with
      | Some 0 => c x
      | _ =>
          let d : Continuation := fun y =>
            if ((min =? 0) && (endIndex y =? endIndex x))%bool then None
            else RepeatMatcher fuel' m (pred min) (option_map pred max)
                   greedy y c parens in
          let xr := mkState (endIndex x) (clearCaptures parens (captures x)) in
          if negb (min =? 0) then m xr d
          else if negb greedy then
            match c x with
            | Some z => Some z
            | None => m xr d
            end
          else
            match m xr d with
            | Some z => Some z
            | None => c x
            end
      end
  end.

Fixpoint compile (r : Regex) : Matcher :=
  match r with
  | REmpty => fun x c => c x
  | RChar a => CharacterSetMatcher [ClChar a] false
  | RClass invert A => CharacterSetMatcher A invert
  | RSeq r1 r2 => fun x c => compile r1 x (fun y => compile r2 y c)
  | RAlt r1 r2 => fun x c =>
      match compile r1 x c with
      | Some z => Some z
      | None => compile r2 x c
      end
  | RQuant min max greedy r' => fun x c =>
      RepeatMatcher (S (min + (InputLength - endIndex x)))
        (compile r') min max greedy x c (groups r')
  | RGroup n r' => fun x c =>
      compile r' x (fun y =>
        c (mkState (endIndex y)
             (setCapture n (Some (endIndex x, endIndex y)) (captures y))))
  | RStart => fun x c => if endIndex x =? 0 then c x else None
  | REnd => fun x c => if endIndex x =? InputLength then c x else None
  | RWordB => fun x c =>
      let a := IsWordChar (Z.of_nat (endIndex x) - 1) in
      let b := IsWordChar (Z.of_nat (endIndex x)) in
      if xorb a b then c x else None
  end.

(** The pattern matched with its start at [index]; capture 0 is the
    whole match. *)
Definition matchAt (r : Regex) (nGroups : nat) (index : nat) : MatchResult :=
  compile r (mkState index (repeat None (S nGroups)))
    (fun y => Some (mkState (endIndex y)
                      (setCapture 0 (Some (index, endIndex y)) (captures y)))).

(** The loop of RegExpBuiltinExec (22.2.7.2) without the sticky flag:
    [positions] start indices are left to try from [lastIndex] on. *)
Fixpoint scan (positions : nat) (r : Regex) (nGroups : nat) (lastIndex : nat)
  : option (nat * MatchState) :=
  match positions with
  | 0 => None
  | S k =>
      match matchAt r nGroups lastIndex with
      | Some y => Some (lastIndex, y)
      | None => scan k r nGroups (S lastIndex)
      end
  end.

End Semantics.

End RegExp.

(** ** RegExp objects and the string methods that take them *)

Module JSRegExp.

Import RegExp.

(** A regular expression literal [/source/flags]. A literal is evaluated
    anew at each call of the functions below, so [lastIndex] starts at 0. *)
Record RegExpObj := mkRegExp {
  source : Regex;
  nGroups : nat;               (* the number of ( ... ) in the source *)
  global : bool;               (* the g flag *)
  ignoreCase : bool            (* the i flag *)
}.

(** The array [exec] returns: [index], and the elements 0 (the match)
    and 1.. (the groups, [None] for [undefined]). *)
Record MatchArray := mkMatchArray {
  index : nat;
  elems : list (option jsstring)
}.

Definition captureString (S : jsstring) (c : option (nat * nat)) : option jsstring :=
  match c with
  | Some (a, b) => Some (JSString.substring S a b)
  | None => None
  end.

(** [A[i]]: [undefined] out of range. *)
Definition elem (A : MatchArray) (i : nat) : option jsstring :=
  match nth_error (elems A) i with
  | Some v => v
  | None => None
  end.

Definition matched (A : MatchArray) : jsstring :=
  match elem A 0 with Some s => s | None => [] end.

(** RegExpBuiltinExec from [lastIndex]: the result array and the end
    index of the match. *)
Definition RegExpBuiltinExec (R : RegExpObj) (S : jsstring) (lastIndex : nat)
  : option (MatchArray * nat) :=
  match scan S (ignoreCase R) (Datatypes.S (length S) - lastIndex)
          (source R) (nGroups R) lastIndex with
  | None => None
  | Some (i, y) =>
      Some (mkMatchArray i (map (captureString S) (captures y)), endIndex y)
  end.

Definition AdvanceStringIndex (i : nat) : nat := Datatypes.S i.

(** The loop that the g flag runs in [match] and [replace]: every match
    from [lastIndex] on, an empty match moving [lastIndex] by one. *)
Fixpoint execAll (fuel : nat) (R : RegExpObj) (S : jsstring) (lastIndex : nat)
  : list MatchArray :=
  match fuel with
  | 0 => []
  | Datatypes.S k =>
      match RegExpBuiltinExec R S lastIndex with
      | None => []
      | Some (A, e) =>
          A :: execAll k R S
                 (match matched A with
                  | [] => AdvanceStringIndex e
                  | _ => e
                  end)
      end
  end.

Definition results (R : RegExpObj) (S : jsstring) : list MatchArray :=
  if global R then execAll (Datatypes.S (Datatypes.S (length S))) R S 0
  else match RegExpBuiltinExec R S 0 with
       | Some (A, _) => [A]
       | None => []
       end.

(** [S.match(R)] without the g flag: the [exec] array or [null]. *)
Definition match_ (S : jsstring) (R : RegExpObj) : option MatchArray :=
  match RegExpBuiltinExec R S 0 with
  | Some (A, _) => Some A
  | None => None
  end.

(** [S.match(R)] with the g flag: the matched strings, or [null] when
    there is none. *)
Definition matchGlobal (S : jsstring) (R : RegExpObj) : option (list jsstring) :=
  match execAll (Datatypes.S (Datatypes.S (length S))) R S 0 with
  | [] => None
  | l => Some (map matched l)
  end.

Definition DOLLAR : char := 36%N.

Definition digitValue (c : char) : nat := N.to_nat (c - 48).

(** GetSubstitution (22.1.3.19.1) without named groups: [$$], [$&],
    [$`], [$'], [$n] and [$nn] in the replacement text. *)
Fixpoint GetSubstitution (matched str : jsstring) (position : nat)
  (caps : list (option jsstring)) (template : jsstring) : jsstring :=
  let m := length caps in
  let cap := fun i =>
    match nth_error caps (i - 1) with
    | Some (Some s) => s
    | _ => []
    end in
  match template with
  | [] => []
  | c :: t1 =>
      if negb (char_eqb c DOLLAR) then
        c :: GetSubstitution matched str position caps t1
      else
        match t1 with
        | [] => [c]
        | d :: t2 =>
            if char_eqb d DOLLAR then
              DOLLAR :: GetSubstitution matched str position caps t2
            else if char_eqb d 38%N then          (* $& *)
              matched ++ GetSubstitution matched str position caps t2
            else if char_eqb d 96%N then          (* $` *)
              JSString.substring str 0 position
              ++ GetSubstitution matched str position caps t2
            else if char_eqb d 39%N then          (* $' *)
              skipn (position + length matched) str
              ++ GetSubstitution matched str position caps t2
            else if isDigit d then
              let one :=
                let i := digitValue d in
                if ((1 <=? i) && (i <=? m))%bool
                then cap i ++ GetSubstitution matched str position caps t2
                else c :: d :: GetSubstitution matched str position caps t2 in
              match t2 with
              | d2 :: t3 =>
                  if isDigit d2 then
                    let i := 10 * digitValue d + digitValue d2 in
                    if i <=? m then
                      if 1 <=? i
                      then cap i ++ GetSubstitution matched str position caps t3
                      else c :: d :: d2
                           :: GetSubstitution matched str position caps t3
                    else one
                  else one
              | [] => one
              end
            else c :: GetSubstitution matched str position caps t1
        end
  end.

(** The assembly of [S.replace(R, replaceValue)] from the results. *)
Fixpoint assemble (S : jsstring) (rs : list MatchArray) (replaceValue : jsstring)
  (nextSourcePosition : nat) : jsstring :=
  match rs with
  | [] => skipn nextSourcePosition S
  | A :: rest =>
      let position := Nat.min (index A) (length S) in
      let replacement :=
        GetSubstitution (matched A) S position (tl (elems A)) replaceValue in
      if nextSourcePosition <=? position then
        JSString.substring S nextSourcePosition position ++ replacement
        ++ assemble S rest replaceValue (position + length (matched A))
      else assemble S rest replaceValue nextSourcePosition
  end.

(** [S.replace(R, replaceValue)] for a string [replaceValue]. *)
Definition replace (S : jsstring) (R : RegExpObj) (replaceValue : jsstring) : jsstring :=
  assemble S (results R S) replaceValue 0.

(** The loop of [S.split(R)] (22.2.6.14) without a limit: the splitter
    matches at [q] only; [p] is the start of the piece being read. *)
Fixpoint splitLoop (fuel : nat) (R : RegExpObj) (S : jsstring) (p q : nat)
  : list (option jsstring) :=
  match fuel with
  | 0 => []
  | Datatypes.S k =>
      if q <? length S then
        match matchAt S (ignoreCase R) (source R) (nGroups R) q with
        | None => splitLoop k R S p (AdvanceStringIndex q)
        | Some y =>
            let e := Nat.min (endIndex y) (length S) in
            if e =? p then splitLoop k R S p (AdvanceStringIndex q)
            else Some (JSString.substring S p q)
                 :: map (captureString S) (tl (captures y))
                 ++ splitLoop k R S e e
        end
      else [Some (JSString.substring S p (length S))]
  end.

Definition split (S : jsstring) (R : RegExpObj) : list (option jsstring) :=
  match S with
  | [] =>
      match matchAt S (ignoreCase R) (source R) (nGroups R) 0 with
      | Some _ => []
      | None => [Some S]
      end
  | _ => splitLoop (Datatypes.S (2 * length S)) R S 0 0
  end.

End JSRegExp.

(** ** Completions, Sets and the data model *)

Inductive exn :=
| TypeError (message : jsstring)
| SyntaxError (message : jsstring)
| Error (message : jsstring).

Definition message (e : exn) : jsstring :=
  match e with TypeError m | SyntaxError m | Error m => m end.

(** The outcome of evaluating JavaScript code: a value or a thrown exception. *)
Inductive completion (A : Type) :=
| Normal (a : A)
| Throw (e : exn).
Arguments Normal {A} a.
Arguments Throw {A} e.

Definition bind {A B : Type} (m : completion A) (k : A -> completion B) : completion B :=
  match m with
  | Normal a => k a
  | Throw e => Throw e
  end.

Notation "x <- m ;; k" := (bind m (fun x => k))
  (at level 61, m at next level, right associativity).

(** Reading a method of [v]: a TypeError on [undefined]. *)
Definition deref (v : option jsstring) (method : String.string) : completion jsstring :=
  match v with
  | Some s => Normal s
  | None =>
      Throw (TypeError (js "Cannot read properties of undefined (reading '"
                        ++ js method ++ js "')"))
  end.

(** [a || b] on strings: the empty string is falsy. *)
Definition orElse (a b : jsstring) : jsstring :=
  match a with
  | [] => b
  | _ => a
  end.

(** A JavaScript [Set] of strings: its elements in insertion order. *)
Module JSSet.

Definition has (s : list jsstring) (x : jsstring) : bool :=
  existsb (jsstring_eqb x) s.

Definition add (s : list jsstring) (x : jsstring) : list jsstring :=
  if has s x then s else s ++ [x].

(** [new Set(l)] *)
Definition fromArray (l : list jsstring) : list jsstring := fold_left add l [].

End JSSet.

(** ExtractionResult: a property holds a string or is [undefined] ([None]). *)
Record ExtractionResult := mkResult {
  legislationTitle : option jsstring;
  legislationYear : option jsstring;
  legislationSummary : option jsstring;
  primaryObjectives : option jsstring;
  implementingAgencies : option jsstring;
  suggestedCountry : option jsstring;
  jurisdictionLevel : option jsstring;
  parliamentType : option jsstring;
  keyProvisions : option jsstring;
  reviewClauses : option jsstring;
  _method : option jsstring
}.

Definition defaultSummary : jsstring :=
  js "This legislation establishes a framework for governance in its designated policy area.".

Definition defaultObjectives : jsstring :=
  BULLET :: js " To be extracted from the document"
  ++ LF :: BULLET :: js " Review the full text for specific objectives".

Definition defaultAgencies : jsstring :=
  js "Relevant government ministries and agencies".

(** ** app/server.js *)

Module Server.

Import RegExp JSRegExp.

(** [/\.[^/.]+$/] *)
Definition extensionRe : RegExpObj :=
  mkRegExp (RSeqs [lit (js "."); plus (RClass true (cls "/.")); REnd]) 0 false false.

(** [/[-_]/g] *)
Definition separatorRe : RegExpObj :=
  mkRegExp (RClass false (cls "-_")) 0 true false.

(** [/([a-z])([A-Z])/g] *)
Definition camelRe : RegExpObj :=
  mkRegExp (RSeqs [RGroup 1 (RClass false [ClRange (ch "a") (ch "z")]);
                   RGroup 2 (RClass false [ClRange (ch "A") (ch "Z")])])
    2 true false.

(** [/(?:^|\n)(?:AN? (?:ACT|BILL|LAW)|TITLE)[:\s]+([^\n]+)/i] *)
Definition titleRe : RegExpObj :=
  mkRegExp
    (RSeqs [RAlts [RStart; RChar LF];
            RAlts [RSeqs [lit (js "A"); opt (lit (js "N")); lit (js " ");
                          RAlts [lit (js "ACT"); lit (js "BILL"); lit (js "LAW")]];
                   lit (js "TITLE")];
            plus (RClass false (cls ":" ++ [ClSpace]));
            RGroup 1 (plus (RClass true [ClChar LF]))])
    1 false true.

(** [/\b(19|20)\d{2}\b/] *)
Definition yearRe : RegExpObj :=
  mkRegExp
    (RSeqs [RWordB;
            RGroup 1 (RAlts [lit (js "19"); lit (js "20")]);
            RQuant 2 (Some 2) true (RClass false [ClDigit]);
            RWordB])
    1 false false.

(** [/(?:purpose|summary|overview|objects?)[:\s]*\n?([\s\S]{100,500}?)(?:\n\n|\n[A-Z])/i] *)
Definition summaryRe : RegExpObj :=
  mkRegExp
    (RSeqs [RAlts [lit (js "purpose"); lit (js "summary"); lit (js "overview");
                   RSeqs [lit (js "object"); opt (lit (js "s"))]];
            star (RClass false (cls ":" ++ [ClSpace]));
            opt (RChar LF);
            RGroup 1 (RQuant 100 (Some 500) false (RClass false [ClSpace; ClNotSpace]));
            RAlts [RSeqs [RChar LF; RChar LF];
                   RSeqs [RChar LF; RClass false [ClRange (ch "A") (ch "Z")]]]])
    1 false true.

(** [/\s+/g] *)
Definition spacesRe : RegExpObj :=
  mkRegExp (plus (RClass false [ClSpace])) 0 true false.

(** [/\n\n/] *)
Definition paragraphRe : RegExpObj :=
  mkRegExp (RSeqs [RChar LF; RChar LF]) 0 false false.

(** [/(?:objectives?|aims?|purposes?)[:\s]*\n?((?:[•\-\d\(][^\n]+\n?)+)/i] *)
Definition objectivesRe : RegExpObj :=
  mkRegExp
    (RSeqs [RAlts [RSeqs [lit (js "objective"); opt (lit (js "s"))];
                   RSeqs [lit (js "aim"); opt (lit (js "s"))];
                   RSeqs [lit (js "purpose"); opt (lit (js "s"))]];
            star (RClass false (cls ":" ++ [ClSpace]));
            opt (RChar LF);
            RGroup 1
              (plus (RSeqs [RClass false
                              [ClChar BULLET; ClChar (ch "-"); ClDigit; ClChar (ch "(")];
                            plus (RClass true [ClChar LF]);
                            opt (RChar LF)]))])
    1 false true.

(** [/(?:minister|ministry|department|agency|authority|commission|board|office)[^,\n]{0,50}/gi] *)
Definition agencyRe : RegExpObj :=
  mkRegExp
    (RSeqs [RAlts [lit (js "minister"); lit (js "ministry"); lit (js "department");
                   lit (js "agency"); lit (js "authority"); lit (js "commission");
                   lit (js "board"); lit (js "office")];
            RQuant 0 (Some 50) true (RClass true [ClChar (ch ","); ClChar LF])])
    0 true true.

(** [/\{[\s\S]*\}/] *)
Definition jsonRe : RegExpObj :=
  mkRegExp
    (RSeqs [lit (js "{"); star (RClass false [ClSpace; ClNotSpace]); lit (js "}")])
    0 false false.

Section Extractor.

Variable host : Host.

(** [word => word.charAt(0).toUpperCase() + word.slice(1).toLowerCase()] *)
Definition capitalize (word : jsstring) : jsstring :=
  toUpperCase host (JSString.charAt word 0)
  ++ toLowerCase host (JSString.slice word 1).

(** The title read off the file name (lines 140-145). *)
Definition titleFromFilename (filename : jsstring) : jsstring :=
  JSString.join (js " ")
    (map capitalize
       (JSString.split
          (replace (replace (replace filename extensionRe []) separatorRe (js " "))
             camelRe (js "$1 $2"))
          (js " "))).

(** [function extractFallback(text, filename = 'document.txt')] *)
Definition extractFallback (text : jsstring) (filename : option jsstring)
  : completion ExtractionResult :=
  let filename := match filename with Some f => f | None => js "document.txt" end in
  let legislationTitle := titleFromFilename filename in
  let titleMatch := match_ text titleRe in
  legislationTitle <-
    match titleMatch with
    | Some m => t <- deref (elem m 1) "trim" ;; Normal (JSString.trim t)
    | None => Normal legislationTitle
    end ;;
  let yearMatch := match_ text yearRe in
  let legislationYear :=
    match yearMatch with
    | Some m => elem m 0
    | None => Some []
    end in
  let summaryMatch := match_ text summaryRe in
  legislationSummary <-
    match summaryMatch with
    | Some m =>
        t <- deref (elem m 1) "trim" ;;
        Normal (JSString.substring
                  (replace (JSString.trim t) spacesRe (js " ")) 0 300)
    | None =>
        firstPara <- deref (match nth_error
                                    (split (JSString.substring text 0 500) paragraphRe) 0
                            with Some v => v | None => None end) "replace" ;;
        Normal (JSString.trim (replace firstPara spacesRe (js " ")))
    end ;;
  let objectivesMatch := match_ text objectivesRe in
  primaryObjectives <-
    match objectivesMatch with
    | Some m => t <- deref (elem m 1) "trim" ;; Normal (JSString.trim t)
    | None => Normal []
    end ;;
  let agencyMatches := matchGlobal text agencyRe in
  let implementingAgencies :=
    match agencyMatches with
    | Some l =>
        let uniqueAgencies := firstn 5 (JSSet.fromArray (map JSString.trim l)) in
        JSString.join (js ", ") uniqueAgencies
    | None => []
    end in
  Normal {|
    legislationTitle := Some legislationTitle;
    legislationYear := legislationYear;
    legislationSummary := Some (orElse legislationSummary defaultSummary);
    primaryObjectives := Some (orElse primaryObjectives defaultObjectives);
    implementingAgencies := Some (orElse implementingAgencies defaultAgencies);
    suggestedCountry := Some [];
    jurisdictionLevel := Some (js "national");
    parliamentType := Some [];
    keyProvisions := Some [];
    reviewClauses := Some [];
    _method := None
  |}.

End Extractor.

(** *** The [/api/extract] handler (lines 55-135) *)

(** [req.body] with each property a string or absent; the other values
    that a body can hold are those of [RawExtract]. *)
Record Request := mkRequest {
  reqText : option jsstring;
  reqFilename : option jsstring
}.

(** What the call of the model provider does, as the handler sees it. *)
Inductive Upstream :=
| FetchRejects (e : exn)
    (* [fetch] throws: no network *)
| NotOk (errorBody : completion unit)
    (* [!response.ok]; the outcome of [response.json()] for the log *)
| Ok (content : completion jsstring).
    (* [response.ok]; the outcome of [(await response.json()).content[0].text]
       with its [match] method read *)

Inductive Response (AIData : Type) :=
| BadRequest (error : jsstring)
    (* [res.status(400).json({ error })] *)
| Json (success : bool) (method : jsstring) (data : ExtractionResult + AIData)
    (warning : option jsstring)
    (* [res.json({ success, method, data, warning })] *)
| Unhandled (e : exn).
    (* an exception leaves the handler *)
Arguments BadRequest {AIData} error.
Arguments Json {AIData} success method data warning.
Arguments Unhandled {AIData} e.

Section Endpoint.

Variable host : Host.
(** The object the model returned, and [JSON.parse]. *)
Variable AIData : Type.
Variable JSON_parse : jsstring -> completion AIData.
(** [process.env.ANTHROPIC_API_KEY] *)
Variable ANTHROPIC_API_KEY : option jsstring.

Definition falsy (v : option jsstring) : bool :=
  match v with
  | None | Some [] => true
  | Some _ => false
  end.

(** The [try] block after the validation. *)
Definition tryExtract (text : jsstring) (filename : option jsstring)
  (upstream : Upstream) : completion (Response AIData) :=
  if falsy ANTHROPIC_API_KEY then
    data <- extractFallback host text filename ;;
    Normal (Json true (js "fallback") (inl data) None)
  else
    match upstream with
    | FetchRejects e => Throw e
    | NotOk errorBody =>
        _ <- errorBody ;;
        data <- extractFallback host text filename ;;
        Normal (Json true (js "fallback") (inl data)
                  (Some (js "AI extraction failed, used pattern matching")))
    | Ok content =>
        content <- content ;;
        match match_ content jsonRe with
        | Some jsonMatch =>
            extractedData <-
              JSON_parse (match elem jsonMatch 0 with
                          | Some s => s
                          | None => js "undefined"
                          end) ;;
            Normal (Json true (js "ai") (inr extractedData) None)
        | None => Throw (Error (js "Could not parse AI response as JSON"))
        end
    end.

(** [app.post('/api/extract', ...)] *)
Definition extract (req : Request) (upstream : Upstream) : Response AIData :=
  match reqText req with
  | None => BadRequest (js "Document text is too short for analysis")
  | Some text =>
      if (falsy (Some text)
          || (length (JSString.trim text) <? 50))%bool
      then BadRequest (js "Document text is too short for analysis")
      else
        match tryExtract text (reqFilename req) upstream with
        | Normal response => response
        | Throw error =>
            match extractFallback host text (reqFilename req) with
            | Normal data =>
                Json true (js "fallback") (inl data) (Some (message error))
            | Throw e => Unhandled e
            end
        end
  end.

End Endpoint.

End Server.

(** ** app/src/services/aiService.js *)

Module Client.

Import RegExp JSRegExp.

(** [/\.[^/.]+$/] *)
Definition extensionRe : RegExpObj :=
  mkRegExp (RSeqs [lit (js "."); plus (RClass true (cls "/.")); REnd]) 0 false false.

(** [/[-_]/g] *)
Definition separatorRe : RegExpObj :=
  mkRegExp (RClass false (cls "-_")) 0 true false.

(** [/([a-z])([A-Z])/g] *)
Definition camelRe : RegExpObj :=
  mkRegExp (RSeqs [RGroup 1 (RClass false [ClRange (ch "a") (ch "z")]);
                   RGroup 2 (RClass false [ClRange (ch "A") (ch "Z")])])
    2 true false.

(** [/(?:^|\n)(?:AN? (?:ACT|BILL|LAW)|TITLE)[:\s]+([^\n]+)/i] *)
Definition titleRe : RegExpObj :=
  mkRegExp
    (RSeqs [RAlts [RStart; RChar LF];
            RAlts [RSeqs [lit (js "A"); opt (lit (js "N")); lit (js " ");
                          RAlts [lit (js "ACT"); lit (js "BILL"); lit (js "LAW")]];
                   lit (js "TITLE")];
            plus (RClass false (cls ":" ++ [ClSpace]));
            RGroup 1 (plus (RClass true [ClChar LF]))])
    1 false true.

(** [/\b(19|20)\d{2}\b/] *)
Definition yearRe : RegExpObj :=
  mkRegExp
    (RSeqs [RWordB;
            RGroup 1 (RAlts [lit (js "19"); lit (js "20")]);
            RQuant 2 (Some 2) true (RClass false [ClDigit]);
            RWordB])
    1 false false.

(** [/(?:purpose|summary|overview|objects?)[:\s]*\n?([\s\S]{100,500}?)(?:\n\n|\n[A-Z])/i] *)
Definition summaryRe : RegExpObj :=
  mkRegExp
    (RSeqs [RAlts [lit (js "purpose"); lit (js "summary"); lit (js "overview");
                   RSeqs [lit (js "object"); opt (lit (js "s"))]];
            star (RClass false (cls ":" ++ [ClSpace]));
            opt (RChar LF);
            RGroup 1 (RQuant 100 (Some 500) false (RClass false [ClSpace; ClNotSpace]));
            RAlts [RSeqs [RChar LF; RChar LF];
                   RSeqs [RChar LF; RClass false [ClRange (ch "A") (ch "Z")]]]])
    1 false true.

(** [/\s+/g] *)
Definition spacesRe : RegExpObj :=
  mkRegExp (plus (RClass false [ClSpace])) 0 true false.

(** [/\n\n/] *)
Definition paragraphRe : RegExpObj :=
  mkRegExp (RSeqs [RChar LF; RChar LF]) 0 false false.

(** [/(?:objectives?|aims?|purposes?)[:\s]*\n?((?:[•\-\d\(][^\n]+\n?)+)/i] *)
Definition objectivesRe : RegExpObj :=
  mkRegExp
    (RSeqs [RAlts [RSeqs [lit (js "objective"); opt (lit (js "s"))];
                   RSeqs [lit (js "aim"); opt (lit (js "s"))];
                   RSeqs [lit (js "purpose"); opt (lit (js "s"))]];
            star (RClass false (cls ":" ++ [ClSpace]));
            opt (RChar LF);
            RGroup 1
              (plus (RSeqs [RClass false
                              [ClChar BULLET; ClChar (ch "-"); ClDigit; ClChar (ch "(")];
                            plus (RClass true [ClChar LF]);
                            opt (RChar LF)]))])
    1 false true.

(** [/(?:minister|ministry|department|agency|authority|commission|board|office)[^,\n]{0,50}/gi] *)
Definition agencyRe : RegExpObj :=
  mkRegExp
    (RSeqs [RAlts [lit (js "minister"); lit (js "ministry"); lit (js "department");
                   lit (js "agency"); lit (js "authority"); lit (js "commission");
                   lit (js "board"); lit (js "office")];
            RQuant 0 (Some 50) true (RClass true [ClChar (ch ","); ClChar LF])])
    0 true true.

Section Extractor.

Variable host : Host.

(** [word => word.charAt(0).toUpperCase() + word.slice(1).toLowerCase()] *)
Definition capitalize (word : jsstring) : jsstring :=
  toUpperCase host (JSString.charAt word 0)
  ++ toLowerCase host (JSString.slice word 1).

(** The title read off the file name (lines 58-63). *)
Definition titleFromFilename (filename : jsstring) : jsstring :=
  JSString.join (js " ")
    (map capitalize
       (JSString.split
          (replace (replace (replace filename extensionRe []) separatorRe (js " "))
             camelRe (js "$1 $2"))
          (js " "))).

(** [export function extractLegislationFallback(text, filename)] *)
Definition extractLegislationFallback (text : jsstring) (filename : option jsstring)
  : completion ExtractionResult :=
  filename <- deref filename "replace" ;;
  let legislationTitle := titleFromFilename filename in
  let titleMatch := match_ text titleRe in
  legislationTitle <-
    match titleMatch with
    | Some m => t <- deref (elem m 1) "trim" ;; Normal (JSString.trim t)
    | None => Normal legislationTitle
    end ;;
  let yearMatch := match_ text yearRe in
  let legislationYear :=
    match yearMatch with
    | Some m => elem m 0
    | None => Some []
    end in
  let summaryMatch := match_ text summaryRe in
  legislationSummary <-
    match summaryMatch with
    | Some m =>
        t <- deref (elem m 1) "trim" ;;
        Normal (JSString.substring
                  (replace (JSString.trim t) spacesRe (js " ")) 0 300)
    | None =>
        firstPara <- deref (match nth_error
                                    (split (JSString.substring text 0 500) paragraphRe) 0
                            with Some v => v | None => None end) "replace" ;;
        Normal (JSString.trim (replace firstPara spacesRe (js " ")))
    end ;;
  let objectivesMatch := match_ text objectivesRe in
  primaryObjectives <-
    match objectivesMatch with
    | Some m => t <- deref (elem m 1) "trim" ;; Normal (JSString.trim t)
    | None => Normal []
    end ;;
  let agencyMatches := matchGlobal text agencyRe in
  let implementingAgencies :=
    match agencyMatches with
    | Some l =>
        let uniqueAgencies := firstn 5 (JSSet.fromArray (map JSString.trim l)) in
        JSString.join (js ", ") uniqueAgencies
    | None => []
    end in
  Normal {|
    legislationTitle := Some legislationTitle;
    legislationYear := legislationYear;
    legislationSummary := Some (orElse legislationSummary defaultSummary);
    primaryObjectives := Some (orElse primaryObjectives defaultObjectives);
    implementingAgencies := Some (orElse implementingAgencies defaultAgencies);
    suggestedCountry := Some [];
    jurisdictionLevel := Some (js "national");
    parliamentType := Some [];
    keyProvisions := Some [];
    reviewClauses := Some [];
    _method := Some (js "fallback")
  |}.

End Extractor.

End Client.

Module RegExpFacts.

Import RegExp.

Lemma length_setCapture n v caps : length (setCapture n v caps) = length caps.
Proof.
  revert n; induction caps as [|c caps IH]; intros [|n]; simpl; auto.
Qed.

Lemma nth_error_setCapture_other n v caps k :
  k <> n -> nth_error (setCapture n v caps) k = nth_error caps k.
Proof.
  revert n k; induction caps as [|c caps IH]; intros [|n] [|k] H; simpl; auto.
  congruence.
Qed.

Lemma nth_error_setCapture_same n v caps :
  n < length caps -> nth_error (setCapture n v caps) n = Some v.
Proof.
  revert n; induction caps as [|c caps IH]; intros [|n] H; simpl in *; try lia; auto.
  apply IH; lia.
Qed.

Lemma length_clearCaptures ns caps : length (clearCaptures ns caps) = length caps.
Proof.
  unfold clearCaptures. revert caps.
  induction ns as [|n ns IH]; intros caps; simpl; auto.
  rewrite IH. apply length_setCapture.
Qed.

Lemma nth_error_clearCaptures ns caps k :
  ~ In k ns -> nth_error (clearCaptures ns caps) k = nth_error caps k.
Proof.
  unfold clearCaptures. revert caps.
  induction ns as [|n ns IH]; intros caps H; simpl in *; auto.
  rewrite IH by tauto. apply nth_error_setCapture_other. intros ->. tauto.
Qed.

Section Facts.

Variable Input : jsstring.
Variable IgnoreCase : bool.

(** The test of CharacterSetMatcher on one code unit. *)
Definition charOK (A : list ClassAtom) (invert : bool) (c : char) : bool :=
  xorb invert
    (existsb (inCharSet A) (canonicalClass IgnoreCase (Canonicalize IgnoreCase c))).

(** [matches r i j]: the pattern [r] can match the code units from [i] up
    to [j] of the input (the relation the matchers search, without the
    order in which they search it). *)
Inductive matches : Regex -> nat -> nat -> Prop :=
| MEmpty i : matches REmpty i i
| MChar a i c :
    nth_error Input i = Some c -> charOK [ClChar a] false c = true ->
    matches (RChar a) i (S i)
| MClass invert A i c :
    nth_error Input i = Some c -> charOK A invert c = true ->
    matches (RClass invert A) i (S i)
| MSeq r1 r2 i j k :
    matches r1 i j -> matches r2 j k -> matches (RSeq r1 r2) i k
| MAltL r1 r2 i j : matches r1 i j -> matches (RAlt r1 r2) i j
| MAltR r1 r2 i j : matches r2 i j -> matches (RAlt r1 r2) i j
| MQuantStop min max greedy r i :
    min = 0 \/ max = Some 0 -> matches (RQuant min max greedy r) i i
| MQuantStep min max greedy r i j k :
    max <> Some 0 -> matches r i j ->
    matches (RQuant (pred min) (option_map pred max) greedy r) j k ->
    matches (RQuant min max greedy r) i k
| MGroup n r i j : matches r i j -> matches (RGroup n r) i j
| MStart : matches RStart 0 0
| MEnd : matches REnd (length Input) (length Input)
| MWordB i :
    xorb (IsWordChar Input (Z.of_nat i - 1)) (IsWordChar Input (Z.of_nat i)) = true ->
    matches RWordB i i.

Lemma matches_le r i j : matches r i j -> i <= j.
Proof. induction 1; lia. Qed.

Lemma matches_bound r i j : matches r i j -> i <= length Input -> j <= length Input.
Proof.
  induction 1; intros; auto;
    try (assert (i < length Input) by (apply nth_error_Some; congruence); lia).
Qed.


Fixpoint definite (r : Regex) : list nat :=
  match r with
  | RSeq r1 r2 =>
      filter (fun n => negb (existsb (Nat.eqb n) (groups r2))) (definite r1)
      ++ definite r2
  | RGroup n _ => [n]
  | _ => []
  end.

(** What a successful matcher did: it called its continuation at a state
    [y] reached by a match of [r], with the captures outside [r] as they
    were and those that [r] always sets defined. *)
Definition reaches (r : Regex) (definites : list nat) (x y : MatchState) : Prop :=
  matches r (endIndex x) (endIndex y)
  /\ length (captures y) = length (captures x)
  /\ (forall n, ~ In n (groups r) ->
       nth_error (captures y) n = nth_error (captures x) n)
  /\ (forall n, In n definites -> n < length (captures x) ->
       exists p, nth_error (captures y) n = Some (Some p)).

Definition sound (r : Regex) (m : Matcher) : Prop :=
  forall x c z, m x c = Some z ->
  exists y, c y = Some z /\ reaches r (definite r) x y.

Lemma CharacterSetMatcher_reaches A invert x c z :
  CharacterSetMatcher Input IgnoreCase A invert x c = Some z ->
  exists y, c y = Some z /\ endIndex y = S (endIndex x)
    /\ captures y = captures x
    /\ exists chr, nth_error Input (endIndex x) = Some chr /\ charOK A invert chr = true.
Proof.
  unfold CharacterSetMatcher, charOK.
  destruct (nth_error Input (endIndex x)) as [chr|]; [|discriminate].
  destruct (xorb invert _) eqn:E; [|discriminate].
  intros H. eexists; split; [exact H|]. simpl. eauto.
Qed.

Lemma RepeatMatcher_sound r m :
  sound r m ->
  forall fuel min max greedy x c z,
    RepeatMatcher fuel m min max greedy x c (groups r) = Some z ->
    exists y, c y = Some z /\ reaches (RQuant min max greedy r) [] x y.
Proof.
  intros Hm. induction fuel as [|fuel IH]; intros min max greedy x c z; simpl;
    [discriminate|].
  assert (Hstop : min = 0 \/ max = Some 0 -> c x = Some z ->
            exists y, c y = Some z /\ reaches (RQuant min max greedy r) [] x y).
  { intros Hq Hc. exists x. split; [exact Hc|].
    repeat split; auto using MQuantStop. intros n []. }
  assert (Hstep : max <> Some 0 ->
    m (mkState (endIndex x) (clearCaptures (groups r) (captures x)))
      (fun y => if ((min =? 0) && (endIndex y =? endIndex x))%bool then None
                else RepeatMatcher fuel m (pred min) (option_map pred max)
                       greedy y c (groups r)) = Some z ->
    exists y, c y = Some z /\ reaches (RQuant min max greedy r) [] x y).
  { intros Hmax H. apply Hm in H. destruct H as (y1 & Hd & Hr1 & Hl1 & Hf1 & _).
    destruct ((min =? 0) && (endIndex y1 =? endIndex x))%bool; [discriminate|].
    apply IH in Hd. destruct Hd as (y & Hc & Hr & Hl & Hf & _).
    exists y. split; [exact Hc|]. simpl in *.
    rewrite length_clearCaptures in Hl1.
    repeat split.
    - eapply MQuantStep; eauto.
    - congruence.
    - intros n Hn. rewrite Hf, Hf1 by exact Hn.
      apply nth_error_clearCaptures. exact Hn.
    - intros n []. }
  assert (Hboth : max <> Some 0 ->
    (if negb (min =? 0)
     then m (mkState (endIndex x) (clearCaptures (groups r) (captures x)))
            (fun y => if ((min =? 0) && (endIndex y =? endIndex x))%bool then None
                      else RepeatMatcher fuel m (pred min) (option_map pred max)
                             greedy y c (groups r))
     else if negb greedy
     then match c x with
          | Some z => Some z
          | None =>
              m (mkState (endIndex x) (clearCaptures (groups r) (captures x)))
                (fun y => if ((min =? 0) && (endIndex y =? endIndex x))%bool then None
                          else RepeatMatcher fuel m (pred min) (option_map pred max)
                                 greedy y c (groups r))
          end
     else match m (mkState (endIndex x) (clearCaptures (groups r) (captures x)))
                  (fun y => if ((min =? 0) && (endIndex y =? endIndex x))%bool then None
                            else RepeatMatcher fuel m (pred min) (option_map pred max)
                                   greedy y c (groups r))
          with
          | Some z => Some z
          | None => c x
          end) = Some z ->
    exists y, c y = Some z /\ reaches (RQuant min max greedy r) [] x y).
  { intros Hmax H.
    destruct (min =? 0) eqn:Emin; simpl in H; [|apply Hstep; assumption].
    apply Nat.eqb_eq in Emin.
    destruct greedy; simpl in H.
    - assert (Hc : m (mkState (endIndex x) (clearCaptures (groups r) (captures x)))
                  (fun y => if (true && (endIndex y =? endIndex x))%bool then None
                            else RepeatMatcher fuel m (pred min) (option_map pred max)
                                   true y c (groups r)) = Some z
                  \/ c x = Some z).
      { destruct (m _ _); [left; exact H|right; exact H]. }
      destruct Hc; [apply Hstep|apply Hstop]; auto.
    - assert (Hc : c x = Some z \/
                  m (mkState (endIndex x) (clearCaptures (groups r) (captures x)))
                  (fun y => if (true && (endIndex y =? endIndex x))%bool then None
                            else RepeatMatcher fuel m (pred min) (option_map pred max)
                                   false y c (groups r)) = Some z).
      { destruct (c x); [left; exact H|right; exact H]. }
      destruct Hc; [apply Hstop|apply Hstep]; auto. }
  destruct max as [[|k]|].
  - apply Hstop. auto.
  - apply Hboth. discriminate.
  - apply Hboth. discriminate.
Qed.

Lemma compile_sound r : sound r (compile Input IgnoreCase r).
Proof.
  induction r as [|a|invert A|r1 IH1 r2 IH2|r1 IH1 r2 IH2|min max greedy r IH
                 |n r IH| | |]; intros x c z; simpl.
  - intros H. exists x. split; [exact H|]. unfold reaches. repeat split; auto using MEmpty. intros n [].
  - intros H. apply CharacterSetMatcher_reaches in H.
    destruct H as (y & Hc & He & Hcap & chr & Hn & Hok).
    exists y. split; [exact Hc|]. unfold reaches. rewrite He, Hcap.
    repeat split; eauto using MChar. intros n [].
  - intros H. apply CharacterSetMatcher_reaches in H.
    destruct H as (y & Hc & He & Hcap & chr & Hn & Hok).
    exists y. split; [exact Hc|]. unfold reaches. rewrite He, Hcap.
    repeat split; eauto using MClass. intros n [].
  - intros H. apply IH1 in H. destruct H as (y1 & H & Hr1 & Hl1 & Hf1 & Hd1).
    apply IH2 in H. destruct H as (y & Hc & Hr2 & Hl2 & Hf2 & Hd2).
    exists y. split; [exact Hc|]. unfold reaches.
    repeat split.
    + eapply MSeq; eauto.
    + congruence.
    + intros n Hn. simpl in Hn. rewrite in_app_iff in Hn.
      rewrite Hf2, Hf1; tauto.
    + intros n Hn Hlt. simpl in Hn. apply in_app_iff in Hn. destruct Hn as [Hn|Hn].
      * apply filter_In in Hn. destruct Hn as [Hn Hnot].
        rewrite Hf2.
        -- apply Hd1; auto.
        -- intros Hin. apply negb_true_iff in Hnot.
           assert (existsb (Nat.eqb n) (groups r2) = true); [|congruence].
           apply existsb_exists. exists n. split; [exact Hin|apply Nat.eqb_refl].
      * apply Hd2; auto. congruence.
  - destruct (compile Input IgnoreCase r1 x c) eqn:E.
    + intros H; inversion H; subst. apply IH1 in E.
      destruct E as (y & Hc & Hr & Hl & Hf & _).
      exists y. split; [exact Hc|]. unfold reaches.
      repeat split; auto using MAltL.
      * intros n Hn. apply Hf. simpl in Hn. rewrite in_app_iff in Hn. tauto.
      * intros n [].
    + intros H. apply IH2 in H.
      destruct H as (y & Hc & Hr & Hl & Hf & _).
      exists y. split; [exact Hc|]. unfold reaches.
      repeat split; auto using MAltR.
      * intros n Hn. apply Hf. simpl in Hn. rewrite in_app_iff in Hn. tauto.
      * intros n [].
  - intros H.
    exact (RepeatMatcher_sound r _ IH (S (min + (InputLength Input - endIndex x)))
             min max greedy x c z H).
  - intros H. apply IH in H. destruct H as (y & Hc & Hr & Hl & Hf & _).
    eexists. split; [exact Hc|]. unfold reaches. simpl.
    repeat split.
    + apply MGroup. exact Hr.
    + rewrite length_setCapture. exact Hl.
    + intros k Hk. simpl in Hk.
      rewrite nth_error_setCapture_other by (intros ->; tauto).
      apply Hf. tauto.
    + intros k [<-|[]] Hlt. eexists.
      apply nth_error_setCapture_same. congruence.
  - destruct (endIndex x =? 0) eqn:E; [|discriminate].
    apply Nat.eqb_eq in E. intros H. exists x. split; [exact H|].
    split; [rewrite E; apply MStart|].
    repeat split; auto. intros n [].
  - destruct (endIndex x =? InputLength Input) eqn:E; [|discriminate].
    apply Nat.eqb_eq in E. intros H. exists x. split; [exact H|].
    split; [rewrite E; apply MEnd|].
    repeat split; auto. intros n [].
  - destruct (xorb _ _) eqn:E; [|discriminate].
    intros H. exists x. split; [exact H|].
    split; [apply MWordB; exact E|].
    repeat split; auto. intros n [].
Qed.

End Facts.
End RegExpFacts.

Module ExecFacts.

Import RegExp JSRegExp RegExpFacts.

Section Exec.

Variable S : jsstring.
Variable R : RegExpObj.

Abbreviation matchAtR := (matchAt S (ignoreCase R) (source R) (nGroups R)).

Lemma scan_Some n i j y :
  scan S (ignoreCase R) n (source R) (nGroups R) i = Some (j, y) ->
  i <= j < i + n /\ matchAtR j = Some y /\
  forall k, i <= k < j -> matchAtR k = None.
Proof.
  revert i. induction n as [|n IH]; intros i; simpl; [discriminate|].
  destruct (matchAtR i) eqn:E.
  - intros H; inversion H; subst.
    split; [lia|]. split; [exact E|]. intros k Hk. lia.
  - intros H. apply IH in H. destruct H as (Hj & Hm & Hn).
    split; [lia|]. split; [exact Hm|].
    intros k Hk. destruct (Nat.eq_dec k i) as [->|Hne]; [exact E|].
    apply Hn. lia.
Qed.

Lemma scan_None n i :
  scan S (ignoreCase R) n (source R) (nGroups R) i = None ->
  forall k, i <= k < i + n -> matchAtR k = None.
Proof.
  revert i. induction n as [|n IH]; intros i; simpl; [intros _ k Hk; lia|].
  destruct (matchAtR i) eqn:E; [discriminate|].
  intros H k Hk. destruct (Nat.eq_dec k i) as [->|Hne]; [exact E|].
  apply (IH _ H). lia.
Qed.

Lemma scan_first n i j y :
  i <= j < i + n -> matchAtR j = Some y ->
  (forall k, i <= k < j -> matchAtR k = None) ->
  scan S (ignoreCase R) n (source R) (nGroups R) i = Some (j, y).
Proof.
  revert i. induction n as [|n IH]; intros i Hj Hm Hn; simpl; [lia|].
  destruct (Nat.eq_dec i j) as [->|Hne].
  - rewrite Hm. reflexivity.
  - rewrite (Hn i) by lia. apply IH; auto; try lia.
    intros k Hk. apply Hn. lia.
Qed.

Lemma scan_all_None n i :
  (forall k, i <= k < i + n -> matchAtR k = None) ->
  scan S (ignoreCase R) n (source R) (nGroups R) i = None.
Proof.
  revert i. induction n as [|n IH]; intros i Hn; simpl; [reflexivity|].
  rewrite (Hn i) by lia. apply IH. intros k Hk. apply Hn. lia.
Qed.

(** A match at [i]: it ends at some [j], element 0 of the captures is the
    whole match, and every group the pattern always sets is defined. *)
Lemma matchAt_sound i z :
  matchAtR i = Some z ->
  matches S (ignoreCase R) (source R) i (endIndex z)
  /\ length (captures z) = Datatypes.S (nGroups R)
  /\ nth_error (captures z) 0 = Some (Some (i, endIndex z))
  /\ forall n, In n (definite (source R)) -> 1 <= n <= nGroups R ->
       exists p, nth_error (captures z) n = Some (Some p).
Proof.
  unfold matchAt. intros H. apply compile_sound in H.
  destruct H as (y & Hz & Hm & Hl & _ & Hd). inversion Hz; subst; clear Hz.
  cbn [endIndex captures] in *. rewrite repeat_length in Hl, Hd.
  destruct (captures y) as [|c0 rest]; [discriminate|].
  repeat split; auto.
  intros [|n] Hn Hr; [lia|]. simpl.
  destruct (Hd (Datatypes.S n) Hn) as [p Hp]; [lia|]. eauto.
Qed.

End Exec.

(** The array that [S.match(R)] returns without the g flag. *)
Lemma match_sound S R A :
  match_ S R = Some A ->
  exists j,
    index A <= j <= length S
    /\ matches S (ignoreCase R) (source R) (index A) j
    /\ (forall k, k < index A ->
          matchAt S (ignoreCase R) (source R) (nGroups R) k = None)
    /\ elem A 0 = Some (JSString.substring S (index A) j)
    /\ forall n, In n (definite (source R)) -> 1 <= n <= nGroups R ->
         exists t, elem A n = Some t.
Proof.
  unfold match_, RegExpBuiltinExec.
  destruct (scan _ _ _ _ _ _) as [[i y]|] eqn:E; [|discriminate].
  intros H; inversion H; subst; clear H. cbn [index].
  apply scan_Some in E. destruct E as (Hi & Hm & Hn).
  apply matchAt_sound in Hm. destruct Hm as (Hm & Hl & H0 & Hd).
  exists (endIndex y). repeat split.
  - eapply matches_le; eauto.
  - eapply matches_bound; eauto. lia.
  - exact Hm.
  - intros k Hk. apply Hn. lia.
  - unfold elem. cbn [elems index]. rewrite nth_error_map, H0. reflexivity.
  - intros n Hn' Hr. destruct (Hd n Hn' Hr) as [[a b] Hp].
    unfold elem. cbn [elems index]. rewrite nth_error_map, Hp. simpl. eauto.
Qed.

Lemma match_None S R :
  match_ S R = None ->
  forall k, k <= length S ->
    matchAt S (ignoreCase R) (source R) (nGroups R) k = None.
Proof.
  unfold match_, RegExpBuiltinExec.
  destruct (scan _ _ _ _ _ _) as [[i y]|] eqn:E; [discriminate|].
  intros _ k Hk. eapply scan_None; eauto. lia.
Qed.

(** The first piece of [S.split(R)] is always there. *)
Lemma splitLoop_head fuel R S p q :
  length S - q < fuel ->
  exists t rest, splitLoop fuel R S p q = Some t :: rest.
Proof.
  revert q. induction fuel as [|fuel IH]; intros q Hf; [lia|]. simpl.
  destruct (q <? length S) eqn:Eq; [|eauto].
  apply Nat.ltb_lt in Eq.
  destruct (matchAt _ _ _ _ _) as [y|].
  - destruct (_ =? p); [|eauto].
    apply IH. unfold AdvanceStringIndex. lia.
  - apply IH. unfold AdvanceStringIndex. lia.
Qed.

Lemma split_head S R :
  matchAt [] (ignoreCase R) (source R) (nGroups R) 0 = None ->
  exists t, nth_error (split S R) 0 = Some (Some t).
Proof.
  intros Hempty. unfold split. destruct S as [|c S'].
  - rewrite Hempty. simpl. eauto.
  - destruct (splitLoop_head (Datatypes.S (2 * length (c :: S'))) R (c :: S') 0 0)
      as (t & rest & ->); [lia|]. simpl. eauto.
Qed.

End ExecFacts.

Module ExtractFacts.

Import RegExp JSRegExp RegExpFacts ExecFacts.

(** A field of the result of an extraction; [None] if it threw. *)
Definition field (f : ExtractionResult -> option jsstring)
  (c : completion ExtractionResult) : option jsstring :=
  match c with
  | Normal r => f r
  | Throw _ => None
  end.

Definition isString (v : option jsstring) : Prop := exists s, v = Some s.

(** The ten content fields of the data model hold strings. *)
Definition contentFieldsAreStrings (r : ExtractionResult) : Prop :=
  isString (legislationTitle r) /\ isString (legislationYear r)
  /\ isString (legislationSummary r) /\ isString (primaryObjectives r)
  /\ isString (implementingAgencies r) /\ isString (suggestedCountry r)
  /\ isString (jurisdictionLevel r) /\ isString (parliamentType r)
  /\ isString (keyProvisions r) /\ isString (reviewClauses r).

(** [{ ...r, _method: m }] *)
Definition withMethod (r : ExtractionResult) (m : option jsstring) : ExtractionResult :=
  {| legislationTitle := legislationTitle r;
     legislationYear := legislationYear r;
     legislationSummary := legislationSummary r;
     primaryObjectives := primaryObjectives r;
     implementingAgencies := implementingAgencies r;
     suggestedCountry := suggestedCountry r;
     jurisdictionLevel := jurisdictionLevel r;
     parliamentType := parliamentType r;
     keyProvisions := keyProvisions r;
     reviewClauses := reviewClauses r;
     _method := m |}.

Definition filenameOrDefault (filename : option jsstring) : jsstring :=
  match filename with Some f => f | None => js "document.txt" end.

(** The three local variables of [extractFallback] whose computation reads
    a capture group or a piece of a split. *)
Definition titleIs (host : Host) (text filename title : jsstring) : Prop :=
  match match_ text Server.titleRe with
  | Some m => exists t, elem m 1 = Some t /\ title = JSString.trim t
  | None => title = Server.titleFromFilename host filename
  end.

Definition summaryIs (text summary : jsstring) : Prop :=
  match match_ text Server.summaryRe with
  | Some m =>
      exists t, elem m 1 = Some t /\
        summary = JSString.substring
                    (replace (JSString.trim t) Server.spacesRe (js " ")) 0 300
  | None =>
      exists firstPara,
        nth_error (split (JSString.substring text 0 500) Server.paragraphRe) 0
          = Some (Some firstPara) /\
        summary = JSString.trim (replace firstPara Server.spacesRe (js " "))
  end.

Definition objectivesIs (text objectives : jsstring) : Prop :=
  match match_ text Server.objectivesRe with
  | Some m => exists t, elem m 1 = Some t /\ objectives = JSString.trim t
  | None => objectives = []
  end.

Definition yearOf (text : jsstring) : option jsstring :=
  match match_ text Server.yearRe with
  | Some m => elem m 0
  | None => Some []
  end.

Definition agenciesOf (text : jsstring) : jsstring :=
  match matchGlobal text Server.agencyRe with
  | Some l =>
      JSString.join (js ", ")
        (firstn 5 (JSSet.fromArray (map JSString.trim l)))
  | None => []
  end.

Lemma group1_defined S R m :
  match_ S R = Some m ->
  In 1 (definite (source R)) -> 1 <= nGroups R ->
  exists t, elem m 1 = Some t.
Proof.
  intros Hm Hin Hn. apply match_sound in Hm.
  destruct Hm as (j & _ & _ & _ & _ & Hd). apply Hd; auto.
Qed.

Lemma title_exists host text filename : exists title, titleIs host text filename title.
Proof.
  unfold titleIs. destruct (match_ text Server.titleRe) as [m|] eqn:E; [|eauto].
  destruct (group1_defined _ _ _ E) as [t Ht]; [vm_compute; auto|vm_compute; auto|].
  exists (JSString.trim t), t. auto.
Qed.

Lemma summary_exists text : exists summary, summaryIs text summary.
Proof.
  unfold summaryIs. destruct (match_ text Server.summaryRe) as [m|] eqn:E.
  - destruct (group1_defined _ _ _ E) as [t Ht]; [vm_compute; auto|vm_compute; auto|].
    eauto.
  - destruct (split_head (JSString.substring text 0 500) Server.paragraphRe)
      as [t Ht]; [reflexivity|]. eauto.
Qed.

Lemma objectives_exists text : exists objectives, objectivesIs text objectives.
Proof.
  unfold objectivesIs. destruct (match_ text Server.objectivesRe) as [m|] eqn:E; [|eauto].
  destruct (group1_defined _ _ _ E) as [t Ht]; [vm_compute; auto|vm_compute; auto|].
  eauto.
Qed.

Lemma year_exists text : exists year, yearOf text = Some year.
Proof.
  unfold yearOf. destruct (match_ text Server.yearRe) as [m|] eqn:E; [|eauto].
  apply match_sound in E. destruct E as (j & _ & _ & _ & H0 & _). eauto.
Qed.

(** The value [extractFallback] returns, field by field. *)
Lemma extractFallback_shape host text filename title summary objectives :
  titleIs host text (filenameOrDefault filename) title ->
  summaryIs text summary ->
  objectivesIs text objectives ->
  Server.extractFallback host text filename =
  Normal {|
    legislationTitle := Some title;
    legislationYear := yearOf text;
    legislationSummary := Some (orElse summary defaultSummary);
    primaryObjectives := Some (orElse objectives defaultObjectives);
    implementingAgencies := Some (orElse (agenciesOf text) defaultAgencies);
    suggestedCountry := Some [];
    jurisdictionLevel := Some (js "national");
    parliamentType := Some [];
    keyProvisions := Some [];
    reviewClauses := Some [];
    _method := None
  |}.
Proof.
  unfold titleIs, summaryIs, objectivesIs, Server.extractFallback, yearOf,
    agenciesOf, filenameOrDefault.
  intros Ht Hs Ho.
  destruct (match_ text Server.titleRe) as [mt|];
    [destruct Ht as (t & -> & ->)|subst title];
  (destruct (match_ text Server.summaryRe) as [ms|];
    [destruct Hs as (s & -> & ->)|destruct Hs as (fp & -> & ->)]);
  (destruct (match_ text Server.objectivesRe) as [mo|];
    [destruct Ho as (o & -> & ->)|subst objectives]);
  reflexivity.
Qed.

Lemma extractLegislationFallback_shape host text filename title summary objectives :
  titleIs host text filename title ->
  summaryIs text summary ->
  objectivesIs text objectives ->
  Client.extractLegislationFallback host text (Some filename) =
  Normal {|
    legislationTitle := Some title;
    legislationYear := yearOf text;
    legislationSummary := Some (orElse summary defaultSummary);
    primaryObjectives := Some (orElse objectives defaultObjectives);
    implementingAgencies := Some (orElse (agenciesOf text) defaultAgencies);
    suggestedCountry := Some [];
    jurisdictionLevel := Some (js "national");
    parliamentType := Some [];
    keyProvisions := Some [];
    reviewClauses := Some [];
    _method := Some (js "fallback")
  |}.
Proof.
  unfold titleIs, summaryIs, objectivesIs, Client.extractLegislationFallback, yearOf,
    agenciesOf.
  change Client.titleRe with Server.titleRe.
  change Client.summaryRe with Server.summaryRe.
  change Client.objectivesRe with Server.objectivesRe.
  change Client.yearRe with Server.yearRe.
  change Client.agencyRe with Server.agencyRe.
  change Client.paragraphRe with Server.paragraphRe.
  change Client.spacesRe with Server.spacesRe.
  change (Client.titleFromFilename host filename)
    with (Server.titleFromFilename host filename).
  intros Ht Hs Ho. unfold deref at 1, bind at 1.
  destruct (match_ text Server.titleRe) as [mt|];
    [destruct Ht as (t & -> & ->)|subst title];
  (destruct (match_ text Server.summaryRe) as [ms|];
    [destruct Hs as (s & -> & ->)|destruct Hs as (fp & -> & ->)]);
  (destruct (match_ text Server.objectivesRe) as [mo|];
    [destruct Ho as (o & -> & ->)|subst objectives]);
  reflexivity.
Qed.

End ExtractFacts.

(** ** Facts about code units and character classes *)

Module CharFacts.

Import RegExp RegExpFacts.

Ltac bool_cases :=
  repeat (cbn [andb orb negb xorb existsb] in *;
          match goal with
          | |- context [N.leb ?a ?b] => destruct (N.leb_spec a b)
          | |- context [N.eqb ?a ?b] => destruct (N.eqb_spec a b)
          end);
  cbn [andb orb negb xorb existsb] in *; try reflexivity; try lia.

Lemma toUpper1_idempotent c : toUpper1 (toUpper1 c) = toUpper1 c.
Proof. unfold toUpper1, isLowerAZ, between. bool_cases. Qed.

Lemma toUpper1_high c : (128 <= c)%N -> toUpper1 c = c.
Proof. intros H. unfold toUpper1, isLowerAZ, between. bool_cases. Qed.

Lemma isUpperAZ_high c : (128 <= c)%N -> isUpperAZ c = false.
Proof. intros H. unfold isUpperAZ, between. bool_cases. Qed.

(** Without the i flag the test is membership. *)
Lemma charOK_case_sensitive A invert c :
  charOK false A invert c = xorb invert (inCharSet A c).
Proof.
  unfold charOK, canonicalClass, Canonicalize. simpl.
  rewrite orb_false_r. reflexivity.
Qed.

(** With the i flag a code unit above Basic Latin is its own canonical form. *)
Lemma charOK_high A invert c :
  (128 <= c)%N -> charOK true A invert c = xorb invert (inCharSet A c).
Proof.
  intros H. unfold charOK, canonicalClass, Canonicalize.
  rewrite (toUpper1_high c H), (isUpperAZ_high c H). simpl.
  rewrite orb_false_r. reflexivity.
Qed.

(** A property of every code unit, from a table for Basic Latin and a
    proof above it. *)
Lemma by_table (f g : char -> bool) :
  forallb (fun n => Bool.eqb (f (N.of_nat n)) (g (N.of_nat n))) (seq 0 128) = true ->
  (forall c, (128 <= c)%N -> f c = g c) ->
  forall c, f c = g c.
Proof.
  intros Htab Hhigh c.
  destruct (N.le_gt_cases 128 c) as [H|H]; [auto|].
  rewrite forallb_forall in Htab.
  specialize (Htab (N.to_nat c)). rewrite N2Nat.id in Htab.
  apply Bool.eqb_prop. apply Htab. apply in_seq. lia.
Qed.

(** A pattern character matches the code units with its canonical form. *)
Lemma charOK_char ic a c :
  charOK ic [ClChar a] false c
  = N.eqb (Canonicalize ic a) (Canonicalize ic c).
Proof.
  destruct ic.
  - unfold charOK, canonicalClass, Canonicalize, inCharSet, inAtom, char_eqb,
      toUpper1, isUpperAZ, isLowerAZ, between. simpl.
    bool_cases.
  - rewrite charOK_case_sensitive. unfold inCharSet, Canonicalize. simpl.
    rewrite orb_false_r. reflexivity.
Qed.

(** [:] or white space: the class [[:\s]]. *)
Definition isSeparator (c : char) : bool := (N.eqb c 58 || isWhiteSpace c)%bool.

Lemma charOK_separator c :
  charOK true (cls ":" ++ [ClSpace]) false c = isSeparator c.
Proof.
  revert c. apply by_table; [vm_compute; reflexivity|].
  intros c H. rewrite (charOK_high _ _ c H).
  unfold inCharSet. change (cls ":" ++ [ClSpace]) with [ClChar 58%N; ClSpace].
  cbn [existsb inAtom]. unfold isSeparator, char_eqb.
  destruct (isWhiteSpace c); bool_cases.
Qed.

(** [[^\n]] *)
Lemma charOK_notLF c :
  charOK true [ClChar LF] true c = negb (N.eqb c LF).
Proof.
  revert c. apply by_table; [vm_compute; reflexivity|].
  intros c H. rewrite (charOK_high _ _ c H).
  unfold inCharSet, inAtom, char_eqb. bool_cases.
Qed.

(** [[^,\n]] *)
Definition isAgencyTail (c : char) : bool := negb (N.eqb c 44 || N.eqb c LF).

Lemma charOK_agencyTail c :
  charOK true [ClChar (ch ","); ClChar LF] true c = isAgencyTail c.
Proof.
  revert c. apply by_table; [vm_compute; reflexivity|].
  intros c H. rewrite (charOK_high _ _ c H).
  unfold inCharSet, isAgencyTail, inAtom, char_eqb.
  change (ch ",") with 44%N. bool_cases.
Qed.

Lemma isSeparator_LF : isSeparator LF = true.
Proof. reflexivity. Qed.

End CharFacts.

(** ** Facts about strings and Sets *)

Module SetFacts.

Lemma jsstring_eqb_eq s t : jsstring_eqb s t = true <-> s = t.
Proof.
  revert t. induction s as [|a s IH]; intros [|b t]; simpl; split;
    try discriminate; auto.
  - intros H. apply andb_true_iff in H. destruct H as [Hab Hst].
    apply N.eqb_eq in Hab. apply IH in Hst. congruence.
  - intros H. inversion H; subst. apply andb_true_iff. split.
    + apply N.eqb_refl.
    + apply IH. reflexivity.
Qed.

(** [has] compares code unit by code unit: membership is exact equality. *)
Lemma has_In s x : JSSet.has s x = true <-> In x s.
Proof.
  unfold JSSet.has. rewrite existsb_exists. split.
  - intros (y & Hy & He). apply jsstring_eqb_eq in He. subst. exact Hy.
  - intros H. exists x. split; [exact H|]. apply jsstring_eqb_eq. reflexivity.
Qed.

Lemma add_In s x y : In y (JSSet.add s x) <-> In y s \/ y = x.
Proof.
  unfold JSSet.add. destruct (JSSet.has s x) eqn:E.
  - apply has_In in E. split; [auto|]. intros [H| ->]; auto.
  - rewrite in_app_iff. simpl. intuition congruence.
Qed.

Lemma add_NoDup s x : NoDup s -> NoDup (JSSet.add s x).
Proof.
  intros H. unfold JSSet.add. destruct (JSSet.has s x) eqn:E; [exact H|].
  assert (Hn : ~ In x s). { intros Hin. apply has_In in Hin. congruence. }
  apply NoDup_app; [exact H|repeat constructor; intros []|].
  intros y Hy [<-|[]]. tauto.
Qed.

Lemma add_prefix s x : exists u, JSSet.add s x = s ++ u.
Proof.
  unfold JSSet.add. destruct (JSSet.has s x).
  - exists []. rewrite app_nil_r. reflexivity.
  - eauto.
Qed.

Lemma fold_add_In l s y : In y (fold_left JSSet.add l s) <-> In y s \/ In y l.
Proof.
  revert s. induction l as [|x l IH]; intros s; simpl.
  - tauto.
  - rewrite IH, add_In. intuition.
Qed.

Lemma fold_add_NoDup l s : NoDup s -> NoDup (fold_left JSSet.add l s).
Proof.
  revert s. induction l as [|x l IH]; intros s H; simpl; auto using add_NoDup.
Qed.

Lemma fold_add_prefix l s : exists u, fold_left JSSet.add l s = s ++ u.
Proof.
  revert s. induction l as [|x l IH]; intros s; simpl.
  - exists []. rewrite app_nil_r. reflexivity.
  - destruct (IH (JSSet.add s x)) as [u ->].
    destruct (add_prefix s x) as [v ->]. rewrite <- app_assoc. eauto.
Qed.

Lemma fromArray_In l y : In y (JSSet.fromArray l) <-> In y l.
Proof. unfold JSSet.fromArray. rewrite fold_add_In. simpl. tauto. Qed.

Lemma fromArray_NoDup l : NoDup (JSSet.fromArray l).
Proof. apply fold_add_NoDup. constructor. Qed.

(** Insertion order: the Set of a prefix of the array is a prefix of the
    Set of the array. *)
Lemma fromArray_app l1 l2 :
  exists u, JSSet.fromArray (l1 ++ l2) = JSSet.fromArray l1 ++ u.
Proof.
  unfold JSSet.fromArray. rewrite fold_left_app. apply fold_add_prefix.
Qed.

(** Deduplication in the words of the specification: an element is kept
    when it was not seen before. *)
Fixpoint firstSeen (seen l : list jsstring) : list jsstring :=
  match l with
  | [] => []
  | x :: rest =>
      if JSSet.has seen x then firstSeen seen rest
      else x :: firstSeen (seen ++ [x]) rest
  end.

Lemma fold_add_firstSeen l s :
  fold_left JSSet.add l s = s ++ firstSeen s l.
Proof.
  revert s. induction l as [|x l IH]; intros s; simpl.
  - rewrite app_nil_r. reflexivity.
  - rewrite IH. unfold JSSet.add. destruct (JSSet.has s x); [reflexivity|].
    rewrite <- app_assoc. reflexivity.
Qed.

Lemma fromArray_firstSeen l : JSSet.fromArray l = firstSeen [] l.
Proof. apply (fold_add_firstSeen l []). Qed.

Lemma firstn_In {A} n (l : list A) x : In x (firstn n l) -> In x l.
Proof.
  intros H. rewrite <- (firstn_skipn n l). apply in_or_app. left. exact H.
Qed.

Lemma firstn_NoDup {A} n (l : list A) : NoDup l -> NoDup (firstn n l).
Proof.
  intros H. revert n. induction H as [|x l Hx H IH]; intros [|n]; simpl;
    try constructor; auto.
  intros Hin. apply Hx. eapply firstn_In. exact Hin.
Qed.

End SetFacts.

(** ** Reading matches off the relation, and running the matchers *)

Module StringFacts.

Lemma substring_same s i : JSString.substring s i i = [].
Proof. unfold JSString.substring. rewrite Nat.sub_diag. reflexivity. Qed.

Lemma substring_char s i c :
  nth_error s i = Some c -> JSString.substring s i (S i) = [c].
Proof.
  unfold JSString.substring. replace (S i - i) with 1 by lia.
  revert i. induction s as [|a s IH]; intros [|i] H; simpl in *;
    try discriminate.
  - inversion H; reflexivity.
  - apply IH. exact H.
Qed.

Lemma firstn_plus {A} a b (l : list A) :
  firstn (a + b) l = firstn a l ++ firstn b (skipn a l).
Proof.
  revert l. induction a as [|a IH]; intros [|x l]; simpl; auto.
  - rewrite firstn_nil. reflexivity.
  - rewrite IH. reflexivity.
Qed.

Lemma substring_app s i j k :
  i <= j -> j <= k ->
  JSString.substring s i k = JSString.substring s i j ++ JSString.substring s j k.
Proof.
  intros Hij Hjk. unfold JSString.substring.
  replace (k - i) with ((j - i) + (k - j)) by lia.
  rewrite firstn_plus. f_equal. rewrite skipn_skipn.
  replace (j - i + i) with j by lia. reflexivity.
Qed.

Lemma substring_length s i j :
  i <= j -> j <= length s -> length (JSString.substring s i j) = j - i.
Proof.
  intros Hij Hj. unfold JSString.substring.
  rewrite length_firstn, length_skipn. lia.
Qed.

Lemma substring_app_middle pre u post :
  JSString.substring (pre ++ u ++ post) (length pre) (length pre + length u) = u.
Proof.
  unfold JSString.substring.
  rewrite skipn_app, skipn_all, Nat.sub_diag. simpl.
  replace (length pre + length u - length pre) with (length u) by lia.
  rewrite firstn_app, firstn_all, Nat.sub_diag. simpl. apply app_nil_r.
Qed.

Lemma app_inj_length {A} (a b c d : list A) :
  length a = length c -> a ++ b = c ++ d -> a = c /\ b = d.
Proof.
  revert c. induction a as [|x a IH]; intros [|y c] Hl H; simpl in *;
    try discriminate; auto.
  inversion H; subst. destruct (IH c) as [-> ->]; auto.
Qed.

Lemma nth_error_middle {A} (pre : list A) c post :
  nth_error (pre ++ c :: post) (length pre) = Some c.
Proof.
  rewrite nth_error_app2 by lia. rewrite Nat.sub_diag. reflexivity.
Qed.

End StringFacts.

Module MatchFacts.

Import RegExp RegExpFacts CharFacts StringFacts.

Section Inversion.

Variable Input : jsstring.
Variable IgnoreCase : bool.

Abbreviation matchesI := (matches Input IgnoreCase).
Abbreviation canon := (Canonicalize IgnoreCase).
Abbreviation sub := (JSString.substring Input).

Lemma matches_REmpty_inv i j : matchesI REmpty i j -> j = i.
Proof. inversion 1; reflexivity. Qed.

Lemma matches_RChar_inv a i j :
  matchesI (RChar a) i j ->
  j = S i /\ exists c, nth_error Input i = Some c /\ canon a = canon c.
Proof.
  inversion 1; subst. split; [reflexivity|]. exists c. split; [assumption|].
  rewrite charOK_char in *. apply N.eqb_eq. assumption.
Qed.

Lemma matches_RClass_inv invert A i j :
  matchesI (RClass invert A) i j ->
  j = S i /\ exists c, nth_error Input i = Some c /\ charOK IgnoreCase A invert c = true.
Proof. inversion 1; subst. eauto. Qed.

Lemma matches_RSeq_inv r1 r2 i j :
  matchesI (RSeq r1 r2) i j -> exists k, matchesI r1 i k /\ matchesI r2 k j.
Proof. inversion 1; subst. eauto. Qed.

Lemma matches_RAlt_inv r1 r2 i j :
  matchesI (RAlt r1 r2) i j -> matchesI r1 i j \/ matchesI r2 i j.
Proof. inversion 1; subst; auto. Qed.

Lemma matches_RGroup_inv n r i j : matchesI (RGroup n r) i j -> matchesI r i j.
Proof. inversion 1; subst; auto. Qed.

Lemma matches_RStart_inv i j : matchesI RStart i j -> i = 0 /\ j = 0.
Proof. inversion 1; auto. Qed.


Lemma matches_RWordB_inv i j :
  matchesI RWordB i j ->
  j = i /\ xorb (IsWordChar Input (Z.of_nat i - 1)) (IsWordChar Input (Z.of_nat i)) = true.
Proof. inversion 1; auto. Qed.

Lemma substring_nth_error i n l k :
  sub i (i + n) = l -> length l = n -> k < n ->
  nth_error Input (i + k) = nth_error l k.
Proof.
  intros Hl Hn Hk. rewrite <- Hl. unfold JSString.substring.
  replace (i + n - i) with n by lia.
  rewrite nth_error_firstn.
  destruct (k <? n) eqn:E; [|apply Nat.ltb_ge in E; lia].
  rewrite nth_error_skipn. reflexivity.
Qed.

(** [r?] *)
Lemma matches_opt_inv greedy r i j :
  matchesI (RQuant 0 (Some 1) greedy r) i j -> j = i \/ matchesI r i j.
Proof.
  inversion 1; subst; auto.
  match goal with
  | H : matchesI (RQuant _ _ _ _) _ _ |- _ => simpl in H; inversion H; subst
  end; auto.
  congruence.
Qed.

(** A literal word matches the code units with its canonical forms. *)
Lemma matches_lit w : forall i j,
  matchesI (lit w) i j ->
  j = i + length w /\ map canon (sub i j) = map canon w.
Proof.
  induction w as [|a w IH]; intros i j H.
  - apply matches_REmpty_inv in H. subst. rewrite substring_same.
    split; [simpl; lia|reflexivity].
  - assert (Hstep : exists k, matchesI (RChar a) i k /\ matchesI (lit w) k j).
    { destruct w as [|b w'].
      - exists j. split; [exact H|]. apply matches_RChar_inv in H.
        destruct H as [-> _]. apply MEmpty.
      - simpl in H. apply matches_RSeq_inv in H. exact H. }
    destruct Hstep as (k & Ha & Hw). apply matches_RChar_inv in Ha.
    destruct Ha as (-> & c & Hc & Hcanon). apply IH in Hw.
    destruct Hw as (-> & Hw). split; [simpl; lia|].
    rewrite (substring_app Input i (S i)) by lia.
    rewrite (substring_char _ _ _ Hc), map_app, Hw. simpl. congruence.
Qed.

(** A quantified class matches a run of code units of the class. *)
Lemma matches_class_quant invert A greedy min max i j :
  matchesI (RQuant min max greedy (RClass invert A)) i j ->
  i <= j
  /\ Forall (fun c => charOK IgnoreCase A invert c = true) (sub i j)
  /\ (forall m, max = Some m -> j - i <= m)
  /\ ((forall m, max = Some m -> min <= m) -> min <= j - i).
Proof.
  intros H. remember (RQuant min max greedy (RClass invert A)) as r eqn:E.
  revert min max E. induction H; intros min' max' E; inversion E; subst; clear E.
  - rewrite substring_same, Nat.sub_diag. repeat split; auto; try lia.
    intros Hm. destruct H as [-> | ->]; [lia|]. specialize (Hm 0 eq_refl). lia.
  - apply matches_RClass_inv in H0. destruct H0 as (-> & c & Hc & Hok).
    destruct (IHmatches2 _ _ eq_refl) as (Hle & Hall & Hmax & Hmin).
    split; [lia|]. split; [|split].
    + rewrite (substring_app Input i (S i)) by lia.
      rewrite (substring_char _ _ _ Hc). constructor; assumption.
    + intros m ->. destruct m as [|m]; [congruence|].
      specialize (Hmax m eq_refl). lia.
    + intros Hm.
      assert (pred min' <= k - S i); [|lia].
      apply Hmin. intros m Hpm. destruct max' as [m'|]; [|discriminate].
      inversion Hpm; subst. specialize (Hm m' eq_refl). lia.
Qed.

End Inversion.

(** The code unit before [i] and the one at [i] are word characters. *)
Definition wordBefore (s : jsstring) (i : nat) : bool :=
  match i with
  | 0 => false
  | S k => match nth_error s k with Some c => isWordCharacter c | None => false end
  end.

Definition wordAt (s : jsstring) (i : nat) : bool :=
  match nth_error s i with Some c => isWordCharacter c | None => false end.

Lemma IsWordChar_before s i : IsWordChar s (Z.of_nat i - 1) = wordBefore s i.
Proof.
  unfold IsWordChar, wordBefore, InputLength. destruct i as [|k].
  - reflexivity.
  - replace (Z.of_nat (S k) - 1)%Z with (Z.of_nat k) by lia.
    rewrite Nat2Z.id.
    destruct (Z.eqb_spec (Z.of_nat k) (-1)) as [H|_]; [lia|].
    destruct (Z.eqb_spec (Z.of_nat k) (Z.of_nat (length s))) as [H|_];
      [|reflexivity].
    apply Nat2Z.inj in H. subst k. simpl.
    replace (nth_error s (length s)) with (@None char); [reflexivity|].
    symmetry. apply nth_error_None. lia.
Qed.

Lemma IsWordChar_at s i : IsWordChar s (Z.of_nat i) = wordAt s i.
Proof.
  unfold IsWordChar, wordAt, InputLength. rewrite Nat2Z.id.
  destruct (Z.eqb_spec (Z.of_nat i) (-1)) as [H|_]; [lia|].
  destruct (Z.eqb_spec (Z.of_nat i) (Z.of_nat (length s))) as [H|_];
    [|reflexivity].
  apply Nat2Z.inj in H. subst i. simpl.
  replace (nth_error s (length s)) with (@None char); [reflexivity|].
  symmetry. apply nth_error_None. lia.
Qed.

Section Evaluation.

Variable Input : jsstring.
Variable IgnoreCase : bool.

Abbreviation canon' := (Canonicalize IgnoreCase).
Abbreviation run := (compile Input IgnoreCase).

Lemma run_RSeq r1 r2 x k :
  run (RSeq r1 r2) x k = run r1 x (fun y => run r2 y k).
Proof. reflexivity. Qed.

Lemma run_RAlt r1 r2 x k :
  run (RAlt r1 r2) x k
  = match run r1 x k with Some z => Some z | None => run r2 x k end.
Proof. reflexivity. Qed.

Lemma run_RGroup n r x k :
  run (RGroup n r) x k
  = run r x (fun y =>
      k (mkState (endIndex y)
           (setCapture n (Some (endIndex x, endIndex y)) (captures y)))).
Proof. reflexivity. Qed.

Lemma run_RWordB x k :
  run RWordB x k
  = if xorb (wordBefore Input (endIndex x)) (wordAt Input (endIndex x))
    then k x else None.
Proof. simpl. rewrite IsWordChar_before, IsWordChar_at. reflexivity. Qed.

Lemma run_RStart x k :
  run RStart x k = if endIndex x =? 0 then k x else None.
Proof. reflexivity. Qed.

Lemma CharacterSetMatcher_eval A invert e caps k c :
  nth_error Input e = Some c ->
  CharacterSetMatcher Input IgnoreCase A invert (mkState e caps) k
  = if charOK IgnoreCase A invert c then k (mkState (S e) caps) else None.
Proof.
  intros H. unfold CharacterSetMatcher, charOK. simpl. rewrite H. reflexivity.
Qed.

Lemma CharacterSetMatcher_end A invert e caps k :
  nth_error Input e = None ->
  CharacterSetMatcher Input IgnoreCase A invert (mkState e caps) k = None.
Proof.
  intros H. unfold CharacterSetMatcher. simpl. rewrite H. reflexivity.
Qed.

Lemma run_RChar_ok a e caps k c :
  nth_error Input e = Some c -> canon' a = canon' c ->
  run (RChar a) (mkState e caps) k = k (mkState (S e) caps).
Proof.
  intros Hc Ha. simpl. rewrite (CharacterSetMatcher_eval _ _ _ _ _ c Hc).
  rewrite charOK_char, Ha, N.eqb_refl. reflexivity.
Qed.

Lemma run_RChar_fail a e caps k :
  (forall c, nth_error Input e = Some c -> canon' a <> canon' c) ->
  run (RChar a) (mkState e caps) k = None.
Proof.
  intros H. simpl. destruct (nth_error Input e) as [c|] eqn:Hc.
  - rewrite (CharacterSetMatcher_eval _ _ _ _ _ c Hc), charOK_char.
    destruct (N.eqb_spec (canon' a) (canon' c)) as [Heq|]; [|reflexivity].
    exfalso. exact (H c eq_refl Heq).
  - apply CharacterSetMatcher_end. exact Hc.
Qed.

(** A literal word at [e]. *)
Lemma run_lit_ok w : forall e caps k,
  map canon' (JSString.substring Input e (e + length w)) = map canon' w ->
  e + length w <= length Input ->
  run (lit w) (mkState e caps) k = k (mkState (e + length w) caps).
Proof.
  induction w as [|a w IH]; intros e caps k Hw Hlen.
  - simpl. rewrite Nat.add_0_r. reflexivity.
  - simpl length in *.
    destruct (nth_error Input e) as [c|] eqn:Hc;
      [|apply nth_error_None in Hc; lia].
    rewrite (substring_app Input e (S e)) in Hw by lia.
    rewrite (substring_char _ _ _ Hc) in Hw. simpl in Hw.
    inversion Hw as [[Hcanon Hrest]].
    replace (e + S (length w)) with (S e + length w) in * by lia.
    assert (Hstep : run (lit (a :: w)) (mkState e caps) k
                    = run (RChar a) (mkState e caps)
                        (fun y => run (lit w) y k)).
    { destruct w; reflexivity. }
    rewrite Hstep, (run_RChar_ok a e caps _ c Hc (eq_sym Hcanon)).
    apply IH; [exact Hrest|lia].
Qed.

Lemma run_lit_fail a w e caps k :
  (forall c, nth_error Input e = Some c -> canon' a <> canon' c) ->
  run (lit (a :: w)) (mkState e caps) k = None.
Proof.
  intros H.
  assert (Hstep : run (lit (a :: w)) (mkState e caps) k
                  = run (RChar a) (mkState e caps) (fun y => run (lit w) y k)).
  { destruct w; reflexivity. }
  rewrite Hstep. apply run_RChar_fail. exact H.
Qed.

Lemma RepeatMatcher_step fuel m min max greedy x c parens :
  RepeatMatcher (S fuel) m min max greedy x c parens
  = match max with
    | Some 0 => c x
    | _ =>
        let d : Continuation := fun y =>
          if ((min =? 0) && (endIndex y =? endIndex x))%bool then None
          else RepeatMatcher fuel m (pred min) (option_map pred max)
                 greedy y c parens in
        let xr := mkState (endIndex x) (clearCaptures parens (captures x)) in
        if negb (min =? 0) then m xr d
        else if negb greedy then
          match c x with
          | Some z => Some z
          | None => m xr d
          end
        else
          match m xr d with
          | Some z => Some z
          | None => c x
          end
    end.
Proof. reflexivity. Qed.

(** A greedy quantifier over a class takes the longest run it may, when the
    rest of the pattern matches from there. *)
Lemma greedy_class_run A invert n : forall fuel min max e caps k z,
  (forall i, i < n ->
     exists c, nth_error Input (e + i) = Some c
               /\ charOK IgnoreCase A invert c = true) ->
  (max = Some n
   \/ ((forall m, max = Some m -> n < m)
       /\ forall c, nth_error Input (e + n) = Some c ->
                    charOK IgnoreCase A invert c = false)) ->
  min <= n -> n < fuel ->
  k (mkState (e + n) caps) = Some z ->
  RepeatMatcher fuel (CharacterSetMatcher Input IgnoreCase A invert) min max true
    (mkState e caps) k [] = Some z.
Proof.
  induction n as [|n IH]; intros fuel min max e caps k z Hrun Hstop Hmin Hfuel Hk;
    (destruct fuel as [|fuel]; [lia|]);
    rewrite RepeatMatcher_step; cbv zeta;
    cbn [endIndex captures clearCaptures fold_left].
  - rewrite Nat.add_0_r in *. assert (min = 0) by lia. subst min.
    destruct Hstop as [->|[Hmax Hc]]; [exact Hk|].
    cbn [Nat.eqb negb].
    match goal with
    | |- context [CharacterSetMatcher ?a ?b ?c ?d ?x ?dd] =>
        replace (CharacterSetMatcher a b c d x dd) with (@None MatchState)
    end.
    + destruct max as [[|m]|]; exact Hk.
    + symmetry. destruct (nth_error Input e) as [c|] eqn:E.
      * rewrite (CharacterSetMatcher_eval _ _ _ _ _ c E), (Hc c eq_refl).
        reflexivity.
      * apply CharacterSetMatcher_end. exact E.
  - destruct (Hrun 0) as (c & Hc & Hok); [lia|]. rewrite Nat.add_0_r in Hc.
    assert (Hnext : RepeatMatcher fuel (CharacterSetMatcher Input IgnoreCase A invert)
              (pred min) (option_map pred max) true (mkState (S e) caps) k []
            = Some z).
    { apply IH.
      - intros i Hi. destruct (Hrun (S i)) as (c' & Hc' & Hok'); [lia|].
        exists c'. split; [|exact Hok'].
        rewrite <- Hc'. f_equal. lia.
      - destruct Hstop as [->|[Hmax Hend]]; [left; reflexivity|right]. split.
        + intros m Hm. destruct max as [[|m']|]; simpl in Hm; try discriminate.
          * specialize (Hmax 0 eq_refl). lia.
          * inversion Hm; subst. specialize (Hmax (S m) eq_refl). lia.
        + intros c' Hc'. apply Hend. rewrite <- Hc'. f_equal. lia.
      - lia.
      - lia.
      - rewrite <- Hk. f_equal. f_equal. lia. }
    assert (Hmax0 : max <> Some 0).
    { destruct Hstop as [->|[Hmax _]]; [discriminate|].
      intros ->. specialize (Hmax 0 eq_refl). lia. }
    match goal with
    | |- context [CharacterSetMatcher ?a ?b ?c ?d ?x ?dd] =>
        replace (CharacterSetMatcher a b c d x dd) with (Some z)
    end.
    + destruct max as [[|m]|]; [congruence| |]; destruct (min =? 0); reflexivity.
    + symmetry. rewrite (CharacterSetMatcher_eval _ _ _ _ _ c Hc), Hok.
      cbn [endIndex]. replace (S e =? e) with false
        by (symmetry; apply Nat.eqb_neq; lia).
      rewrite andb_false_r. exact Hnext.
Qed.

(** The same for the compiled quantifier, whose fuel is enough. *)
Lemma run_greedy_class A invert n min max e caps k z :
  e <= length Input ->
  (forall i, i < n ->
     exists c, nth_error Input (e + i) = Some c
               /\ charOK IgnoreCase A invert c = true) ->
  (max = Some n
   \/ ((forall m, max = Some m -> n < m)
       /\ forall c, nth_error Input (e + n) = Some c ->
                    charOK IgnoreCase A invert c = false)) ->
  min <= n ->
  k (mkState (e + n) caps) = Some z ->
  run (RQuant min max true (RClass invert A)) (mkState e caps) k = Some z.
Proof.
  intros He Hrun Hstop Hmin Hk.
  change (run (RQuant min max true (RClass invert A)) (mkState e caps) k)
    with (RepeatMatcher (S (min + (InputLength Input - e)))
            (CharacterSetMatcher Input IgnoreCase A invert) min max true
            (mkState e caps) k []).
  apply (greedy_class_run A invert n); auto.
  assert (e + n <= length Input); [|unfold InputLength; lia].
  destruct n as [|n]; [lia|]. destruct (Hrun n) as (c & Hc & _); [lia|].
  assert (e + n < length Input) by (apply nth_error_Some; congruence). lia.
Qed.

End Evaluation.

End MatchFacts.
(** ** The bounds of the loops *)

Module FuelFacts.

Import RegExp JSRegExp RegExpFacts ExecFacts.

Section Matchers.

Variable Input : jsstring.
Variable IgnoreCase : bool.

Abbreviation L := (length Input).

(** A matcher looks at its continuation only at states between its own
    and the end of the input. *)
Definition local (m : Matcher) : Prop :=
  forall x c1 c2,
    endIndex x <= L ->
    (forall y, endIndex x <= endIndex y <= L -> c1 y = c2 y) ->
    m x c1 = m x c2.

Lemma CharacterSetMatcher_local A invert :
  local (CharacterSetMatcher Input IgnoreCase A invert).
Proof.
  intros x c1 c2 Hx Hc. unfold CharacterSetMatcher.
  destruct (nth_error Input (endIndex x)) as [chr|] eqn:E; [|reflexivity].
  destruct (xorb invert _); [|reflexivity].
  apply Hc. cbn [endIndex].
  assert (endIndex x < L) by (apply nth_error_Some; congruence). lia.
Qed.

Lemma RepeatMatcher_local m parens :
  local m ->
  forall fuel min max greedy,
    local (fun x c => RepeatMatcher fuel m min max greedy x c parens).
Proof.
  intros Hm. induction fuel as [|fuel IH]; intros min max greedy x c1 c2 Hx Hc;
    [reflexivity|].
  cbn [RepeatMatcher].
  assert (Hcx : c1 x = c2 x) by (apply Hc; lia).
  assert (Hd : m (mkState (endIndex x) (clearCaptures parens (captures x)))
                 (fun y => if ((min =? 0) && (endIndex y =? endIndex x))%bool then None
                           else RepeatMatcher fuel m (pred min) (option_map pred max)
                                  greedy y c1 parens)
               = m (mkState (endIndex x) (clearCaptures parens (captures x)))
                   (fun y => if ((min =? 0) && (endIndex y =? endIndex x))%bool then None
                             else RepeatMatcher fuel m (pred min) (option_map pred max)
                                    greedy y c2 parens)).
  { apply Hm; [exact Hx|]. cbn [endIndex]. intros y Hy.
    destruct ((min =? 0) && (endIndex y =? endIndex x))%bool; [reflexivity|].
    apply (IH (pred min) (option_map pred max) greedy y c1 c2); [lia|].
    intros y' Hy'. apply Hc. lia. }
  rewrite Hcx, Hd. reflexivity.
Qed.

Lemma compile_local r : local (compile Input IgnoreCase r).
Proof.
  induction r as [|a|invert A|r1 IH1 r2 IH2|r1 IH1 r2 IH2|min max greedy r IH
                 |n r IH| | |]; intros x c1 c2 Hx Hc; cbn [compile].
  - apply Hc. lia.
  - apply CharacterSetMatcher_local; assumption.
  - apply CharacterSetMatcher_local; assumption.
  - apply IH1; [exact Hx|]. intros y Hy. apply IH2; [lia|].
    intros y' Hy'. apply Hc. lia.
  - rewrite (IH1 x c1 c2 Hx Hc), (IH2 x c1 c2 Hx Hc). reflexivity.
  - apply (RepeatMatcher_local _ _ IH); assumption.
  - apply IH; [exact Hx|]. intros y Hy. apply Hc. cbn [endIndex]. exact Hy.
  - destruct (endIndex x =? 0); [apply Hc; lia|reflexivity].
  - destruct (endIndex x =? InputLength Input); [apply Hc; lia|reflexivity].
  - destruct (xorb _ _); [apply Hc; lia|reflexivity].
Qed.

(** With [min] iterations to go and [L - endIndex x] code units left, more
    than [min + (L - endIndex x)] nested calls are never made: one call
    more makes no difference. *)
Lemma RepeatMatcher_fuel_step m parens :
  local m ->
  forall fuel min max greedy x c,
    endIndex x <= L ->
    min + (L - endIndex x) < fuel ->
    RepeatMatcher (S fuel) m min max greedy x c parens
    = RepeatMatcher fuel m min max greedy x c parens.
Proof.
  intros Hm. induction fuel as [|fuel IH]; intros min max greedy x c Hx Hfuel; [lia|].
  rewrite (MatchFacts.RepeatMatcher_step (S fuel)), (MatchFacts.RepeatMatcher_step fuel).
  cbv zeta.
  assert (Hd : m (mkState (endIndex x) (clearCaptures parens (captures x)))
                 (fun y => if ((min =? 0) && (endIndex y =? endIndex x))%bool then None
                           else RepeatMatcher (S fuel) m (pred min) (option_map pred max)
                                  greedy y c parens)
               = m (mkState (endIndex x) (clearCaptures parens (captures x)))
                   (fun y => if ((min =? 0) && (endIndex y =? endIndex x))%bool then None
                             else RepeatMatcher fuel m (pred min) (option_map pred max)
                                    greedy y c parens)).
  { apply Hm; [exact Hx|]. cbn [endIndex]. intros y Hy.
    destruct ((min =? 0) && (endIndex y =? endIndex x))%bool eqn:E; [reflexivity|].
    apply IH; [lia|].
    apply andb_false_iff in E. destruct E as [E|E].
    - apply Nat.eqb_neq in E. lia.
    - apply Nat.eqb_neq in E. lia. }
  rewrite Hd. reflexivity.
Qed.

Lemma RepeatMatcher_fuel_more m parens :
  local m ->
  forall extra fuel min max greedy x c,
    endIndex x <= L ->
    min + (L - endIndex x) < fuel ->
    RepeatMatcher (extra + fuel) m min max greedy x c parens
    = RepeatMatcher fuel m min max greedy x c parens.
Proof.
  intros Hm. induction extra as [|extra IH]; intros fuel min max greedy x c Hx Hfuel;
    [reflexivity|].
  cbn [Nat.add]. rewrite (RepeatMatcher_fuel_step m parens Hm) by lia.
  apply IH; assumption.
Qed.

(** The bound that [compile] gives to a quantifier is enough: every larger
    one yields the same result. *)
Theorem quantifier_fuel_enough r min max greedy fuel x c :
  endIndex x <= L ->
  min + (L - endIndex x) < fuel ->
  RepeatMatcher fuel (compile Input IgnoreCase r) min max greedy x c (groups r)
  = compile Input IgnoreCase (RQuant min max greedy r) x c.
Proof.
  intros Hx Hfuel. cbn [compile]. unfold InputLength.
  replace fuel with ((fuel - S (min + (L - endIndex x))) + S (min + (L - endIndex x)))
    at 1 by lia.
  apply RepeatMatcher_fuel_more; [apply compile_local|exact Hx|lia].
Qed.

End Matchers.

Section Loops.

Variable S : jsstring.
Variable R : RegExpObj.

Lemma RegExpBuiltinExec_bounds i A e :
  RegExpBuiltinExec R S i = Some (A, e) ->
  i <= index A /\ index A <= e <= length S
  /\ matched A = JSString.substring S (index A) e.
Proof.
  unfold RegExpBuiltinExec.
  destruct (scan _ _ _ _ _ _) as [[j y]|] eqn:E; [|discriminate].
  intros H. injection H as <- <-. cbn [index].
  apply scan_Some in E. destruct E as (Hj & Hm & _).
  assert (Hs := matchAt_sound S R j y Hm). destruct Hs as (Hmatch & _ & H0 & _).
  assert (Hle := matches_le _ _ _ _ _ Hmatch).
  assert (Hb := matches_bound _ _ _ _ _ Hmatch).
  split; [lia|]. split; [lia|].
  unfold matched, elem. cbn [elems]. rewrite nth_error_map, H0. reflexivity.
Qed.

Lemma RegExpBuiltinExec_beyond i :
  length S < i -> RegExpBuiltinExec R S i = None.
Proof.
  intros Hi. unfold RegExpBuiltinExec.
  replace (Datatypes.S (length S) - i) with 0 by lia. reflexivity.
Qed.

Lemma execAll_unfold fuel i :
  execAll (Datatypes.S fuel) R S i
  = match RegExpBuiltinExec R S i with
    | None => []
    | Some (A, e) =>
        A :: execAll fuel R S
               (match matched A with
                | [] => AdvanceStringIndex e
                | _ => e
                end)
    end.
Proof. reflexivity. Qed.

(** The loop of the g flag makes at most [length S + 2 - i] turns from
    [lastIndex = i]: one turn more makes no difference. *)
Lemma execAll_fuel_step : forall fuel i,
  length S + 2 <= fuel + i ->
  execAll (Datatypes.S fuel) R S i = execAll fuel R S i.
Proof.
  induction fuel as [|fuel IH]; intros i Hfuel.
  - cbn [execAll]. rewrite RegExpBuiltinExec_beyond by lia. reflexivity.
  - rewrite (execAll_unfold (Datatypes.S fuel) i), (execAll_unfold fuel i).
    destruct (RegExpBuiltinExec R S i) as [[A e]|] eqn:E; [|reflexivity].
    apply RegExpBuiltinExec_bounds in E. destruct E as (Hi & He & Hm).
    f_equal. apply IH.
    destruct (matched A) as [|c t] eqn:Em; unfold AdvanceStringIndex; [lia|].
    assert (Hl : length (JSString.substring S (index A) e) = e - index A)
      by (apply StringFacts.substring_length; lia).
    rewrite <- Hm in Hl. simpl in Hl. lia.
Qed.

(** The bound of [match] and [replace] with the g flag is enough. *)
Theorem execAll_fuel_enough extra :
  execAll (extra + Datatypes.S (Datatypes.S (length S))) R S 0
  = execAll (Datatypes.S (Datatypes.S (length S))) R S 0.
Proof.
  induction extra as [|extra IH]; [reflexivity|].
  cbn [Nat.add]. rewrite execAll_fuel_step by lia. exact IH.
Qed.

Lemma splitLoop_unfold fuel p q :
  splitLoop (Datatypes.S fuel) R S p q
  = if q <? length S then
      match matchAt S (ignoreCase R) (source R) (nGroups R) q with
      | None => splitLoop fuel R S p (AdvanceStringIndex q)
      | Some y =>
          let e := Nat.min (endIndex y) (length S) in
          if e =? p then splitLoop fuel R S p (AdvanceStringIndex q)
          else Some (JSString.substring S p q)
               :: map (captureString S) (tl (captures y))
               ++ splitLoop fuel R S e e
      end
    else [Some (JSString.substring S p (length S))].
Proof. reflexivity. Qed.

(** The loop of [split]: a turn moves [q] on, or it moves the start [p] of
    the piece up to [q], so that [2 * (length S - q)] turns and one more
    when [p < q] are all that are made. *)
Lemma splitLoop_fuel_step : forall fuel p q,
  p <= q <= length S ->
  2 * (length S - q) + (if p <? q then 1 else 0) < fuel ->
  splitLoop (Datatypes.S fuel) R S p q = splitLoop fuel R S p q.
Proof.
  induction fuel as [|fuel IH]; intros p q Hpq Hfuel; [lia|].
  rewrite (splitLoop_unfold (Datatypes.S fuel) p q), (splitLoop_unfold fuel p q).
  destruct (q <? length S) eqn:Eq; [|reflexivity].
  apply Nat.ltb_lt in Eq. unfold AdvanceStringIndex.
  assert (Hnext : splitLoop (Datatypes.S fuel) R S p (Datatypes.S q)
                  = splitLoop fuel R S p (Datatypes.S q)).
  { apply IH; [lia|].
    replace (p <? Datatypes.S q) with true by (symmetry; apply Nat.ltb_lt; lia).
    destruct (p <? q); lia. }
  destruct (matchAt S (ignoreCase R) (source R) (nGroups R) q) as [y|] eqn:Em;
    [|exact Hnext].
  apply matchAt_sound in Em. destruct Em as (Hm & _).
  assert (Hle := matches_le _ _ _ _ _ Hm).
  assert (Hb := matches_bound _ _ _ _ _ Hm).
  cbv zeta. rewrite Nat.min_l by lia.
  destruct (endIndex y =? p) eqn:Ee; [exact Hnext|].
  apply Nat.eqb_neq in Ee. do 2 f_equal. apply IH; [lia|].
  rewrite Nat.ltb_irrefl. destruct (p <? q) eqn:Epq; [lia|].
  apply Nat.ltb_ge in Epq. lia.
Qed.

(** The bound of [split] is enough. *)
Theorem splitLoop_fuel_enough extra :
  splitLoop (extra + Datatypes.S (2 * length S)) R S 0 0
  = splitLoop (Datatypes.S (2 * length S)) R S 0 0.
Proof.
  induction extra as [|extra IH]; [reflexivity|].
  cbn [Nat.add]. rewrite splitLoop_fuel_step; [exact IH|lia|].
  cbn [Nat.ltb Nat.leb]. lia.
Qed.

End Loops.

End FuelFacts.

(** ** The year pattern *)

Module YearFacts.

Import RegExp JSRegExp RegExpFacts CharFacts StringFacts MatchFacts ExecFacts.

(** The two code units ["19"] or ["20"]. *)
Definition startsCentury (a b : char) : bool :=
  ((N.eqb a 49 && N.eqb b 57) || (N.eqb a 50 && N.eqb b 48))%bool.

(** [yearAt s i]: at index [i] of [s] stands a 4-digit token that begins
    with 19 or 20, with no word character before it and none after it. *)
Definition yearAt (s : jsstring) (i : nat) : bool :=
  match JSString.substring s i (i + 4) with
  | [a; b; c; d] =>
      (startsCentury a b && isDigit c && isDigit d
       && negb (wordBefore s i) && negb (wordAt s (i + 4)))%bool
  | _ => false
  end.

Lemma map_Canonicalize_false l : map (Canonicalize false) l = l.
Proof. apply map_id. Qed.

Lemma isDigit_word c : isDigit c = true -> isWordCharacter c = true.
Proof.
  unfold isWordCharacter. intros ->. rewrite orb_true_r. reflexivity.
Qed.

Lemma startsCentury_word a b : startsCentury a b = true -> isWordCharacter a = true.
Proof.
  unfold startsCentury. intros H. apply orb_true_iff in H.
  destruct H as [H|H]; apply andb_true_iff in H; destruct H as [H _];
    apply N.eqb_eq in H; subst; reflexivity.
Qed.

Lemma yearRe_matches_inv s i j :
  matches s false (source Server.yearRe) i j -> yearAt s i = true /\ j = i + 4.
Proof.
  intros H. assert (Hj := matches_bound _ _ _ _ _ H).
  cbn [source Server.yearRe RSeqs RAlts] in H.
  apply matches_RSeq_inv in H. destruct H as (k0 & Hb1 & H).
  apply matches_RWordB_inv in Hb1. destruct Hb1 as (-> & Hb1).
  apply matches_RSeq_inv in H. destruct H as (k1 & Hg & H).
  apply matches_RGroup_inv in Hg.
  apply matches_RSeq_inv in H. destruct H as (k2 & Hq & Hb2).
  apply matches_RWordB_inv in Hb2. destruct Hb2 as (-> & Hb2).
  apply matches_class_quant in Hq. destruct Hq as (Hle & Hdig & Hmax & Hmin).
  specialize (Hmax 2 eq_refl).
  assert (Hmin' : 2 <= k2 - k1) by (apply Hmin; intros m Hm; inversion Hm; lia).
  assert (Hc : k1 = i + 2 /\ (JSString.substring s i k1 = js "19"
                             \/ JSString.substring s i k1 = js "20")).
  { apply matches_RAlt_inv in Hg.
    destruct Hg as [Hg|Hg]; apply matches_lit in Hg; destruct Hg as (-> & Hg);
      rewrite !map_Canonicalize_false in Hg; auto. }
  destruct Hc as (-> & Hc).
  assert (k2 = i + 4) by lia. subst k2. split; [|reflexivity].
  assert (Hlen : i + 4 <= length s).
  { apply Hj. apply Nat.lt_le_incl, nth_error_Some.
    rewrite <- (Nat.add_0_r i).
    destruct Hc as [Hc|Hc];
      rewrite (substring_nth_error s i 2 _ 0 Hc eq_refl) by lia; discriminate. }
  assert (Hcd : exists c d, JSString.substring s (i + 2) (i + 4) = [c; d]).
  { assert (Hl := substring_length s (i + 2) (i + 4)).
    destruct (JSString.substring s (i + 2) (i + 4)) as [|c [|d [|]]];
      simpl in Hl; try lia. eauto. }
  destruct Hcd as (c & d & Hcd). rewrite Hcd in Hdig.
  inversion Hdig as [|? ? Hdc Hdig']; subst. inversion Hdig' as [|? ? Hdd _]; subst.
  rewrite charOK_case_sensitive in Hdc, Hdd. unfold inCharSet in Hdc, Hdd.
  simpl in Hdc, Hdd. rewrite orb_false_r in Hdc, Hdd.
  assert (Hfour : exists a b, JSString.substring s i (i + 4) = [a; b; c; d]
                              /\ startsCentury a b = true).
  { rewrite (substring_app s i (i + 2) (i + 4)) by lia. rewrite Hcd.
    destruct Hc as [-> | ->]; eexists; eexists; split; reflexivity. }
  destruct Hfour as (a & b & Hfour & Hab).
  rewrite IsWordChar_before, IsWordChar_at in Hb1, Hb2.
  assert (Hat : wordAt s i = true).
  { unfold wordAt. rewrite <- (Nat.add_0_r i).
    rewrite (substring_nth_error s i 4 _ 0 Hfour eq_refl) by lia. simpl.
    eapply startsCentury_word; eauto. }
  assert (Hbefore : wordBefore s (i + 4) = true).
  { unfold wordBefore. replace (i + 4) with (S (i + 3)) by lia.
    rewrite (substring_nth_error s i 4 _ 3 Hfour eq_refl) by lia. simpl.
    apply isDigit_word. exact Hdd. }
  rewrite Hat in Hb1. rewrite Hbefore in Hb2.
  unfold yearAt. rewrite Hfour, Hab, Hdc, Hdd.
  destruct (wordBefore s i); [discriminate|].
  destruct (wordAt s (i + 4)); [discriminate|]. reflexivity.
Qed.

Lemma yearRe_matchAt s i :
  yearAt s i = true ->
  exists z, matchAt s false (source Server.yearRe) 1 i = Some z.
Proof.
  unfold yearAt. intros H.
  destruct (JSString.substring s i (i + 4)) as [|a [|b [|c [|d [|]]]]] eqn:Hfour;
    try discriminate.
  repeat (apply andb_true_iff in H; destruct H as [H ?]).
  assert (Ha := substring_nth_error s i 4 _ 0 Hfour eq_refl).
  assert (Hb := substring_nth_error s i 4 _ 1 Hfour eq_refl).
  assert (Hc := substring_nth_error s i 4 _ 2 Hfour eq_refl).
  assert (Hd := substring_nth_error s i 4 _ 3 Hfour eq_refl).
  rewrite Nat.add_0_r in Ha. simpl in Ha, Hb, Hc, Hd.
  specialize (Ha ltac:(lia)). specialize (Hb ltac:(lia)).
  specialize (Hc ltac:(lia)). specialize (Hd ltac:(lia)).
  assert (Hlen : i + 4 <= length s).
  { assert (i + 3 < length s); [|lia]. apply nth_error_Some. congruence. }
  assert (Hat : wordAt s i = true).
  { unfold wordAt. rewrite Ha. eapply startsCentury_word; eauto. }
  assert (Hbefore : wordBefore s (i + 4) = true).
  { unfold wordBefore. replace (i + 4) with (S (i + 3)) by lia.
    rewrite Hd. apply isDigit_word. assumption. }
  assert (Hab : JSString.substring s i (i + 2) = [a; b]).
  { assert (Hs := substring_app s i (i + 2) (i + 4)).
    rewrite Hfour in Hs. specialize (Hs ltac:(lia) ltac:(lia)).
    assert (Hl := substring_length s i (i + 2) ltac:(lia) ltac:(lia)).
    destruct (JSString.substring s i (i + 2)) as [|a' [|b' [|]]];
      simpl in Hl; try lia.
    simpl in Hs. congruence. }
  unfold matchAt. cbn [source Server.yearRe RSeqs RAlts].
  rewrite run_RSeq, run_RWordB. cbn [endIndex]. rewrite Hat.
  match goal with H : negb (wordBefore s i) = true |- _ =>
    apply negb_true_iff in H; rewrite H end.
  cbn [xorb]. rewrite run_RSeq, run_RGroup, run_RAlt.
  assert (Hgroup : forall k z,
    k (mkState (i + 2) (repeat None 2)) = Some z ->
    match compile s false (lit (js "19")) (mkState i (repeat None 2)) k with
    | Some z => Some z
    | None => compile s false (lit (js "20")) (mkState i (repeat None 2)) k
    end = Some z).
  { intros k z Hk. unfold startsCentury in *.
    match goal with H : (_ || _)%bool = true |- _ =>
      apply orb_true_iff in H; destruct H as [H|H];
      apply andb_true_iff in H; destruct H as [Hx Hy];
      apply N.eqb_eq in Hx, Hy; subst a b end.
    - rewrite (run_lit_ok s false (js "19") i _ k);
        [change (length (js "19")) with 2; rewrite Hk; reflexivity| |].
      + change (length (js "19")) with 2. rewrite Hab. reflexivity.
      + change (length (js "19")) with 2. lia.
    - rewrite (run_lit_fail s false (ch "1") (js "9") i _ k).
      + rewrite (run_lit_ok s false (js "20") i _ k);
          [change (length (js "20")) with 2; exact Hk| |].
        * change (length (js "20")) with 2. rewrite Hab. reflexivity.
        * change (length (js "20")) with 2. lia.
      + intros c0 Hc0. rewrite Ha in Hc0. inversion Hc0; subst. discriminate. }
  eexists. apply Hgroup. cbn [endIndex captures].
  rewrite run_RSeq.
  apply (run_greedy_class s false [ClDigit] false 2); try lia.
  - intros k Hk. destruct k as [|[|k]]; [| |lia].
    + exists c. split; [rewrite <- Hc; f_equal; lia|].
      rewrite charOK_case_sensitive. unfold inCharSet. simpl.
      rewrite orb_false_r. assumption.
    + exists d. split; [rewrite <- Hd; f_equal; lia|].
      rewrite charOK_case_sensitive. unfold inCharSet. simpl.
      rewrite orb_false_r. assumption.
  - left. reflexivity.
  - rewrite run_RWordB. cbn [endIndex].
    replace (i + 2 + 2) with (i + 4) by lia. rewrite Hbefore.
    match goal with H : negb (wordAt s (i + 4)) = true |- _ =>
      apply negb_true_iff in H; rewrite H end.
    reflexivity.
Qed.



Lemma yearAt_bound s i : yearAt s i = true -> i + 4 <= length s.
Proof.
  unfold yearAt. intros H.
  destruct (JSString.substring s i (i + 4)) as [|a [|b [|c [|d [|]]]]] eqn:Hfour;
    try discriminate.
  assert (Hd := substring_nth_error s i 4 _ 3 Hfour eq_refl ltac:(lia)).
  assert (i + 3 < length s); [|lia]. apply nth_error_Some. rewrite Hd. discriminate.
Qed.

(** The year read off a text: the token at the first index where one stands. *)
Lemma yearOf_first s :
  (exists i, yearAt s i = true
             /\ (forall j, j < i -> yearAt s j = false)
             /\ ExtractFacts.yearOf s = Some (JSString.substring s i (i + 4)))
  \/ ((forall i, yearAt s i = false) /\ ExtractFacts.yearOf s = Some []).
Proof.
  assert (Hnone : forall k,
            matchAt s (ignoreCase Server.yearRe) (source Server.yearRe)
              (nGroups Server.yearRe) k = None -> yearAt s k = false).
  { intros k Hk. destruct (yearAt s k) eqn:E; [|reflexivity].
    apply yearRe_matchAt in E. destruct E as [z Hz].
    change (ignoreCase Server.yearRe) with false in Hk.
    change (nGroups Server.yearRe) with 1 in Hk. congruence. }
  unfold ExtractFacts.yearOf.
  destruct (match_ s Server.yearRe) as [m|] eqn:E.
  - left. apply match_sound in E.
    destruct E as (j & Hj & Hm & Hfirst & H0 & _).
    apply yearRe_matches_inv in Hm. destruct Hm as (Hy & ->).
    exists (index m). split; [exact Hy|]. split; [|exact H0].
    intros k Hk. apply Hnone, Hfirst. exact Hk.
  - right. split; [|reflexivity].
    intros i. destruct (yearAt s i) eqn:Ey; [|reflexivity].
    rewrite <- Ey. apply Hnone. apply (match_None _ _ E).
    apply yearAt_bound in Ey. lia.
Qed.

End YearFacts.

(** ** The agency pattern *)

Module AgencyFacts.

Import RegExp JSRegExp RegExpFacts CharFacts StringFacts MatchFacts ExecFacts.

Definition agencyKeywords : list jsstring :=
  [js "minister"; js "ministry"; js "department"; js "agency"; js "authority";
   js "commission"; js "board"; js "office"].

(** An agency phrase: a keyword in any capitalization, then at most 50
    code units that are neither a comma nor a newline. *)
Definition isAgencyPhrase (m : jsstring) : Prop :=
  exists kw tail,
    m = kw ++ tail
    /\ In (asciiLowerCase kw) agencyKeywords
    /\ length tail <= 50
    /\ Forall (fun c => isAgencyTail c = true) tail.

(** [m] stands in [s] at index [i]. *)
Definition occursAt (s m : jsstring) (i : nat) : Prop :=
  JSString.substring s i (i + length m) = m /\ i + length m <= length s.

Lemma toLower1_of_canonical c k :
  toUpper1 c = toUpper1 k -> isLowerAZ k = true -> toLower1 c = k.
Proof.
  unfold toUpper1, toLower1, isLowerAZ, isUpperAZ, between. bool_cases.
Qed.

Lemma asciiLowerCase_of_canonical u K :
  map toUpper1 u = map toUpper1 K -> forallb isLowerAZ K = true ->
  asciiLowerCase u = K.
Proof.
  unfold asciiLowerCase. revert K.
  induction u as [|c u IH]; intros [|k K] H Hl; simpl in *; try discriminate; auto.
  inversion H. apply andb_true_iff in Hl. destruct Hl as [Hk Hl].
  f_equal; [apply toLower1_of_canonical; assumption|apply IH; assumption].
Qed.

Lemma agencyRe_matches_inv s i j :
  matches s true (source Server.agencyRe) i j ->
  j <= length s -> isAgencyPhrase (JSString.substring s i j).
Proof.
  intros H Hj. cbn [source Server.agencyRe RSeqs RAlts] in H.
  apply matches_RSeq_inv in H. destruct H as (k & Hkw & Htail).
  apply matches_class_quant in Htail.
  destruct Htail as (Hle & Hall & Hmax & _). specialize (Hmax 50 eq_refl).
  assert (Hk : exists K, In K agencyKeywords /\ k = i + length K
                 /\ map toUpper1 (JSString.substring s i k) = map toUpper1 K).
  { repeat (apply matches_RAlt_inv in Hkw; destruct Hkw as [Hkw|Hkw]);
      apply matches_lit in Hkw; destruct Hkw as (-> & Hkw);
      eexists; (split; [|split; [reflexivity|exact Hkw]]); simpl; tauto. }
  destruct Hk as (K & HK & -> & Hcanon).
  exists (JSString.substring s i (i + length K)),
         (JSString.substring s (i + length K) j).
  split; [apply substring_app; lia|]. split; [|split].
  - rewrite (asciiLowerCase_of_canonical _ K Hcanon); [exact HK|].
    simpl in HK. repeat (destruct HK as [<-|HK]; [reflexivity|]). destruct HK.
  - rewrite substring_length by lia. lia.
  - eapply Forall_impl; [|exact Hall]. intros c Hc.
    rewrite <- charOK_agencyTail. exact Hc.
Qed.

(** Every element of the loop of the g flag is a match of the pattern that
    stands in the text. *)
Lemma execAll_sound R S fuel : forall lastIndex A,
  In A (execAll fuel R S lastIndex) ->
  exists j, lastIndex <= index A /\ index A <= j /\ j <= length S
    /\ matches S (ignoreCase R) (source R) (index A) j
    /\ matched A = JSString.substring S (index A) j.
Proof.
  induction fuel as [|fuel IH]; intros lastIndex A; simpl; [intros []|].
  unfold RegExpBuiltinExec.
  destruct (scan _ _ _ _ _ _) as [[i y]|] eqn:E; [|intros []].
  apply scan_Some in E. destruct E as (Hi & Hm & _).
  apply matchAt_sound in Hm. destruct Hm as (Hm & _ & H0 & _).
  assert (Hle := matches_le _ _ _ _ _ Hm).
  assert (Hb := matches_bound _ _ _ _ _ Hm).
  intros [<-|Hin].
  - exists (endIndex y). cbn [index]. repeat split; try lia; auto.
    unfold matched, elem. cbn [elems]. rewrite nth_error_map, H0. reflexivity.
  - apply IH in Hin. destruct Hin as (j & Hl & Hrest).
    exists j. split; [|exact Hrest].
    eapply Nat.le_trans; [|exact Hl].
    destruct (matched _); unfold AdvanceStringIndex; lia.
Qed.

Definition agencyMatches (text : jsstring) : list jsstring :=
  match matchGlobal text Server.agencyRe with
  | Some l => l
  | None => []
  end.

Lemma agencyMatches_phrases text :
  Forall (fun m => isAgencyPhrase m /\ exists i, occursAt text m i)
    (agencyMatches text).
Proof.
  unfold agencyMatches, matchGlobal.
  set (l := execAll _ _ _ _).
  assert (Hl : Forall (fun A => isAgencyPhrase (matched A)
                               /\ exists i, occursAt text (matched A) i) l).
  { apply Forall_forall. intros A HA. apply execAll_sound in HA.
    destruct HA as (j & _ & Hij & Hj & Hm & ->). split.
    - apply agencyRe_matches_inv; assumption.
    - exists (index A). unfold occursAt.
      rewrite substring_length by lia.
      replace (index A + (j - index A)) with j by lia. auto. }
  destruct l as [|A l']; [constructor|].
  rewrite Forall_map. exact Hl.
Qed.

Lemma agenciesOf_agencyMatches text :
  ExtractFacts.agenciesOf text
  = JSString.join (js ", ")
      (firstn 5 (JSSet.fromArray (map JSString.trim (agencyMatches text)))).
Proof.
  unfold ExtractFacts.agenciesOf, agencyMatches.
  destruct (matchGlobal text Server.agencyRe); reflexivity.
Qed.

End AgencyFacts.

(** ** The title pattern *)

Module TitleFacts.

Import RegExp JSRegExp RegExpFacts CharFacts StringFacts MatchFacts ExecFacts.

Definition titleKeywords : list jsstring :=
  [js "AN ACT"; js "A ACT"; js "AN BILL"; js "A BILL"; js "AN LAW"; js "A LAW";
   js "TITLE"].

(** [kw] is one of the keywords, in any capitalization. *)
Definition isTitleKeyword (kw : jsstring) : Prop :=
  In (asciiUpperCase kw) titleKeywords.

(** Index [q] is the start of the text or follows a newline. *)
Definition lineStart (s : jsstring) (q : nat) : bool :=
  match q with
  | 0 => true
  | S k => match nth_error s k with Some c => N.eqb c LF | None => false end
  end.

(** At the line start [q] stands a keyword followed by a colon or white space. *)
Definition keywordLineAt (s : jsstring) (q : nat) : bool :=
  (lineStart s q
   && existsb
        (fun K =>
           jsstring_eqb
             (asciiUpperCase (JSString.substring s q (q + length K))) K
           && match nth_error s (q + length K) with
              | Some c => isSeparator c
              | None => false
              end)
        titleKeywords)%bool.

(** A run of a class standing between [a] and [b]. *)
Lemma run_class_segment ic A invert min a u b caps k z :
  Forall (fun c => charOK ic A invert c = true) u ->
  (forall c b', b = c :: b' -> charOK ic A invert c = false) ->
  min <= length u ->
  k (mkState (length a + length u) caps) = Some z ->
  compile (a ++ u ++ b) ic (RQuant min None true (RClass invert A))
    (mkState (length a) caps) k = Some z.
Proof.
  intros Hu Hb Hmin Hk.
  apply (run_greedy_class _ _ _ _ (length u)); auto.
  - rewrite !length_app. lia.
  - intros i Hi. rewrite nth_error_app2 by lia.
    replace (length a + i - length a) with i by lia.
    rewrite nth_error_app1 by lia.
    destruct (nth_error u i) as [c|] eqn:E; [|apply nth_error_None in E; lia].
    exists c. split; [reflexivity|].
    rewrite Forall_forall in Hu. apply Hu. eapply nth_error_In; eauto.
  - right. split; [discriminate|]. intros c Hc.
    rewrite nth_error_app2 in Hc by lia.
    replace (length a + length u - length a) with (length u) in Hc by lia.
    rewrite nth_error_app2 in Hc by lia. rewrite Nat.sub_diag in Hc.
    destruct b as [|c' b']; [discriminate|]. inversion Hc; subst.
    eapply Hb; eauto.
Qed.

Section Keyword.

Variable text : jsstring.

Abbreviation runT := (compile text true).

Lemma first_canonical e n x X :
  map toUpper1 (JSString.substring text e (e + S n)) = x :: X ->
  e + S n <= length text ->
  exists c, nth_error text e = Some c /\ toUpper1 c = x.
Proof.
  intros H Hlen.
  destruct (nth_error text e) as [c|] eqn:Hc; [|apply nth_error_None in Hc; lia].
  rewrite (substring_app text e (S e)) in H by lia.
  rewrite (substring_char _ _ _ Hc) in H. simpl in H. inversion H. eauto.
Qed.

Lemma split_canonical e (X Y : jsstring) :
  map toUpper1 (JSString.substring text e (e + length (X ++ Y))) = X ++ Y ->
  e + length (X ++ Y) <= length text ->
  map toUpper1 (JSString.substring text e (e + length X)) = X
  /\ map toUpper1 (JSString.substring text (e + length X) (e + length X + length Y)) = Y.
Proof.
  rewrite length_app. intros H Hlen.
  rewrite (substring_app text e (e + length X)) in H by lia.
  rewrite map_app in H.
  replace (e + (length X + length Y)) with (e + length X + length Y) in H by lia.
  apply app_inj_length in H; [exact H|].
  rewrite length_map, substring_length by lia. lia.
Qed.

Definition nouns : Regex := RAlts [lit (js "ACT"); lit (js "BILL"); lit (js "LAW")].

Lemma run_nouns X e caps k z :
  In X [js "ACT"; js "BILL"; js "LAW"] ->
  map toUpper1 (JSString.substring text e (e + length X)) = X ->
  e + length X <= length text ->
  k (mkState (e + length X) caps) = Some z ->
  runT nouns (mkState e caps) k = Some z.
Proof.
  intros HX Hcanon Hlen Hk. unfold nouns. cbn [RAlts].
  simpl in HX. destruct HX as [<-|[<-|[<-|[]]]];
    destruct (first_canonical e _ _ _ Hcanon Hlen) as (c & Hc & Hx).
  - rewrite run_RAlt, (run_lit_ok text true (js "ACT")), Hk; auto.
  - rewrite run_RAlt, (run_lit_fail text true (ch "A") (js "CT")).
    + rewrite run_RAlt, (run_lit_ok text true (js "BILL")), Hk; auto.
    + intros c' Hc'. rewrite Hc in Hc'. inversion Hc'; subst c'.
      unfold Canonicalize. rewrite Hx. discriminate.
  - rewrite run_RAlt, (run_lit_fail text true (ch "A") (js "CT")).
    + rewrite run_RAlt, (run_lit_fail text true (ch "B") (js "ILL")).
      * rewrite (run_lit_ok text true (js "LAW")); auto.
      * intros c' Hc'. rewrite Hc in Hc'. inversion Hc'; subst c'.
        unfold Canonicalize. rewrite Hx. discriminate.
    + intros c' Hc'. rewrite Hc in Hc'. inversion Hc'; subst c'.
      unfold Canonicalize. rewrite Hx. discriminate.
Qed.

(** [AN? ] before the noun. *)
Definition articled (r : Regex) : Regex :=
  RSeq (RChar (ch "A")) (RSeq (opt (RChar (ch "N"))) (RSeq (RChar (ch " ")) r)).

Lemma run_articled U r e caps k z :
  In U [js "AN "; js "A "] ->
  map toUpper1 (JSString.substring text e (e + length U)) = U ->
  e + length U <= length text ->
  runT r (mkState (e + length U) caps) k = Some z ->
  runT (articled r) (mkState e caps) k = Some z.
Proof.
  intros HU Hcanon Hlen Hk. unfold articled.
  simpl in HU. destruct HU as [<-|[<-|[]]];
    destruct (first_canonical e _ _ _ Hcanon Hlen) as (c0 & Hc0 & Hx0);
    rewrite run_RSeq, (run_RChar_ok text true _ e caps _ c0 Hc0)
      by (unfold Canonicalize; rewrite Hx0; reflexivity);
    rewrite run_RSeq.
  - destruct (split_canonical e (js "A") (js "N ") Hcanon Hlen) as (_ & H1).
    change (length (js "AN ")) with 3 in *.
    change (e + length (js "A")) with (e + 1) in H1.
    replace (e + 1) with (S e) in H1 by lia.
    destruct (first_canonical (S e) _ _ _ H1 ltac:(simpl in *; lia))
      as (c1 & Hc1 & Hx1).
    destruct (split_canonical e (js "AN") (js " ") Hcanon Hlen) as (_ & H2).
    change (e + length (js "AN")) with (e + 2) in H2.
    destruct (first_canonical (e + 2) _ _ _ H2 ltac:(simpl in *; lia))
      as (c2 & Hc2 & Hx2).
    change (opt (RChar (ch "N")))
      with (RQuant 0 (Some 1) true (RChar (ch "N"))).
    change (runT (RQuant 0 (Some 1) true (RChar (ch "N"))))
      with (runT (RQuant 0 (Some 1) true (RClass false [ClChar (ch "N")]))).
    apply (run_greedy_class text true _ _ 1); try lia.
    + intros i Hi. replace (S e + i) with (S e) by lia. exists c1.
      split; [exact Hc1|]. rewrite charOK_char. unfold Canonicalize.
      rewrite Hx1. reflexivity.
    + left. reflexivity.
    + replace (S e + 1) with (e + 2) by lia.
      rewrite run_RSeq, (run_RChar_ok text true _ (e + 2) caps _ c2 Hc2)
        by (unfold Canonicalize; rewrite Hx2; reflexivity).
      rewrite <- Hk. f_equal. simpl. f_equal. lia.
  - destruct (split_canonical e (js "A") (js " ") Hcanon Hlen) as (_ & H1).
    change (length (js "A ")) with 2 in *.
    change (e + length (js "A")) with (e + 1) in H1.
    replace (e + 1) with (S e) in H1 by lia.
    destruct (first_canonical (S e) _ _ _ H1 ltac:(simpl in *; lia))
      as (c1 & Hc1 & Hx1).
    change (opt (RChar (ch "N")))
      with (RQuant 0 (Some 1) true (RChar (ch "N"))).
    change (runT (RQuant 0 (Some 1) true (RChar (ch "N"))))
      with (runT (RQuant 0 (Some 1) true (RClass false [ClChar (ch "N")]))).
    apply (run_greedy_class text true _ _ 0); try lia.
    + right. split; [intros m Hm; inversion Hm; lia|].
      intros c Hc. rewrite Nat.add_0_r in Hc. rewrite Hc1 in Hc.
      inversion Hc; subst c. rewrite charOK_char. unfold Canonicalize.
      rewrite Hx1. reflexivity.
    + rewrite Nat.add_0_r.
      rewrite run_RSeq, (run_RChar_ok text true _ (S e) caps _ c1 Hc1)
        by (unfold Canonicalize; rewrite Hx1; reflexivity).
      rewrite <- Hk. f_equal. simpl. f_equal. lia.
Qed.

Definition keywordR : Regex := RAlt (articled nouns) (lit (js "TITLE")).

Lemma asciiUpperCase_length s : length (asciiUpperCase s) = length s.
Proof. apply length_map. Qed.

Lemma run_keyword kw e caps k z :
  isTitleKeyword kw ->
  JSString.substring text e (e + length kw) = kw ->
  e + length kw <= length text ->
  k (mkState (e + length kw) caps) = Some z ->
  runT keywordR (mkState e caps) k = Some z.
Proof.
  unfold isTitleKeyword. intros HK Hsub Hlen Hk.
  assert (Hcanon : map toUpper1
                     (JSString.substring text e
                        (e + length (asciiUpperCase kw)))
                   = asciiUpperCase kw).
  { rewrite asciiUpperCase_length, Hsub. reflexivity. }
  rewrite <- (asciiUpperCase_length kw) in Hlen, Hk.
  revert Hcanon Hlen Hk. generalize (asciiUpperCase kw) HK.
  clear HK Hsub kw. intros K HK Hcanon Hlen Hk.
  unfold keywordR. rewrite run_RAlt.
  assert (Harticled : forall U X,
            K = U ++ X -> In U [js "AN "; js "A "] ->
            In X [js "ACT"; js "BILL"; js "LAW"] ->
            runT (articled nouns) (mkState e caps) k = Some z).
  { intros U X -> HU HX.
    destruct (split_canonical e U X Hcanon Hlen) as (H1 & H2).
    rewrite length_app in Hlen, Hk.
    apply (run_articled U); auto; [lia|].
    apply (run_nouns X); auto; [lia|].
    rewrite <- Hk. f_equal. f_equal. lia. }
  simpl in HK.
  destruct HK as [<-|[<-|[<-|[<-|[<-|[<-|[<-|[]]]]]]]].
  - rewrite (Harticled (js "AN ") (js "ACT")); simpl; auto.
  - rewrite (Harticled (js "A ") (js "ACT")); simpl; auto.
  - rewrite (Harticled (js "AN ") (js "BILL")); simpl; auto.
  - rewrite (Harticled (js "A ") (js "BILL")); simpl; auto.
  - rewrite (Harticled (js "AN ") (js "LAW")); simpl; auto.
  - rewrite (Harticled (js "A ") (js "LAW")); simpl; auto.
  - destruct (first_canonical e _ _ _ Hcanon Hlen) as (c & Hc & Hx).
    unfold articled. rewrite run_RSeq, run_RChar_fail.
    + rewrite (run_lit_ok text true (js "TITLE")); auto.
    + intros c' Hc'. rewrite Hc in Hc'. inversion Hc'; subst c'.
      unfold Canonicalize. rewrite Hx. discriminate.
Qed.

(** No keyword starts with a newline. *)
Lemma run_keyword_LF e caps k :
  nth_error text e = Some LF -> runT keywordR (mkState e caps) k = None.
Proof.
  intros He. unfold keywordR, articled.
  rewrite run_RAlt, run_RSeq, run_RChar_fail.
  - apply (run_lit_fail text true (ch "T") (js "ITLE")).
    intros c Hc. rewrite He in Hc. inversion Hc. discriminate.
  - intros c Hc. rewrite He in Hc. inversion Hc. discriminate.
Qed.

End Keyword.

Definition separatorsR : Regex := plus (RClass false (cls ":" ++ [ClSpace])).
Definition lineR : Regex := plus (RClass true [ClChar LF]).

Lemma titleRe_source :
  source Server.titleRe
  = RSeq (RAlt RStart (RChar LF))
      (RSeq keywordR (RSeq separatorsR (RGroup 1 lineR))).
Proof. reflexivity. Qed.

Lemma isSeparator_notLF c : isSeparator c = false -> c <> LF.
Proof. intros H ->. discriminate. Qed.

Section TitleLine.

Variables pre kw sep rest post : jsstring.
Variable c : char.

Hypothesis keyword : isTitleKeyword kw.
Hypothesis separators : Forall (fun x => isSeparator x = true) sep.
Hypothesis separated : sep <> [].
Hypothesis titleStart : isSeparator c = false.
Hypothesis oneLine : Forall (fun x => x <> LF) rest.
Hypothesis lineEnd : post = [] \/ exists p, post = LF :: p.

Definition titleText : jsstring := pre ++ kw ++ sep ++ (c :: rest) ++ post.

Abbreviation q1 := (length pre + length kw).
Abbreviation q2 := (length pre + length kw + length sep).
Abbreviation q3 := (length pre + length kw + length sep + S (length rest)).

(** The keyword, the separators and the line, run from the line start. *)
Lemma title_body_run caps k z :
  k (mkState q3 (setCapture 1 (Some (q2, q3)) caps)) = Some z ->
  compile titleText true (RSeq keywordR (RSeq separatorsR (RGroup 1 lineR)))
    (mkState (length pre) caps) k = Some z.
Proof.
  intros Hk. rewrite run_RSeq. apply (run_keyword titleText kw); auto.
  - apply substring_app_middle.
  - unfold titleText. rewrite !length_app. lia.
  - rewrite run_RSeq. unfold titleText, separatorsR, plus.
    replace (pre ++ kw ++ sep ++ (c :: rest) ++ post)
      with ((pre ++ kw) ++ sep ++ ((c :: rest) ++ post))
      by (rewrite <- !app_assoc; reflexivity).
    replace (length pre + length kw) with (length (pre ++ kw))
      by apply length_app.
    apply run_class_segment.
    + eapply Forall_impl; [|exact separators]. intros x Hx.
      rewrite charOK_separator. exact Hx.
    + intros x b' Hb. inversion Hb; subst. rewrite charOK_separator.
      exact titleStart.
    + destruct sep; [congruence|simpl; lia].
    + rewrite run_RGroup. cbn [endIndex captures]. unfold lineR, plus.
      replace ((pre ++ kw) ++ sep ++ (c :: rest) ++ post)
        with ((pre ++ kw ++ sep) ++ (c :: rest) ++ post)
        by (rewrite <- !app_assoc; reflexivity).
      replace (length (pre ++ kw) + length sep) with (length (pre ++ kw ++ sep))
        by (rewrite !length_app; lia).
      apply run_class_segment.
      * constructor.
        -- rewrite charOK_notLF. apply negb_true_iff, N.eqb_neq.
           apply isSeparator_notLF. exact titleStart.
        -- eapply Forall_impl; [|exact oneLine]. intros x Hx.
           rewrite charOK_notLF. apply negb_true_iff, N.eqb_neq. exact Hx.
      * intros x b' Hb. destruct lineEnd as [Hp|[p Hp]]; [congruence|].
        rewrite Hp in Hb. inversion Hb; subst. reflexivity.
      * simpl. lia.
      * cbn [endIndex captures]. rewrite <- Hk. rewrite !length_app.
        simpl length. f_equal. f_equal; [lia|]. f_equal. f_equal. f_equal; lia.
Qed.

(** The whole pattern, from the newline before the line (or from index 0):
    group 1 is the line from [c] on. *)
Lemma title_matchAt :
  pre = [] \/ (exists p, pre = p ++ [LF]) ->
  matchAt titleText true (source Server.titleRe) 1 (length pre - 1)
  = Some (mkState q3 [Some (length pre - 1, q3); Some (q2, q3)]).
Proof.
  intros Hpre. unfold matchAt. rewrite titleRe_source, run_RSeq, run_RAlt.
  cbn [repeat].
  set (k := fun y => compile titleText true
                       (RSeq keywordR (RSeq separatorsR (RGroup 1 lineR))) y _).
  assert (Hk : k (mkState (length pre) [None; None])
               = Some (mkState q3 [Some (length pre - 1, q3); Some (q2, q3)])).
  { unfold k. apply title_body_run. reflexivity. }
  destruct Hpre as [Hp|[p Hp]].
  - rewrite Hp in *. change (length (@nil char) - 1) with 0 in *.
    change (length (@nil char)) with 0 in Hk.
    rewrite run_RStart. cbn [endIndex Nat.eqb]. rewrite Hk. reflexivity.
  - assert (HLF : nth_error titleText (length p) = Some LF).
    { unfold titleText. rewrite Hp, <- app_assoc. apply nth_error_middle. }
    assert (Hlen' : length pre = S (length p)).
    { rewrite Hp, length_app. simpl. lia. }
    assert (Hlen : length pre - 1 = length p) by lia.
    rewrite Hlen.
    assert (Hstart : compile titleText true RStart
                       (mkState (length p) [None; None]) k = None).
    { rewrite run_RStart. cbn [endIndex].
      destruct (length p) eqn:E; [|reflexivity]. cbn [Nat.eqb].
      unfold k. rewrite run_RSeq. apply run_keyword_LF. exact HLF. }
    rewrite Hstart.
    rewrite (run_RChar_ok titleText true LF (length p) _ k LF HLF eq_refl).
    replace (S (length p)) with (length pre) by lia.
    rewrite <- Hlen. exact Hk.
Qed.

End TitleLine.

Lemma substring_cons text q j x :
  nth_error text q = Some x -> S q <= j ->
  JSString.substring text q j = x :: JSString.substring text (S q) j.
Proof.
  intros Hx Hj. rewrite (substring_app text q (S q) j) by lia.
  rewrite (substring_char _ _ _ Hx). reflexivity.
Qed.

(** What the keyword part of the pattern matches. *)
Lemma keywordR_matches_inv text q q1 :
  matches text true keywordR q q1 ->
  exists K, In K titleKeywords /\ q1 = q + length K
            /\ map toUpper1 (JSString.substring text q q1) = K.
Proof.
  intros H. unfold keywordR in H. apply matches_RAlt_inv in H.
  destruct H as [H|H].
  - unfold articled in H.
    apply matches_RSeq_inv in H. destruct H as (k0 & Ha & H).
    apply matches_RChar_inv in Ha. destruct Ha as (-> & c0 & Hc0 & Hx0).
    apply matches_RSeq_inv in H. destruct H as (k1 & Hn & H).
    apply matches_RSeq_inv in H. destruct H as (k2 & Hs & H).
    apply matches_RChar_inv in Hs. destruct Hs as (-> & c2 & Hc2 & Hx2).
    assert (Hnoun : exists X, In X [js "ACT"; js "BILL"; js "LAW"]
                      /\ q1 = S k1 + length X
                      /\ map toUpper1 (JSString.substring text (S k1) q1) = X).
    { unfold nouns in H. cbn [RAlts] in H.
      repeat (apply matches_RAlt_inv in H; destruct H as [H|H]);
        apply matches_lit in H; destruct H as (-> & H);
        eexists; (split; [|split; [reflexivity|exact H]]); simpl; tauto. }
    destruct Hnoun as (X & HX & -> & Hcanon).
    unfold Canonicalize in Hx0, Hx2. simpl in Hx0, Hx2.
    apply matches_opt_inv in Hn. destruct Hn as [->|Hn].
    + exists (js "A " ++ X). split; [|split].
      * simpl in HX. destruct HX as [<-|[<-|[<-|[]]]]; simpl; tauto.
      * rewrite length_app. simpl. lia.
      * rewrite (substring_cons _ _ _ _ Hc0) by lia.
        rewrite (substring_cons _ _ _ _ Hc2) by lia.
        cbn [map]. rewrite Hcanon, <- Hx0, <- Hx2. reflexivity.
    + apply matches_RChar_inv in Hn. destruct Hn as (-> & c1 & Hc1 & Hx1).
      unfold Canonicalize in Hx1. simpl in Hx1.
      exists (js "AN " ++ X). split; [|split].
      * simpl in HX. destruct HX as [<-|[<-|[<-|[]]]]; simpl; tauto.
      * rewrite length_app. simpl. lia.
      * rewrite (substring_cons _ _ _ _ Hc0) by lia.
        rewrite (substring_cons _ _ _ _ Hc1) by lia.
        rewrite (substring_cons _ _ _ _ Hc2) by lia.
        cbn [map]. rewrite Hcanon, <- Hx0, <- Hx1, <- Hx2. reflexivity.
  - apply matches_lit in H. destruct H as (-> & H).
    exists (js "TITLE"). split; [simpl; tauto|]. split; [reflexivity|exact H].
Qed.

(** A match of the title pattern starts a keyword line. *)
Lemma titleRe_matches_inv text k j :
  matches text true (source Server.titleRe) k j ->
  exists q, q <= S k /\ keywordLineAt text q = true.
Proof.
  rewrite titleRe_source. intros H.
  apply matches_RSeq_inv in H. destruct H as (q & Hstart & H).
  apply matches_RSeq_inv in H. destruct H as (q1 & Hkw & H).
  apply matches_RSeq_inv in H. destruct H as (q2 & Hsep & _).
  assert (Hq : q <= S k /\ lineStart text q = true /\ q <= length text).
  { apply matches_RAlt_inv in Hstart. destruct Hstart as [Hs|Hs].
    - apply matches_RStart_inv in Hs. destruct Hs as (-> & ->).
      repeat split; [lia|lia].
    - apply matches_RChar_inv in Hs. destruct Hs as (-> & x & Hx & Hcanon).
      split; [lia|]. split.
      + unfold lineStart. rewrite Hx.
        unfold Canonicalize in Hcanon. simpl in Hcanon.
        apply N.eqb_eq. revert Hcanon. unfold toUpper1, isLowerAZ, between, LF.
        bool_cases.
      + apply nth_error_Some. congruence. }
  destruct Hq as (Hq & Hline & Hqlen). exists q. split; [exact Hq|].
  assert (Hq1 := matches_bound _ _ _ _ _ Hkw Hqlen).
  assert (Hq2 := matches_bound _ _ _ _ _ Hsep Hq1).
  apply keywordR_matches_inv in Hkw. destruct Hkw as (K & HK & -> & Hcanon).
  unfold separatorsR, plus in Hsep. apply matches_class_quant in Hsep.
  destruct Hsep as (Hle & Hall & _ & Hmin).
  assert (Hone : 1 <= q2 - (q + length K)) by (apply Hmin; discriminate).
  destruct (nth_error text (q + length K)) as [x|] eqn:Hx;
    [|apply nth_error_None in Hx; lia].
  rewrite (substring_cons _ _ _ _ Hx) in Hall by lia.
  inversion Hall as [|? ? Hsepx _]; subst.
  rewrite charOK_separator in Hsepx.
  unfold keywordLineAt. rewrite Hline. cbn [andb].
  apply existsb_exists. exists K. split; [exact HK|].
  rewrite Hx, Hsepx, andb_true_r. apply SetFacts.jsstring_eqb_eq. exact Hcanon.
Qed.


(** The title line of [titleText], when no keyword line stands before it:
    the first match of the pattern, with the line in group 1. *)
Lemma title_match pre kw sep rest post c :
  isTitleKeyword kw ->
  Forall (fun x => isSeparator x = true) sep -> sep <> [] ->
  isSeparator c = false ->
  Forall (fun x => x <> LF) rest ->
  post = [] \/ (exists p, post = LF :: p) ->
  pre = [] \/ (exists p, pre = p ++ [LF]) ->
  (forall q, q < length pre ->
     keywordLineAt (titleText pre kw sep rest post c) q = false) ->
  exists A, match_ (titleText pre kw sep rest post c) Server.titleRe = Some A
            /\ elem A 1 = Some (c :: rest).
Proof.
  intros Hkw Hsep Hne Hc Hrest Hpost Hpre Hfirst.
  set (text := titleText pre kw sep rest post c) in *.
  assert (Hat := title_matchAt pre kw sep rest post c Hkw Hsep Hne Hc Hrest Hpost Hpre).
  fold text in Hat.
  assert (Hlen : length text
                 = length pre + length kw + length sep + S (length rest) + length post).
  { unfold text, titleText. rewrite !length_app. simpl. lia. }
  assert (Hnone : forall k, 0 <= k < length pre - 1 ->
            matchAt text (ignoreCase Server.titleRe) (source Server.titleRe)
              (nGroups Server.titleRe) k = None).
  { intros k Hk.
    destruct (matchAt text (ignoreCase Server.titleRe) (source Server.titleRe)
                (nGroups Server.titleRe) k) as [z|] eqn:E; [|reflexivity].
    apply matchAt_sound in E. destruct E as (Hm & _).
    apply titleRe_matches_inv in Hm. destruct Hm as (q & Hq & Hline).
    rewrite Hfirst in Hline by lia. discriminate. }
  assert (Hrange : 0 <= length pre - 1 < 0 + (S (length text) - 0)) by lia.
  unfold match_, RegExpBuiltinExec.
  rewrite (scan_first text Server.titleRe _ 0 (length pre - 1) _ Hrange Hat Hnone).
  eexists. split; [reflexivity|]. unfold elem. cbn [elems map nth_error captures].
  unfold captureString. f_equal.
  replace (length pre + length kw + length sep)
    with (length (pre ++ kw ++ sep)) by (rewrite !length_app; lia).
  replace (length (pre ++ kw ++ sep) + S (length rest))
    with (length (pre ++ kw ++ sep) + length (c :: rest)) by reflexivity.
  unfold text, titleText.
  replace (pre ++ kw ++ sep ++ (c :: rest) ++ post)
    with ((pre ++ kw ++ sep) ++ (c :: rest) ++ post)
    by (rewrite <- !app_assoc; reflexivity).
  apply substring_app_middle.
Qed.


(** No line that starts before index [n] does. *)
Definition noKeywordLineBefore (s : jsstring) (n : nat) : bool :=
  forallb (fun q => negb (keywordLineAt s q)) (seq 0 n).



Lemma noKeywordLineBefore_true s n :
  noKeywordLineBefore s n = true -> forall q, q < n -> keywordLineAt s q = false.
Proof.
  unfold noKeywordLineBefore. rewrite forallb_forall. intros H q Hq.
  apply negb_true_iff. apply H. apply in_seq. lia.
Qed.

Lemma noLF_forallb rest :
  forallb (fun x => negb (N.eqb x LF)) rest = true ->
  Forall (fun x => x <> LF) rest.
Proof.
  rewrite forallb_forall. intros H. apply Forall_forall. intros x Hx.
  apply N.eqb_neq, negb_true_iff, H, Hx.
Qed.

Lemma separators_forallb sep :
  forallb isSeparator sep = true ->
  Forall (fun x => isSeparator x = true) sep.
Proof.
  rewrite forallb_forall. intros H. apply Forall_forall. exact H.
Qed.

End TitleFacts.
(** ** The loop of the g flag, match by match *)

Module ScanFacts.

Import RegExp JSRegExp RegExpFacts StringFacts MatchFacts ExecFacts.

(** The first index from which on a string satisfies [p]. *)
Fixpoint firstIndex (p : jsstring -> bool) (l : jsstring) : option nat :=
  if p l then Some 0
  else match l with
       | [] => None
       | _ :: t => option_map S (firstIndex p t)
       end.

Lemma firstIndex_Some p l : forall n,
  firstIndex p l = Some n ->
  n <= length l /\ p (skipn n l) = true /\ forall k, k < n -> p (skipn k l) = false.
Proof.
  induction l as [|c l IH]; intros n; simpl.
  - destruct (p []) eqn:E; [|discriminate]. intros H; inversion H; subst.
    repeat split; auto. intros k Hk; lia.
  - destruct (p (c :: l)) eqn:E.
    + intros H; inversion H; subst. repeat split; auto; [lia|]. intros k Hk; lia.
    + destruct (firstIndex p l) as [m|] eqn:Em; [|discriminate].
      intros H; inversion H; subst. destruct (IH m eq_refl) as (Hm & Hp & Hk).
      repeat split; [lia|exact Hp|]. intros [|k] Hlt; [exact E|].
      apply Hk. lia.
Qed.

Lemma firstIndex_None p l :
  firstIndex p l = None -> forall k, p (skipn k l) = false.
Proof.
  induction l as [|c l IH]; simpl.
  - destruct (p []) eqn:E; [discriminate|]. intros _ k. rewrite skipn_nil. exact E.
  - destruct (p (c :: l)) eqn:E; [discriminate|].
    destruct (firstIndex p l) eqn:Em; [discriminate|].
    intros _ [|k]; [exact E|]. apply IH. reflexivity.
Qed.

Lemma hd_skipn (s : jsstring) j :
  skipn j s = match nth_error s j with
              | Some c => c :: skipn (S j) s
              | None => []
              end.
Proof.
  revert j. induction s as [|a s IH]; intros [|j]; simpl; auto.
Qed.

Lemma skipn_nonempty (s : jsstring) j : skipn j s <> [] -> j < length s.
Proof.
  intros H. assert (Hl : length (skipn j s) <> 0) by (destruct (skipn j s); [congruence|discriminate]).
  rewrite length_skipn in Hl. lia.
Qed.

Section Loop.

Variable S : jsstring.
Variable R : RegExpObj.

Abbreviation matchAtS := (matchAt S (ignoreCase R) (source R) (nGroups R)).

Lemma matched_whole j y :
  matchAtS j = Some y ->
  matched (mkMatchArray j (map (captureString S) (captures y)))
  = JSString.substring S j (endIndex y).
Proof.
  intros Hm. assert (H0 := matchAt_sound S R j y Hm). destruct H0 as (_ & _ & H0 & _).
  unfold matched, elem. cbn [elems]. rewrite nth_error_map, H0. reflexivity.
Qed.

(** One turn of the loop of the g flag: the first match from [i] on, and
    the loop going on from its end. *)
Lemma execAll_step fuel i j y e :
  i <= j -> j < e -> e <= length S ->
  matchAtS j = Some y -> endIndex y = e ->
  (forall k, i <= k < j -> matchAtS k = None) ->
  execAll (Datatypes.S fuel) R S i
  = mkMatchArray j (map (captureString S) (captures y)) :: execAll fuel R S e.
Proof.
  intros Hij Hje He Hm Hend Hnone. cbn [execAll]. unfold RegExpBuiltinExec.
  rewrite (scan_first S R _ i j y); [|lia|exact Hm|exact Hnone].
  rewrite (matched_whole j y Hm), Hend.
  assert (Hl := substring_length S j e ltac:(lia) He).
  destruct (JSString.substring S j e) as [|c t]; [simpl in Hl; lia|reflexivity].
Qed.

Lemma execAll_none fuel i :
  (forall k, i <= k <= length S -> matchAtS k = None) ->
  execAll (Datatypes.S fuel) R S i = [].
Proof.
  intros Hnone. cbn [execAll]. unfold RegExpBuiltinExec.
  rewrite (scan_all_None S R).
  - reflexivity.
  - intros k Hk. apply Hnone. lia.
Qed.

End Loop.

End ScanFacts.

(** ** The title read off the file name, step by step *)

Module ReplaceFacts.

Import RegExp JSRegExp RegExpFacts StringFacts MatchFacts ExecFacts ScanFacts.

Section Replace.

Variable S : jsstring.
Variable R : RegExpObj.
Variable replaceValue : jsstring.

Abbreviation matchAtS := (matchAt S (ignoreCase R) (source R) (nGroups R)).

(** What one turn of the loop of the g flag adds to the result of
    [replace]: the text up to the match and the substitution. *)
Lemma assemble_execAll_step fuel i j y e :
  i <= j -> j < e -> e <= length S ->
  matchAtS j = Some y -> endIndex y = e ->
  (forall k, i <= k < j -> matchAtS k = None) ->
  assemble S (execAll (Datatypes.S fuel) R S i) replaceValue i
  = JSString.substring S i j
    ++ GetSubstitution (JSString.substring S j e) S j
         (tl (map (captureString S) (captures y))) replaceValue
    ++ assemble S (execAll fuel R S e) replaceValue e.
Proof.
  intros Hij Hje He Hm Hend Hnone.
  rewrite (execAll_step S R fuel i j y e Hij Hje He Hm Hend Hnone).
  cbn [assemble index]. rewrite (matched_whole S R j y Hm), Hend. cbn [elems].
  rewrite Nat.min_l by lia.
  replace (i <=? j) with true by (symmetry; apply Nat.leb_le; lia).
  rewrite substring_length by lia.
  replace (j + (e - j)) with e by lia. reflexivity.
Qed.

Lemma assemble_execAll_none fuel i :
  (forall k, i <= k <= length S -> matchAtS k = None) ->
  assemble S (execAll (Datatypes.S fuel) R S i) replaceValue i = skipn i S.
Proof.
  intros Hnone. rewrite (execAll_none S R fuel i Hnone). reflexivity.
Qed.



End Replace.

End ReplaceFacts.

Module FilenameFacts.

Import RegExp JSRegExp RegExpFacts CharFacts StringFacts MatchFacts ExecFacts ScanFacts
  ReplaceFacts.

(** *** Hyphens and underscores *)









(** *** camelCase *)










(** *** The extension *)









(** *** Words *)

(** The pieces of a string between the occurrences of [d]. *)
Fixpoint splitOn (d : char) (s : jsstring) : list jsstring :=
  match s with
  | [] => [[]]
  | c :: t =>
      if N.eqb c d then [] :: splitOn d t
      else match splitOn d t with
           | w :: ws => (c :: w) :: ws
           | [] => [[c]]
           end
  end.

Lemma splitOn_nonempty d s : splitOn d s <> [].
Proof.
  destruct s as [|c t]; simpl; [discriminate|].
  destruct (N.eqb c d); [discriminate|]. destruct (splitOn d t); discriminate.
Qed.





End FilenameFacts.
(** ** The agencies found in a text, one after the other *)

Module AgencyScan.

Import RegExp JSRegExp RegExpFacts CharFacts SetFacts StringFacts MatchFacts ExecFacts
  ScanFacts AgencyFacts.

(** [l] begins with the keyword [kw] in some capitalization. *)
Definition startsWithKeyword (l kw : jsstring) : bool :=
  jsstring_eqb (asciiLowerCase (firstn (length kw) l)) kw.

(** The code units at the head of [l] that are neither a comma nor a
    newline, [n] of them at most. *)
Fixpoint agencyTail (n : nat) (l : jsstring) : jsstring :=
  match n, l with
  | S k, c :: t => if isAgencyTail c then c :: agencyTail k t else []
  | _, _ => []
  end.

(** The agency phrase that [l] begins with: a keyword and the longest tail
    of at most 50 code units. *)
Definition agencyPhraseAt (l : jsstring) : option jsstring :=
  match find (startsWithKeyword l) agencyKeywords with
  | Some kw =>
      Some (firstn (length kw) l ++ agencyTail 50 (skipn (length kw) l))
  | None => None
  end.

(** The agency phrases of a text from left to right, each one read from
    where the one before it ends ([skip] code units are still part of the
    phrase found last). *)
Fixpoint agencyPhrases (skip : nat) (l : jsstring) : list jsstring :=
  match l with
  | [] => []
  | _ :: t =>
      match skip with
      | S k => agencyPhrases k t
      | 0 =>
          match agencyPhraseAt l with
          | Some m => m :: agencyPhrases (length m - 1) t
          | None => agencyPhrases 0 t
          end
      end
  end.

Lemma toUpper1_toLower1 c : toUpper1 (toLower1 c) = toUpper1 c.
Proof. unfold toUpper1, toLower1, isLowerAZ, isUpperAZ, between. bool_cases. Qed.

Lemma startsWithKeyword_canonical l K :
  forallb isLowerAZ K = true ->
  startsWithKeyword l K = true
  <-> map toUpper1 (firstn (length K) l) = map toUpper1 K.
Proof.
  intros HK. unfold startsWithKeyword. rewrite jsstring_eqb_eq. split.
  - intros H.
    transitivity (map toUpper1 (asciiLowerCase (firstn (length K) l)));
      [|rewrite H; reflexivity].
    unfold asciiLowerCase. rewrite map_map.
    apply map_ext. intros c. symmetry. apply toUpper1_toLower1.
  - intros H. apply asciiLowerCase_of_canonical; assumption.
Qed.

Section Input.

Variable s : jsstring.

Lemma run_lit_none w e caps k :
  map toUpper1 (firstn (length w) (skipn e s)) <> map toUpper1 w ->
  compile s true (lit w) (mkState e caps) k = None.
Proof.
  intros H. destruct (compile s true (lit w) (mkState e caps) k) as [z|] eqn:E;
    [|reflexivity].
  apply compile_sound in E. destruct E as (y & _ & Hm & _). cbn [endIndex] in Hm.
  apply matches_lit in Hm. destruct Hm as (Hj & Hc). rewrite Hj in Hc.
  unfold JSString.substring in Hc. replace (e + length w - e) with (length w) in Hc by lia.
  contradiction.
Qed.

Lemma run_lit_found w e caps k :
  e <= length s ->
  map toUpper1 (firstn (length w) (skipn e s)) = map toUpper1 w ->
  compile s true (lit w) (mkState e caps) k = k (mkState (e + length w) caps).
Proof.
  intros He H. apply run_lit_ok.
  - unfold JSString.substring. replace (e + length w - e) with (length w) by lia.
    exact H.
  - apply (f_equal (@length _)) in H. rewrite !length_map, length_firstn, length_skipn in H.
    lia.
Qed.

(** The alternatives are tried in order; the continuation is run at the
    end of the first keyword that stands at [e]. *)
Lemma run_keywords ks e caps k :
  e <= length s -> ks <> [] ->
  Forall (fun K => forallb isLowerAZ K = true) ks ->
  (forall K, find (startsWithKeyword (skipn e s)) ks = Some K ->
             k (mkState (e + length K) caps) <> None) ->
  compile s true (RAlts (map lit ks)) (mkState e caps) k
  = match find (startsWithKeyword (skipn e s)) ks with
    | Some K => k (mkState (e + length K) caps)
    | None => None
    end.
Proof.
  intros He. induction ks as [|K ks IH]; intros Hne Hlow Hk; [congruence|].
  inversion Hlow as [|? ? HK Hlow']; subst.
  assert (Hhead : compile s true (lit K) (mkState e caps) k
                  = if startsWithKeyword (skipn e s) K
                    then k (mkState (e + length K) caps) else None).
  { destruct (startsWithKeyword (skipn e s) K) eqn:E.
    - apply run_lit_found; [exact He|].
      apply startsWithKeyword_canonical; assumption.
    - apply run_lit_none. intros H.
      apply (startsWithKeyword_canonical _ _ HK) in H. congruence. }
  destruct ks as [|K' ks'].
  - cbn [map RAlts find]. rewrite Hhead.
    destruct (startsWithKeyword (skipn e s) K); reflexivity.
  - change (RAlts (map lit (K :: K' :: ks')))
      with (RAlt (lit K) (RAlts (map lit (K' :: ks')))).
    rewrite run_RAlt, Hhead. cbn [find] in *.
    destruct (startsWithKeyword (skipn e s) K).
    + destruct (k (mkState (e + length K) caps)) eqn:Ek; [reflexivity|].
      exfalso. apply (Hk K); [reflexivity|exact Ek].
    + apply IH; [discriminate|exact Hlow'|exact Hk].
Qed.

Lemma agencyTail_prefix n : forall l,
  agencyTail n l = firstn (length (agencyTail n l)) l.
Proof.
  induction n as [|n IH]; intros [|c t]; simpl; auto.
  destruct (isAgencyTail c); simpl; [f_equal; apply IH|reflexivity].
Qed.

Lemma agencyTail_length n : forall l, length (agencyTail n l) <= n.
Proof.
  induction n as [|n IH]; intros [|c t]; simpl; try lia.
  destruct (isAgencyTail c); simpl; [specialize (IH t)|]; lia.
Qed.

Lemma agencyTail_all n : forall l i,
  i < length (agencyTail n l) ->
  exists c, nth_error l i = Some c /\ isAgencyTail c = true.
Proof.
  induction n as [|n IH]; intros [|c t] i; simpl; try lia.
  destruct (isAgencyTail c) eqn:E; simpl; [|lia].
  destruct i as [|i]; [intros _; exists c; split; [reflexivity|exact E]|].
  intros Hi. apply (IH t i). lia.
Qed.

Lemma agencyTail_longest n : forall l,
  length (agencyTail n l) < n ->
  forall c, nth_error l (length (agencyTail n l)) = Some c -> isAgencyTail c = false.
Proof.
  induction n as [|n IH]; intros [|c t]; simpl; try lia; try discriminate.
  destruct (isAgencyTail c) eqn:E; simpl.
  - intros Hlt. apply IH. lia.
  - intros _ c0 H. inversion H; subst. exact E.
Qed.

Definition tailR : Regex := RQuant 0 (Some 50) true (RClass true [ClChar (ch ","); ClChar LF]).

Lemma run_agencyTail e caps k z :
  e <= length s ->
  k (mkState (e + length (agencyTail 50 (skipn e s))) caps) = Some z ->
  compile s true tailR (mkState e caps) k = Some z.
Proof.
  intros He Hk.
  apply (run_greedy_class s true [ClChar (ch ","); ClChar LF] true
           (length (agencyTail 50 (skipn e s)))); auto; try lia.
  - intros i Hi. destruct (agencyTail_all _ _ _ Hi) as (c & Hc & Hok).
    rewrite nth_error_skipn in Hc. exists c. split; [exact Hc|].
    rewrite charOK_agencyTail. exact Hok.
  - assert (Hle := agencyTail_length 50 (skipn e s)).
    destruct (Nat.eq_dec (length (agencyTail 50 (skipn e s))) 50) as [Heq|Hne].
    + left. rewrite Heq. reflexivity.
    + right. split; [intros m Hm; inversion Hm; lia|].
      intros c Hc. rewrite charOK_agencyTail.
      apply (agencyTail_longest 50 (skipn e s)); [lia|].
      rewrite nth_error_skipn. exact Hc.
Qed.

End Input.

Lemma agencyKeywords_lower :
  Forall (fun K => forallb isLowerAZ K = true) agencyKeywords.
Proof. repeat constructor. Qed.

Lemma startsWithKeyword_length l K :
  startsWithKeyword l K = true -> length (firstn (length K) l) = length K.
Proof.
  unfold startsWithKeyword. intros Hs. apply jsstring_eqb_eq in Hs.
  apply (f_equal (@length _)) in Hs. unfold asciiLowerCase in Hs.
  rewrite length_map in Hs. exact Hs.
Qed.

Lemma agencyPhraseAt_Some l m :
  agencyPhraseAt l = Some m ->
  1 <= length m <= length l /\ m = firstn (length m) l.
Proof.
  unfold agencyPhraseAt.
  destruct (find (startsWithKeyword l) agencyKeywords) as [K|] eqn:E; [|discriminate].
  intros H.
  apply (f_equal (fun o => match o with Some x => x | None => [] end)) in H.
  cbv beta iota in H. subst m.
  apply find_some in E. destruct E as [HK Hs].
  assert (Hlen := startsWithKeyword_length _ _ Hs).
  assert (HK1 : 1 <= length K).
  { simpl in HK. repeat (destruct HK as [<-|HK]; [simpl; lia|]). destruct HK. }
  assert (Hl : length K <= length l) by (rewrite length_firstn in Hlen; lia).
  rewrite length_app, Hlen.
  assert (Ht := agencyTail_prefix 50 (skipn (length K) l)).
  assert (Htl : length (agencyTail 50 (skipn (length K) l)) <= length l - length K).
  { rewrite Ht at 1. rewrite length_firstn, length_skipn. lia. }
  refine (conj _ _); [lia|].
  rewrite firstn_plus. rewrite <- Ht. reflexivity.
Qed.

(** The match of the agency pattern at [j]: the keyword that stands there
    and its longest tail. *)
Lemma agency_matchAt s j :
  j <= length s ->
  matchAt s true (source Server.agencyRe) 0 j
  = match agencyPhraseAt (skipn j s) with
    | Some m => Some (mkState (j + length m) [Some (j, j + length m)])
    | None => None
    end.
Proof.
  intros Hj. unfold matchAt.
  change (source Server.agencyRe) with (RSeq (RAlts (map lit agencyKeywords)) tailR).
  rewrite run_RSeq. cbn [repeat].
  assert (Htail : forall K,
    find (startsWithKeyword (skipn j s)) agencyKeywords = Some K ->
    compile s true tailR (mkState (j + length K) [None])
      (fun y => Some (mkState (endIndex y)
                        (setCapture 0 (Some (j, endIndex y)) (captures y))))
    = Some (mkState (j + length K + length (agencyTail 50 (skipn (j + length K) s)))
              [Some (j, j + length K + length (agencyTail 50 (skipn (j + length K) s)))])).
  { intros K HK. apply find_some in HK. destruct HK as [_ Hs].
    apply startsWithKeyword_length in Hs.
    rewrite length_firstn, length_skipn in Hs.
    apply run_agencyTail; [lia|reflexivity]. }
  rewrite (run_keywords s agencyKeywords j [None] _ Hj ltac:(discriminate)
             agencyKeywords_lower);
    [|intros K HK; cbn [endIndex captures]; rewrite (Htail K HK); discriminate].
  unfold agencyPhraseAt.
  destruct (find (startsWithKeyword (skipn j s)) agencyKeywords) as [K|] eqn:E;
    [|reflexivity].
  cbn [endIndex captures]. rewrite (Htail K eq_refl).
  apply find_some in E. destruct E as [_ Hs].
  rewrite length_app, (startsWithKeyword_length _ _ Hs), skipn_skipn.
  replace (length K + j) with (j + length K) by lia.
  rewrite Nat.add_assoc. reflexivity.
Qed.

Lemma agencyPhraseAt_nil : agencyPhraseAt [] = None.
Proof. reflexivity. Qed.

Lemma agencyPhrases_skip : forall l k,
  agencyPhrases k l = agencyPhrases 0 (skipn k l).
Proof.
  induction l as [|c t IH]; intros [|k]; try reflexivity.
  cbn [agencyPhrases skipn]. apply IH.
Qed.

Definition startsWithAgency (l : jsstring) : bool :=
  match agencyPhraseAt l with Some _ => true | None => false end.

Lemma agencyPhrases_first : forall l n,
  firstIndex startsWithAgency l = Some n ->
  exists m, agencyPhraseAt (skipn n l) = Some m
    /\ agencyPhrases 0 l = m :: agencyPhrases 0 (skipn (n + length m) l).
Proof.
  induction l as [|c t IH]; intros n; [discriminate|].
  cbn [firstIndex]. unfold startsWithAgency at 1.
  destruct (agencyPhraseAt (c :: t)) as [m|] eqn:E.
  - intros H. injection H as <-. exists m. split; [exact E|].
    cbn [agencyPhrases]. rewrite E. f_equal.
    rewrite agencyPhrases_skip. apply agencyPhraseAt_Some in E.
    destruct E as [Hm _]. cbn [Nat.add].
    destruct (length m) as [|k]; [lia|]. cbn [skipn Nat.sub].
    rewrite Nat.sub_0_r. reflexivity.
  - destruct (firstIndex startsWithAgency t) as [k|] eqn:Ek; [|discriminate].
    intros H. injection H as <-. destruct (IH k eq_refl) as (m & Hm & Hrest).
    exists m. split; [exact Hm|]. cbn [agencyPhrases]. rewrite E. exact Hrest.
Qed.

Lemma agencyPhrases_none : forall l,
  firstIndex startsWithAgency l = None -> agencyPhrases 0 l = [].
Proof.
  induction l as [|c t IH]; [reflexivity|].
  cbn [firstIndex agencyPhrases]. unfold startsWithAgency at 1.
  destruct (agencyPhraseAt (c :: t)); [discriminate|].
  destruct (firstIndex startsWithAgency t); [discriminate|].
  intros _. apply IH. reflexivity.
Qed.

Lemma agency_matchAt_none s k :
  k <= length s -> startsWithAgency (skipn k s) = false ->
  matchAt s (ignoreCase Server.agencyRe) (source Server.agencyRe)
    (nGroups Server.agencyRe) k = None.
Proof.
  intros Hk H. change (ignoreCase Server.agencyRe) with true.
  change (nGroups Server.agencyRe) with 0.
  rewrite (agency_matchAt s k Hk). unfold startsWithAgency in H.
  destruct (agencyPhraseAt (skipn k s)); [discriminate|reflexivity].
Qed.

Lemma execAll_agencyPhrases s : forall fuel i,
  length s + 2 <= fuel + i -> i <= length s ->
  map matched (execAll fuel Server.agencyRe s i) = agencyPhrases 0 (skipn i s).
Proof.
  induction fuel as [|fuel IH]; intros i Hfuel Hi; [lia|].
  destruct (firstIndex startsWithAgency (skipn i s)) as [n|] eqn:E.
  - destruct (agencyPhrases_first _ _ E) as (m & Hm & ->).
    apply firstIndex_Some in E. destruct E as (Hn & _ & Hk).
    rewrite length_skipn in Hn. rewrite skipn_skipn in Hm.
    assert (Hfit := agencyPhraseAt_Some _ _ Hm). destruct Hfit as [Hlen Hpre].
    rewrite length_skipn in Hlen.
    assert (Hat : matchAt s (ignoreCase Server.agencyRe) (source Server.agencyRe)
                    (nGroups Server.agencyRe) (n + i)
                  = Some (mkState (n + i + length m)
                            [Some (n + i, n + i + length m)])).
    { change (ignoreCase Server.agencyRe) with true.
      change (nGroups Server.agencyRe) with 0.
      rewrite (agency_matchAt s (n + i)) by lia. rewrite Hm. reflexivity. }
    rewrite (execAll_step s Server.agencyRe fuel i (n + i)
               (mkState (n + i + length m) [Some (n + i, n + i + length m)])
               (n + i + length m));
      try exact Hat; try lia; try reflexivity.
    + cbn [map]. rewrite (matched_whole s Server.agencyRe _ _ Hat). cbn [endIndex].
      f_equal.
      * unfold JSString.substring.
        replace (n + i + length m - (n + i)) with (length m) by lia.
        symmetry. exact Hpre.
      * rewrite IH by lia. rewrite skipn_skipn.
        replace (n + length m + i) with (n + i + length m) by lia. reflexivity.
    + intros k Hk'. apply agency_matchAt_none; [lia|].
      replace k with ((k - i) + i) by lia. rewrite <- skipn_skipn.
      apply Hk. lia.
  - rewrite (agencyPhrases_none _ E).
    rewrite (execAll_none s Server.agencyRe fuel i); [reflexivity|].
    intros k Hk. apply agency_matchAt_none; [lia|].
    replace k with ((k - i) + i) by lia. rewrite <- skipn_skipn.
    apply (firstIndex_None _ _ E).
Qed.

(** The matches of [text.match(/.../gi)] are the agency phrases of the text
    from left to right. *)
Lemma agencyMatches_agencyPhrases text :
  agencyMatches text = agencyPhrases 0 text.
Proof.
  unfold agencyMatches, matchGlobal.
  assert (H := execAll_agencyPhrases text (S (S (length text))) 0).
  cbn [skipn] in H. rewrite <- H by lia.
  destruct (execAll _ _ _ _); reflexivity.
Qed.

End AgencyScan.
(** ** The first paragraph and the collapsing of white space *)

Module SummaryFacts.

Import RegExp JSRegExp RegExpFacts CharFacts StringFacts MatchFacts ExecFacts ScanFacts
  ReplaceFacts.

(** *** The first paragraph *)

Definition startsBlankLine (l : jsstring) : bool :=
  match l with
  | a :: b :: _ => (N.eqb a LF && N.eqb b LF)%bool
  | _ => false
  end.

(** The text before the first two newlines in a row. *)
Fixpoint firstParagraph (l : jsstring) : jsstring :=
  match l with
  | c :: t => if startsBlankLine l then [] else c :: firstParagraph t
  | [] => []
  end.

Lemma paragraph_matchAt s j :
  matchAt s false (source Server.paragraphRe) 0 j
  = if startsBlankLine (skipn j s)
    then Some (mkState (j + 2) [Some (j, j + 2)])
    else None.
Proof.
  unfold matchAt. cbn [source Server.paragraphRe RSeqs].
  rewrite run_RSeq. cbn [compile repeat].
  rewrite (hd_skipn s j). destruct (nth_error s j) as [a|] eqn:Ha.
  - rewrite (CharacterSetMatcher_eval s false _ _ _ _ _ a Ha), charOK_char.
    unfold Canonicalize. rewrite (N.eqb_sym LF a).
    rewrite (hd_skipn s (S j)). destruct (nth_error s (S j)) as [b|] eqn:Hb.
    + cbn [startsBlankLine]. destruct (N.eqb a LF); [|reflexivity].
      rewrite (CharacterSetMatcher_eval s false _ _ _ _ _ b Hb), charOK_char.
      unfold Canonicalize. rewrite (N.eqb_sym LF b).
      destruct (N.eqb b LF); [|reflexivity].
      cbn [endIndex captures setCapture andb].
      replace (j + 2) with (S (S j)) by lia. reflexivity.
    + cbn [startsBlankLine]. destruct (N.eqb a LF); [|reflexivity].
      rewrite (CharacterSetMatcher_end s false _ _ _ _ _ Hb). reflexivity.
  - rewrite (CharacterSetMatcher_end s false _ _ _ _ _ Ha). reflexivity.
Qed.

Lemma splitLoop_firstParagraph s : forall fuel q,
  length s - q < fuel -> q <= length s ->
  nth_error (splitLoop fuel Server.paragraphRe s 0 q) 0
  = Some (Some (firstn q s ++ firstParagraph (skipn q s))).
Proof.
  induction fuel as [|fuel IH]; intros q Hfuel Hq; [lia|].
  cbn [splitLoop]. destruct (q <? length s) eqn:Eq.
  - apply Nat.ltb_lt in Eq.
    change (ignoreCase Server.paragraphRe) with false.
    change (nGroups Server.paragraphRe) with 0.
    rewrite paragraph_matchAt.
    assert (Hnext : nth_error (splitLoop fuel Server.paragraphRe s 0 (AdvanceStringIndex q)) 0
                    = Some (Some (firstn q s ++ firstParagraph (skipn q s)))
                    \/ startsBlankLine (skipn q s) = true).
    { destruct (startsBlankLine (skipn q s)) eqn:Eb; [right; reflexivity|left].
      unfold AdvanceStringIndex. rewrite IH by lia.
      rewrite (hd_skipn s q) in *.
      destruct (nth_error s q) as [c|] eqn:Hc; [|apply nth_error_None in Hc; lia].
      cbn [firstParagraph]. rewrite Eb.
      replace (S q) with (q + 1) by lia. rewrite firstn_plus.
      rewrite (hd_skipn s q), Hc. cbn [firstn]. rewrite <- app_assoc.
      replace (q + 1) with (S q) by lia. reflexivity. }
    destruct (startsBlankLine (skipn q s)) eqn:Eb.
    + cbn [endIndex].
      assert (Hlen : q + 2 <= length s).
      { assert (Hl : length (skipn q s) = length s - q) by apply length_skipn.
        destruct (skipn q s) as [|a [|b t]]; try discriminate. simpl in Hl. lia. }
      rewrite Nat.min_l by lia.
      replace (q + 2 =? 0) with false by (symmetry; apply Nat.eqb_neq; lia).
      cbn [nth_error]. unfold JSString.substring. rewrite Nat.sub_0_r. cbn [skipn].
      destruct (skipn q s) as [|a t] eqn:Es; [discriminate|].
      cbn [firstParagraph]. rewrite Eb, app_nil_r. reflexivity.
    + destruct Hnext as [Hnext|]; [exact Hnext|discriminate].
  - apply Nat.ltb_ge in Eq. assert (q = length s) by lia. subst q.
    cbn [nth_error]. unfold JSString.substring. rewrite Nat.sub_0_r. cbn [skipn].
    rewrite skipn_all, app_nil_r. reflexivity.
Qed.

(** [s.split(/\n\n/)[0]] *)
Lemma split_firstParagraph s :
  nth_error (split s Server.paragraphRe) 0 = Some (Some (firstParagraph s)).
Proof.
  unfold split. destruct s as [|c t]; [reflexivity|].
  rewrite splitLoop_firstParagraph; [reflexivity| |]; simpl; lia.
Qed.

(** *** White space *)

Definition startsWithSpace (l : jsstring) : bool :=
  match l with c :: _ => isWhiteSpace c | [] => false end.

(** The white space at the head of a string. *)
Fixpoint spaceRun (l : jsstring) : nat :=
  match l with
  | c :: t => if isWhiteSpace c then S (spaceRun t) else 0
  | [] => 0
  end.

(** Every run of white space replaced by one space; [inRun] when the code
    unit before was white space. *)
Fixpoint collapse (inRun : bool) (l : jsstring) : jsstring :=
  match l with
  | [] => []
  | c :: t =>
      if isWhiteSpace c
      then if inRun then collapse true t else 32%N :: collapse true t
      else c :: collapse false t
  end.

Definition collapseWhitespace (s : jsstring) : jsstring := collapse false s.

Lemma charOK_space c : charOK false [ClSpace] false c = isWhiteSpace c.
Proof.
  rewrite charOK_case_sensitive. unfold inCharSet. cbn [existsb inAtom xorb].
  apply orb_false_r.
Qed.

Lemma spaceRun_all l i :
  i < spaceRun l -> exists c, nth_error l i = Some c /\ isWhiteSpace c = true.
Proof.
  revert i. induction l as [|c t IH]; intros i; simpl; [lia|].
  destruct (isWhiteSpace c) eqn:E; [|lia].
  destruct i as [|i]; [intros _; exists c; split; [reflexivity|exact E]|].
  intros Hi. apply (IH i). lia.
Qed.

Lemma spaceRun_longest l c :
  nth_error l (spaceRun l) = Some c -> isWhiteSpace c = false.
Proof.
  induction l as [|a t IH]; simpl; [discriminate|].
  destruct (isWhiteSpace a) eqn:E; simpl; [exact IH|].
  intros H; inversion H; subst. exact E.
Qed.

Lemma spaceRun_length l : spaceRun l <= length l.
Proof.
  induction l as [|a t IH]; simpl; [lia|]. destruct (isWhiteSpace a); lia.
Qed.

Lemma spaces_matchAt s j :
  j <= length s ->
  matchAt s false (source Server.spacesRe) 0 j
  = if startsWithSpace (skipn j s)
    then Some (mkState (j + spaceRun (skipn j s)) [Some (j, j + spaceRun (skipn j s))])
    else None.
Proof.
  intros Hjs. destruct (startsWithSpace (skipn j s)) eqn:E.
  - assert (Hj : j < length s).
    { apply skipn_nonempty. destruct (skipn j s); [discriminate|discriminate]. }
    unfold matchAt. cbn [source Server.spacesRe repeat]. unfold plus.
    apply (run_greedy_class s false [ClSpace] false (spaceRun (skipn j s)));
      try lia; try reflexivity.
    + intros i Hi. destruct (spaceRun_all _ _ Hi) as (c & Hc & Hok).
      rewrite nth_error_skipn in Hc. exists c. split; [exact Hc|].
      rewrite charOK_space. exact Hok.
    + right. split; [discriminate|]. intros c Hc. rewrite charOK_space.
      apply (spaceRun_longest (skipn j s)). rewrite nth_error_skipn. exact Hc.
    + destruct (skipn j s) as [|c t]; [discriminate|]. simpl in *. rewrite E. lia.
  - destruct (matchAt s false (source Server.spacesRe) 0 j) as [z|] eqn:Em;
      [|reflexivity].
    apply (matchAt_sound s Server.spacesRe) in Em. destruct Em as (Hm & _).
    cbn [source Server.spacesRe ignoreCase] in Hm. unfold plus in Hm.
    assert (Hb := matches_bound _ _ _ _ _ Hm Hjs).
    apply matches_class_quant in Hm. destruct Hm as (Hle & Hall & _ & Hmin).
    assert (H1 : 1 <= endIndex z - j) by (apply Hmin; discriminate).
    rewrite (substring_app s j (S j)) in Hall by lia.
    destruct (nth_error s j) as [c|] eqn:Hc;
      [|apply nth_error_None in Hc; lia].
    rewrite (substring_char s j c Hc) in Hall. inversion Hall as [|? ? Hok _]; subst.
    rewrite charOK_space in Hok. rewrite (hd_skipn s j), Hc in E. simpl in E.
    congruence.
Qed.

Lemma collapse_run : forall l,
  collapse true l = collapse false (skipn (spaceRun l) l).
Proof.
  induction l as [|c t IH]; [reflexivity|]. simpl.
  destruct (isWhiteSpace c) eqn:E; [exact IH|].
  simpl. rewrite E. reflexivity.
Qed.

Lemma collapse_first : forall l n,
  firstIndex startsWithSpace l = Some n ->
  collapse false l
  = firstn n l ++ 32%N :: collapse false (skipn (n + spaceRun (skipn n l)) l).
Proof.
  induction l as [|c t IH]; intros n; [discriminate|].
  cbn [firstIndex startsWithSpace collapse]. destruct (isWhiteSpace c) eqn:E.
  - intros H. injection H as <-. cbn [firstn app skipn Nat.add spaceRun].
    rewrite E. cbn [skipn]. rewrite collapse_run. reflexivity.
  - destruct (firstIndex startsWithSpace t) as [k|] eqn:Ek; [|discriminate].
    intros H. injection H as <-. cbn [firstn app skipn Nat.add].
    rewrite (IH k eq_refl). reflexivity.
Qed.

Lemma collapse_none : forall l,
  firstIndex startsWithSpace l = None -> collapse false l = l.
Proof.
  induction l as [|c t IH]; [reflexivity|].
  cbn [firstIndex startsWithSpace collapse]. destruct (isWhiteSpace c); [discriminate|].
  destruct (firstIndex startsWithSpace t); [discriminate|].
  intros _. f_equal. apply IH. reflexivity.
Qed.

Lemma replace_spaces_from s : forall fuel i,
  length s + 2 <= fuel + i -> i <= length s ->
  assemble s (execAll fuel Server.spacesRe s i) (js " ") i
  = collapse false (skipn i s).
Proof.
  induction fuel as [|fuel IH]; intros i Hfuel Hi; [lia|].
  destruct (firstIndex startsWithSpace (skipn i s)) as [n|] eqn:E.
  - rewrite (collapse_first _ _ E).
    apply firstIndex_Some in E. destruct E as (Hn & Hp & Hk).
    rewrite length_skipn in Hn. rewrite skipn_skipn in *.
    assert (Hlt : n + i < length s).
    { apply skipn_nonempty. destruct (skipn (n + i) s); discriminate. }
    assert (Hrun : 1 <= spaceRun (skipn (n + i) s) <= length s - (n + i)).
    { assert (Hl := spaceRun_length (skipn (n + i) s)). rewrite length_skipn in Hl.
      split; [|exact Hl]. destruct (skipn (n + i) s) as [|c t]; [discriminate|].
      simpl in *. rewrite Hp. lia. }
    rewrite (assemble_execAll_step s Server.spacesRe (js " ") fuel i (n + i)
               (mkState (n + i + spaceRun (skipn (n + i) s))
                  [Some (n + i, n + i + spaceRun (skipn (n + i) s))])
               (n + i + spaceRun (skipn (n + i) s)));
      try lia; try reflexivity.
    + rewrite IH by lia. rewrite skipn_skipn.
      unfold JSString.substring at 1. replace (n + i - i) with n by lia.
      replace (n + spaceRun (skipn (n + i) s) + i)
        with (n + i + spaceRun (skipn (n + i) s)) by lia.
      reflexivity.
    + change (ignoreCase Server.spacesRe) with false.
      change (nGroups Server.spacesRe) with 0.
      rewrite spaces_matchAt by lia. rewrite Hp. reflexivity.
    + intros k Hk'. change (ignoreCase Server.spacesRe) with false.
      change (nGroups Server.spacesRe) with 0.
      rewrite spaces_matchAt by lia.
      replace k with ((k - i) + i) by lia. rewrite <- skipn_skipn.
      rewrite Hk by lia. reflexivity.
  - rewrite (collapse_none _ E).
    apply assemble_execAll_none. intros k Hk.
    change (ignoreCase Server.spacesRe) with false.
    change (nGroups Server.spacesRe) with 0.
    rewrite spaces_matchAt by lia.
    replace k with ((k - i) + i) by lia. rewrite <- skipn_skipn.
    rewrite (firstIndex_None _ _ E). reflexivity.
Qed.

(** [s.replace(/\s+/g, ' ')] *)
Lemma replace_spaces s :
  replace s Server.spacesRe (js " ") = collapseWhitespace s.
Proof.
  unfold replace, results. change (global Server.spacesRe) with true.
  cbn match. apply (replace_spaces_from s _ 0); lia.
Qed.

End SummaryFacts.

(** ** [String.prototype.trim] *)

Module TrimSpec.

Definition blank (l : jsstring) : Prop := Forall (fun c => isWhiteSpace c = true) l.

(** [e] is [m] without the white space at its two ends: [m] is [e] between
    two runs of white space, and [e] neither begins nor ends with white
    space. *)
Definition stripped (m e : jsstring) : Prop :=
  exists pre post,
    m = pre ++ e ++ post
    /\ blank pre /\ blank post
    /\ (forall c t, e = c :: t -> isWhiteSpace c = false)
    /\ (forall t c, e = t ++ [c] -> isWhiteSpace c = false).

Lemma trimStart_split l :
  exists pre, l = pre ++ JSString.trimStart l /\ blank pre
    /\ (forall c t, JSString.trimStart l = c :: t -> isWhiteSpace c = false).
Proof.
  induction l as [|a l IH].
  - exists []. split; [reflexivity|]. split; [constructor|]. discriminate.
  - cbn [JSString.trimStart]. destruct (isWhiteSpace a) eqn:Ea.
    + destruct IH as (pre & Hl & Hpre & Hhd). exists (a :: pre).
      split; [cbn [app]; rewrite <- Hl; reflexivity|].
      split; [constructor; assumption|exact Hhd].
    + exists []. split; [reflexivity|]. split; [constructor|].
      intros c t H. inversion H; subst. exact Ea.
Qed.

Lemma trimStart_blank pre l : blank pre -> JSString.trimStart (pre ++ l) = JSString.trimStart l.
Proof.
  induction 1 as [|c pre Hc _ IH]; [reflexivity|].
  cbn [app JSString.trimStart]. rewrite Hc. exact IH.
Qed.

Lemma trimStart_all l : blank l -> JSString.trimStart l = [].
Proof.
  intros H. rewrite <- (app_nil_r l). rewrite (trimStart_blank l [] H). reflexivity.
Qed.

Lemma trimStart_fixed l :
  (forall c t, l = c :: t -> isWhiteSpace c = false) -> JSString.trimStart l = l.
Proof.
  destruct l as [|c t]; [reflexivity|]. intros H. cbn [JSString.trimStart].
  rewrite (H c t eq_refl). reflexivity.
Qed.

Lemma blank_rev l : blank l -> blank (rev l).
Proof. apply Forall_rev. Qed.

(** What [trim] returns is the string stripped. *)
Lemma trim_stripped m : stripped m (JSString.trim m).
Proof.
  unfold JSString.trim, JSString.trimEnd.
  destruct (trimStart_split m) as (pre & Hm & Hpre & Hhd).
  set (x := JSString.trimStart m) in *.
  destruct (trimStart_split (rev x)) as (q & Hx & Hq & Hlast).
  set (y := JSString.trimStart (rev x)) in *.
  assert (Hx' : x = rev y ++ rev q).
  { rewrite <- (rev_involutive x), Hx, rev_app_distr. reflexivity. }
  exists pre, (rev q). split; [rewrite Hm, Hx'; reflexivity|].
  split; [exact Hpre|]. split; [apply blank_rev; exact Hq|]. split.
  - intros c t Hy. destruct (rev y) as [|c' t'] eqn:Ey; [discriminate|].
    inversion Hy; subst c' t'. apply (Hhd c (t ++ rev q)).
    rewrite Hx'. reflexivity.
  - intros t c Hy. apply (Hlast c (rev t)).
    rewrite <- (rev_involutive y), Hy, rev_app_distr. reflexivity.
Qed.

(** And nothing else is. *)
Lemma stripped_trim m e : stripped m e -> JSString.trim m = e.
Proof.
  intros (pre & post & -> & Hpre & Hpost & Hhd & Hlast).
  unfold JSString.trim, JSString.trimEnd. rewrite (trimStart_blank pre _ Hpre).
  destruct e as [|c t].
  - cbn [app]. rewrite (trimStart_all post Hpost). reflexivity.
  - rewrite (trimStart_fixed ((c :: t) ++ post)).
    2: { intros c' t' H. inversion H; subst. apply (Hhd c' t). reflexivity. }
    rewrite rev_app_distr, (trimStart_blank (rev post) _ (blank_rev _ Hpost)).
    rewrite trimStart_fixed; [apply rev_involutive|].
    intros c' t' H. apply (Hlast (rev t') c').
    rewrite <- (rev_involutive (c :: t)), H. reflexivity.
Qed.

Lemma map_trim_stripped ms : Forall2 stripped ms (map JSString.trim ms).
Proof.
  induction ms as [|m ms IH]; constructor; [apply trim_stripped|exact IH].
Qed.

Lemma stripped_map_trim ms trimmed :
  Forall2 stripped ms trimmed -> trimmed = map JSString.trim ms.
Proof.
  induction 1 as [|m e ms trimmed H _ IH]; [reflexivity|].
  cbn [map]. rewrite (stripped_trim m e H), IH. reflexivity.
Qed.

End TrimSpec.

Import RegExp JSRegExp RegExpFacts ExecFacts ExtractFacts.

Lemma extractFallback_normal (host : Host) text filename :
  exists r, Server.extractFallback host text filename = Normal r
    /\ contentFieldsAreStrings r /\ _method r = None
    /\ legislationYear r = yearOf text
    /\ implementingAgencies r = Some (orElse (agenciesOf text) defaultAgencies).
Proof.
  destruct (title_exists host text (filenameOrDefault filename)) as [title Ht].
  destruct (summary_exists text) as [summary Hs].
  destruct (objectives_exists text) as [objectives Ho].
  destruct (year_exists text) as [year Hy].
  eexists. split; [apply extractFallback_shape; eassumption|].
  unfold contentFieldsAreStrings, isString. cbn [legislationTitle legislationYear
    legislationSummary primaryObjectives implementingAgencies suggestedCountry
    jurisdictionLevel parliamentType keyProvisions reviewClauses _method].
  rewrite Hy. repeat split; eauto.
Qed.

Lemma client_is_server_with_method (host : Host) text filename :
  exists r, Server.extractFallback host text (Some filename) = Normal r
    /\ Client.extractLegislationFallback host text (Some filename)
       = Normal (withMethod r (Some (js "fallback"))).
Proof.
  destruct (title_exists host text filename) as [title Ht].
  destruct (summary_exists text) as [summary Hs].
  destruct (objectives_exists text) as [objectives Ho].
  eexists. split; [apply extractFallback_shape; eassumption|].
  rewrite (extractLegislationFallback_shape _ _ _ _ _ _ Ht Hs Ho). reflexivity.
Qed.

(** The two copies of the pattern extractor, called with a text and a file
    name. *)
Inductive Copy := ServerCopy | ClientCopy.

Definition extractor (copy : Copy) (host : Host) (text filename : jsstring)
  : completion ExtractionResult :=
  match copy with
  | ServerCopy => Server.extractFallback host text (Some filename)
  | ClientCopy => Client.extractLegislationFallback host text (Some filename)
  end.

(** A content field is the same in both copies. *)
Lemma extractor_field copy host text filename (f : ExtractionResult -> option jsstring) :
  (forall r m, f (withMethod r m) = f r) ->
  field f (extractor copy host text filename)
  = field f (Server.extractFallback host text (Some filename)).
Proof.
  intros Hf. destruct copy; [reflexivity|].
  destruct (client_is_server_with_method host text filename) as (r & Hr & Hr').
  cbn [extractor]. rewrite Hr, Hr'. cbn [field]. apply Hf.
Qed.

(** C1 (as amended). For every pair of strings both copies of the pattern
    extractor return normally; each of the ten content fields of the result
    is present and a string; the client copy also carries
    [_method: "fallback"], the server copy's result has no [_method]. *)
Theorem extractor_total_fields (host : Host) (text filename : jsstring) :
  exists r r',
    Server.extractFallback host text (Some filename) = Normal r
    /\ Client.extractLegislationFallback host text (Some filename) = Normal r'
    /\ contentFieldsAreStrings r /\ contentFieldsAreStrings r'
    /\ _method r = None /\ _method r' = Some (js "fallback").
Proof.
  destruct (client_is_server_with_method host text filename) as (r & Hr & Hr').
  destruct (extractFallback_normal host text (Some filename)) as (r0 & Hr0 & Hf & Hm & _).
  rewrite Hr in Hr0. inversion Hr0; subst r0; clear Hr0.
  exists r, (withMethod r (Some (js "fallback"))).
  repeat split; auto; try apply Hf.
Qed.

(** C1, as stated, fails on the server copy: its result has no [_method]. *)
Lemma extractFallback_has_no_method :
  ~ (exists r, Server.extractFallback basicLatinHost [] (Some []) = Normal r
               /\ contentFieldsAreStrings r /\ isString (_method r)).
Proof.
  intros (r & Hr & _ & s & Hs).
  vm_compute in Hr. inversion Hr; subst r. discriminate Hs.
Qed.

(** C3 (as amended). The two copies agree on every content field of the
    result for every pair of strings; the client copy's result is the
    server copy's with [_method: "fallback"] added. *)
Theorem copies_agree_up_to_method (host : Host) (text filename : jsstring) :
  exists r,
    Server.extractFallback host text (Some filename) = Normal r
    /\ _method r = None
    /\ Client.extractLegislationFallback host text (Some filename)
       = Normal (withMethod r (Some (js "fallback"))).
Proof.
  destruct (client_is_server_with_method host text filename) as (r & Hr & Hr').
  destruct (extractFallback_normal host text (Some filename)) as (r0 & Hr0 & _ & Hm & _).
  rewrite Hr in Hr0. inversion Hr0; subst r0.
  exists r. auto.
Qed.

(** C3, as stated, fails: the results differ in [_method]. *)
Lemma copies_differ_in_method :
  Server.extractFallback basicLatinHost [] (Some []) <> Client.extractLegislationFallback basicLatinHost [] (Some []).
Proof. vm_compute. discriminate. Qed.

(** *** The extract endpoint *)

Section EndpointFacts.

Variable host : Host.
Variable AIData : Type.
Variable JSON_parse : jsstring -> completion AIData.
Variable ANTHROPIC_API_KEY : option jsstring.

Definition isJson (response : Server.Response AIData) : Prop :=
  match response with
  | Server.Json _ _ _ _ => True
  | _ => False
  end.

Lemma tryExtract_Json text filename upstream response :
  Server.tryExtract host AIData JSON_parse ANTHROPIC_API_KEY text filename upstream
    = Normal response ->
  isJson response.
Proof.
  unfold Server.tryExtract.
  destruct (Server.falsy ANTHROPIC_API_KEY).
  - destruct (Server.extractFallback host text filename); simpl; [|discriminate].
    intros H; inversion H; exact I.
  - destruct upstream as [e|[[]|e]|[content|e]]; simpl; try discriminate.
    + destruct (Server.extractFallback host text filename); simpl; [|discriminate].
      intros H; inversion H; exact I.
    + destruct (match_ content Server.jsonRe) as [m|]; [|discriminate].
      destruct (JSON_parse _); simpl; [|discriminate].
      intros H; inversion H; exact I.
Qed.

(** The AI path fails: no credential, [fetch] throws, a non-success
    status, a reply whose text cannot be read, a reply with no [{...}]
    span, or one that [JSON.parse] rejects. *)
Definition aiPathFails (upstream : Server.Upstream) : Prop :=
  Server.falsy ANTHROPIC_API_KEY = true
  \/ match upstream with
     | Server.FetchRejects _ => True
     | Server.NotOk _ => True
     | Server.Ok (Throw _) => True
     | Server.Ok (Normal content) =>
         match match_ content Server.jsonRe with
         | None => True
         | Some jsonMatch =>
             exists e,
               JSON_parse (match elem jsonMatch 0 with
                           | Some s => s
                           | None => js "undefined"
                           end) = Throw e
         end
     end.

(** C2 (as amended). For every request whose text passes the validation
    (trimmed length at least 50), with or without a file name, when the AI
    path fails (no credential, [fetch] throwing, a non-success status, no
    JSON object in the reply or one that does not parse) the endpoint
    answers with a success envelope whose [method] is ["fallback"] and whose
    [data] is exactly what [extractFallback] returns for the same text and
    file name: the ten content fields, with no [_method] among them. *)
Theorem extract_falls_back text filename upstream :
  50 <= length (JSString.trim text) ->
  aiPathFails upstream ->
  exists data warning,
    Server.extractFallback host text filename = Normal data
    /\ _method data = None
    /\ Server.extract host AIData JSON_parse ANTHROPIC_API_KEY
         (Server.mkRequest (Some text) filename) upstream
       = Server.Json true (js "fallback") (inl data) warning.
Proof.
  intros Hlen Hfail.
  destruct (extractFallback_normal host text filename) as (data & Hdata & _ & Hm & _).
  exists data. unfold Server.extract. cbn [Server.reqText Server.reqFilename].
  assert (Hne : Server.falsy (Some text) = false).
  { destruct text; [simpl in Hlen; lia|reflexivity]. }
  rewrite Hne. cbn [orb].
  apply Nat.ltb_ge in Hlen. rewrite Hlen.
  unfold Server.tryExtract. rewrite Hdata.
  destruct Hfail as [Hkey|Hup].
  - rewrite Hkey. simpl. eauto.
  - destruct (Server.falsy ANTHROPIC_API_KEY); [simpl; eauto|].
    destruct upstream as [e|[[]|e]|[content|e]]; simpl; eauto.
    destruct (match_ content Server.jsonRe) as [m|]; [|simpl; eauto].
    destruct Hup as [e ->]. simpl. eauto.
Qed.

(** C9. The endpoint answers with the validation error exactly when the
    text of the request is missing or its trimmed length is below 50; a
    text of trimmed length 50 or more is never rejected. *)
Theorem extract_rejects_iff_short req upstream :
  (exists error,
     Server.extract host AIData JSON_parse ANTHROPIC_API_KEY req upstream
       = Server.BadRequest error)
  <-> (Server.reqText req = None
       \/ exists text, Server.reqText req = Some text
                       /\ length (JSString.trim text) < 50).
Proof.
  unfold Server.extract. destruct (Server.reqText req) as [text|].
  - assert (Hf : Server.falsy (Some text) = true -> length (JSString.trim text) < 50).
    { destruct text; [simpl; lia|discriminate]. }
    destruct (Server.falsy (Some text) || (length (JSString.trim text) <? 50))%bool
      eqn:E.
    + split; [intros _; right|eauto]. exists text. split; [reflexivity|].
      apply orb_true_iff in E. destruct E as [E|E]; [auto|].
      apply Nat.ltb_lt. exact E.
    + apply orb_false_iff in E. destruct E as [_ E]. apply Nat.ltb_ge in E.
      split.
      * intros [error H]. exfalso.
        destruct (Server.tryExtract host _ _ _ _ _ _) as [response|e] eqn:Et.
        -- apply tryExtract_Json in Et. rewrite H in Et. exact Et.
        -- destruct (Server.extractFallback host text (Server.reqFilename req));
             discriminate.
      * intros [H|(t & H & Ht)]; [discriminate|]. inversion H; subst. lia.
  - split; eauto.
Qed.

End EndpointFacts.

Definition sampleText : jsstring :=
  js "The Ministry of Health shall publish a report each year on the state of clinics.".

Lemma extract_falls_back_witness :
  50 <= length (JSString.trim sampleText)
  /\ aiPathFails unit (fun _ => Throw (SyntaxError [])) None
       (Server.NotOk (Normal tt))
  /\ exists data warning,
       Server.extractFallback basicLatinHost sampleText None = Normal data
       /\ _method data = None
       /\ Server.extract basicLatinHost unit (fun _ => Throw (SyntaxError [])) None
            (Server.mkRequest (Some sampleText) None) (Server.NotOk (Normal tt))
          = Server.Json true (js "fallback") (inl data) warning.
Proof.
  assert (H1 : 50 <= length (JSString.trim sampleText)) by (vm_compute; lia).
  assert (H2 : aiPathFails unit (fun _ => Throw (SyntaxError [])) None
                 (Server.NotOk (Normal tt))) by (left; reflexivity).
  split; [exact H1|]. split; [exact H2|].
  exact (extract_falls_back basicLatinHost unit (fun _ => Throw (SyntaxError [])) None
           sampleText None (Server.NotOk (Normal tt)) H1 H2).
Defined.

(** C2, as stated, fails twice. A text that does not pass the validation
    is answered with 400, with no credential configured or with one; and
    the [data] of the fallback envelope carries no [_method]. *)
Lemma extract_short_text_is_rejected :
  (Server.falsy None = true
   /\ Server.extract basicLatinHost unit (fun _ => Throw (SyntaxError [])) None
        (Server.mkRequest (Some (js "An Act")) (Some (js "act.txt")))
        (Server.NotOk (Normal tt))
      = Server.BadRequest (js "Document text is too short for analysis"))
  /\ (exists data warning,
        Server.extract basicLatinHost unit (fun _ => Throw (SyntaxError [])) None
          (Server.mkRequest (Some sampleText) (Some (js "act.txt")))
          (Server.NotOk (Normal tt))
        = Server.Json true (js "fallback") (inl data) warning
        /\ _method data = None).
Proof.
  split; [split; reflexivity|].
  eexists. eexists. split; [vm_compute; reflexivity|reflexivity].
Qed.

(** *** Defaults *)





(** *** The year *)

(** C4 (as amended). In either copy of the extractor the year is the
    4-digit token beginning with 19 or 20 that stands at the first index
    where such a token has no word character (letter, digit, underscore)
    before it and none after it, and the empty string when there is no such
    index. The text
    ["...enacted in 1998 under..."] yields ["1998"]; the text
    ["in room 1999A"] yields the empty string, the [A] after [1999] being a
    word character. *)
Theorem year_is_first_bounded_token (copy : Copy) (host : Host) (text filename : jsstring) :
  ((exists i,
      YearFacts.yearAt text i = true
      /\ (forall j, j < i -> YearFacts.yearAt text j = false)
      /\ field legislationYear (extractor copy host text filename)
         = Some (JSString.substring text i (i + 4)))
   \/ ((forall i, YearFacts.yearAt text i = false)
       /\ field legislationYear (extractor copy host text filename) = Some []))
  /\ field legislationYear
       (extractor copy host (js "...enacted in 1998 under...") filename)
     = Some (js "1998")
  /\ field legislationYear (extractor copy host (js "in room 1999A") filename)
     = Some [].
Proof.
  assert (Hfield : forall t,
    field legislationYear (extractor copy host t filename) = yearOf t).
  { intros t. rewrite extractor_field by (intros; reflexivity).
    destruct (extractFallback_normal host t (Some filename))
      as (r & -> & _ & _ & Hy & _).
    exact Hy. }
  rewrite !Hfield. split; [|split; vm_compute; reflexivity].
  destruct (YearFacts.yearOf_first text) as [(i & Hi & Hfirst & Hy)|[Hnone Hy]].
  - left. exists i. auto.
  - right. auto.
Qed.

(** C4, as stated, fails on its second example: ["in room 1999A"] does not
    yield ["1999"]. *)
Lemma year_1999A_is_not_found :
  field legislationYear (Server.extractFallback basicLatinHost (js "in room 1999A") None)
  <> Some (js "1999").
Proof. vm_compute. discriminate. Qed.

(** *** The agencies *)

Definition lines (l : list jsstring) : jsstring := JSString.join [LF] l.

Definition agencyExample : jsstring :=
  lines [js "The Ministry of Health";
         js "shall consult the Department of Finance";
         js "and the Ministry of Health";
         js "with the Water Authority";
         js "the Electoral Commission";
         js "the Ministry of Health";
         js "the Audit Office";
         js "the Revenue Board"].

Lemma implementingAgencies_field (host : Host) text filename :
  field implementingAgencies (Server.extractFallback host text filename)
  = Some (orElse (agenciesOf text) defaultAgencies).
Proof.
  destruct (extractFallback_normal host text filename) as (r & -> & _ & _ & _ & Ha).
  exact Ha.
Qed.

(** Two agencies, each named twice, once with white space before the end
    of its line. *)
Definition trailingExample : jsstring :=
  lines [js "Ministry of Health   "; js "Ministry of Health";
         js "Board A" ++ [9%N]; js "Board A"].

(** C7. For every text, in either copy of the extractor, the agencies are
    built from the matches of the agency pattern, which are the agency phrases of the text read from left
    to right: at the first index where a keyword stands in any
    capitalization, the keyword and the longest run of at most 50 code units
    other than comma and newline after it, the search going on where the
    phrase ends. Each match is trimmed: what is kept of it neither begins
    nor ends with white space, and only white space was taken off its two
    ends. The trimmed matches are deduplicated keeping the first
    occurrence of each in order, cut to the first 5 and joined with [", "]
    (["Relevant government ministries and agencies"] standing in when
    nothing is left). A text that names
    the Ministry of Health three times and five other agencies yields 5
    entries, each once, in the order of their first appearance; matches
    that differ in the white space at their end only are one entry. *)
Theorem agencies_deduplicated_and_capped (copy : Copy) (host : Host) (text filename : jsstring) :
  let ms := AgencyFacts.agencyMatches text in
  exists trimmed,
    let entries := firstn 5 (SetFacts.firstSeen [] trimmed) in
    ms = AgencyScan.agencyPhrases 0 text
    /\ Forall (fun m => AgencyFacts.isAgencyPhrase m
                        /\ exists i, AgencyFacts.occursAt text m i) ms
    /\ Forall2 TrimSpec.stripped ms trimmed
    /\ (forall other, Forall2 TrimSpec.stripped ms other -> other = trimmed)
    /\ field implementingAgencies (extractor copy host text filename)
       = Some (orElse (JSString.join (js ", ") entries)
                 (js "Relevant government ministries and agencies"))
    /\ NoDup entries
    /\ length entries <= 5
    /\ (forall e, In e entries -> In e trimmed)
    /\ (length (SetFacts.firstSeen [] trimmed) <= 5 ->
        forall e, In e trimmed -> In e entries)
    /\ field implementingAgencies (extractor copy host agencyExample filename)
       = Some (js "Ministry of Health, Department of Finance, Authority, Commission, Office")
    /\ field implementingAgencies (extractor copy host trailingExample filename)
       = Some (js "Ministry of Health, Board A").
Proof.
  intros ms. exists (map JSString.trim ms). intros entries.
  split; [apply AgencyScan.agencyMatches_agencyPhrases|].
  split; [apply AgencyFacts.agencyMatches_phrases|].
  split; [apply TrimSpec.map_trim_stripped|].
  split; [intros other Ho; apply TrimSpec.stripped_map_trim; exact Ho|].
  unfold entries. rewrite <- !SetFacts.fromArray_firstSeen.
  split; [rewrite extractor_field by (intros; reflexivity);
          rewrite implementingAgencies_field, AgencyFacts.agenciesOf_agencyMatches;
          reflexivity|].
  split; [apply SetFacts.firstn_NoDup, SetFacts.fromArray_NoDup|].
  split; [apply firstn_le_length|].
  split; [intros e He; apply SetFacts.firstn_In in He;
          apply (proj1 (SetFacts.fromArray_In _ _)) in He; exact He|].
  split.
  - intros Hlen e He. rewrite firstn_all2 by exact Hlen.
    apply (proj2 (SetFacts.fromArray_In _ _)). exact He.
  - rewrite !extractor_field by (intros; reflexivity).
    rewrite !implementingAgencies_field. split; vm_compute; reflexivity.
Qed.

Definition capitalsExample : jsstring :=
  lines [js "Ministry of Health"; js "MINISTRY OF HEALTH"].

Definition capExample : jsstring :=
  lines [js "Ministry of Health"; js "MINISTRY OF HEALTH";
         js "Board A"; js "Board B"; js "Board C"; js "Board D"].

(** The same agency in three capitalizations, one of them twice. *)
Definition repeatedExample : jsstring :=
  lines [js "Ministry of Health"; js "MINISTRY OF HEALTH"; js "Ministry of Health";
         js "ministry of health"].

(** C10. For every text, in either copy of the extractor, the trimmed
    matches of the agency pattern are deduplicated by comparing them code
    unit by code unit. The distinct entries hold no string twice and hold
    every trimmed match: matches that are equal after trimming are one
    entry, and two that differ stand at two places, also when they differ
    in capitalization only. The agencies are the first 5 of the distinct
    entries, so each of them counts against the cap. "Ministry of Health"
    and "MINISTRY OF HEALTH" are both found by the case-insensitive
    pattern, both kept, and both count against the cap of 5. *)
Theorem agency_dedup_is_case_sensitive (copy : Copy) (host : Host) (text filename : jsstring) :
  let ms := AgencyFacts.agencyMatches text in
  exists trimmed distinct,
    Forall2 TrimSpec.stripped ms trimmed
    /\ distinct = SetFacts.firstSeen [] trimmed
    /\ NoDup distinct
    /\ (forall e, In e distinct <-> In e trimmed)
    /\ (forall a b, In a trimmed -> In b trimmed -> a <> b ->
          exists i j, i <> j /\ nth_error distinct i = Some a
                      /\ nth_error distinct j = Some b)
    /\ field implementingAgencies (extractor copy host text filename)
       = Some (orElse (JSString.join (js ", ") (firstn 5 distinct))
                 (js "Relevant government ministries and agencies"))
    /\ length (firstn 5 distinct) = Nat.min 5 (length distinct)
    /\ (js "Ministry of Health" <> js "MINISTRY OF HEALTH"
        /\ asciiLowerCase (js "Ministry of Health")
           = asciiLowerCase (js "MINISTRY OF HEALTH"))
    /\ field implementingAgencies (extractor copy host capitalsExample filename)
       = Some (js "Ministry of Health, MINISTRY OF HEALTH")
    /\ field implementingAgencies (extractor copy host repeatedExample filename)
       = Some (js "Ministry of Health, MINISTRY OF HEALTH, ministry of health")
    /\ field implementingAgencies (extractor copy host capExample filename)
       = Some (js "Ministry of Health, MINISTRY OF HEALTH, Board A, Board B, Board C").
Proof.
  intros ms.
  exists (map JSString.trim ms), (JSSet.fromArray (map JSString.trim ms)).
  assert (Hin : forall e, In e (JSSet.fromArray (map JSString.trim ms))
                          <-> In e (map JSString.trim ms))
    by (intros e; apply SetFacts.fromArray_In).
  split; [apply TrimSpec.map_trim_stripped|].
  split; [apply SetFacts.fromArray_firstSeen|].
  split; [apply SetFacts.fromArray_NoDup|].
  split; [exact Hin|].
  split.
  { intros a b Ha Hb Hab.
    apply Hin, In_nth_error in Ha. apply Hin, In_nth_error in Hb.
    destruct Ha as [i Hi]. destruct Hb as [j Hj]. exists i, j.
    split; [|split; assumption]. intros ->. congruence. }
  split; [rewrite extractor_field by (intros; reflexivity);
          rewrite implementingAgencies_field, AgencyFacts.agenciesOf_agencyMatches;
          reflexivity|].
  split; [apply length_firstn|].
  split; [split; [discriminate|reflexivity]|].
  rewrite !extractor_field by (intros; reflexivity).
  rewrite !implementingAgencies_field. repeat split; vm_compute; reflexivity.
Qed.

(** *** The title *)

Lemma legislationTitle_field (host : Host) text filename title :
  titleIs host text (filenameOrDefault filename) title ->
  field legislationTitle (Server.extractFallback host text filename) = Some title.
Proof.
  intros Ht.
  destruct (summary_exists text) as [summary Hs].
  destruct (objectives_exists text) as [objectives Ho].
  rewrite (extractFallback_shape _ _ _ _ _ _ Ht Hs Ho). reflexivity.
Qed.

(** C6 (as amended). When a line of the text begins (in any capitalization,
    at the start of the text or after a newline) with AN ACT, A ACT, AN BILL,
    A BILL, AN LAW, A LAW or TITLE, followed by one or more colons and white
    space characters [sep] and then by a character [c] that is neither, and
    no earlier line begins with a keyword and a colon or white space, the
    title is the text from [c] to the end of its line, trimmed, whatever the
    file name, in either copy of the extractor. The text ["AN ACT: The Data Protection Act"] yields
    ["The Data Protection Act"] for every file name. *)
Theorem title_line_overrides_filename (copy : Copy) (host : Host) (filename : jsstring) :
  (forall (pre kw sep rest post : jsstring) (c : char),
      (pre = [] \/ exists p, pre = p ++ [LF]) ->
      TitleFacts.isTitleKeyword kw ->
      sep <> [] -> Forall (fun x => CharFacts.isSeparator x = true) sep ->
      CharFacts.isSeparator c = false ->
      Forall (fun x => x <> LF) rest ->
      (post = [] \/ exists p, post = LF :: p) ->
      TitleFacts.noKeywordLineBefore
        (pre ++ kw ++ sep ++ (c :: rest) ++ post) (length pre) = true ->
      field legislationTitle
        (extractor copy host (pre ++ kw ++ sep ++ (c :: rest) ++ post) filename)
      = Some (JSString.trim (c :: rest)))
  /\ field legislationTitle
       (extractor copy host (js "AN ACT: The Data Protection Act") filename)
     = Some (js "The Data Protection Act").
Proof.
  assert (Hgen : forall (pre kw sep rest post : jsstring) (c : char),
      (pre = [] \/ exists p, pre = p ++ [LF]) ->
      TitleFacts.isTitleKeyword kw ->
      sep <> [] -> Forall (fun x => CharFacts.isSeparator x = true) sep ->
      CharFacts.isSeparator c = false ->
      Forall (fun x => x <> LF) rest ->
      (post = [] \/ exists p, post = LF :: p) ->
      TitleFacts.noKeywordLineBefore
        (pre ++ kw ++ sep ++ (c :: rest) ++ post) (length pre) = true ->
      field legislationTitle
        (extractor copy host (pre ++ kw ++ sep ++ (c :: rest) ++ post) filename)
      = Some (JSString.trim (c :: rest))).
  { intros pre kw sep rest post c Hpre Hkw Hne Hsep Hc Hrest Hpost Hfirst.
    destruct (TitleFacts.title_match pre kw sep rest post c Hkw Hsep Hne Hc Hrest
                Hpost Hpre (TitleFacts.noKeywordLineBefore_true _ _ Hfirst))
      as (A & HA & H1).
    rewrite extractor_field by (intros; reflexivity).
    apply legislationTitle_field. unfold titleIs.
    unfold TitleFacts.titleText in HA. rewrite HA. eauto. }
  split; [exact Hgen|].
  apply (Hgen [] (js "AN ACT") (js ": ") (js "he Data Protection Act") []
           (ch "T")).
  - left; reflexivity.
  - unfold TitleFacts.isTitleKeyword. simpl. tauto.
  - discriminate.
  - apply TitleFacts.separators_forallb. reflexivity.
  - reflexivity.
  - apply TitleFacts.noLF_forallb. reflexivity.
  - left; reflexivity.
  - reflexivity.
Qed.

Definition preambleExample : jsstring := js "Republic of Examplia" ++ [LF].

(** The general part of C6 at a title line on the second line of a text. *)
Lemma title_line_overrides_filename_witness :
  field legislationTitle
    (extractor ClientCopy basicLatinHost
       (preambleExample ++ js "Title" ++ js ":  " ++ js "Clean Water Bill  "
        ++ LF :: js "Section 1")
       (js "upload-17.pdf"))
  = Some (js "Clean Water Bill").
Proof.
  apply (proj1 (title_line_overrides_filename ClientCopy basicLatinHost
                  (js "upload-17.pdf"))
           preambleExample (js "Title") (js ":  ") (js "lean Water Bill  ")
           (LF :: js "Section 1") (ch "C")).
  - right. exists (js "Republic of Examplia"). reflexivity.
  - unfold TitleFacts.isTitleKeyword. simpl. tauto.
  - discriminate.
  - apply TitleFacts.separators_forallb. reflexivity.
  - reflexivity.
  - apply TitleFacts.noLF_forallb. reflexivity.
  - right. eexists. reflexivity.
  - vm_compute. reflexivity.
Defined.

(** C6, as stated, fails for a keyword line that has nothing after the
    colon: the title stays the one read off the file name. And of two
    keyword lines the first is the title, not the second. *)
Lemma bare_title_line_does_not_override :
  (TitleFacts.keywordLineAt (js "TITLE:") 0 = true
   /\ field legislationTitle
        (Server.extractFallback basicLatinHost (js "TITLE:") (Some (js "water-act.txt")))
      = Some (js "Water Act"))
  /\ (TitleFacts.keywordLineAt (js "TITLE: A" ++ LF :: js "TITLE: B") 9 = true
      /\ field legislationTitle
           (Server.extractFallback basicLatinHost
              (js "TITLE: A" ++ LF :: js "TITLE: B") (Some (js "water-act.txt")))
         = Some (js "A")).
Proof. repeat split; vm_compute; reflexivity. Qed.


(** Each word keeps its first code unit in upper case and the rest in lower
    case. *)
Example titleFromFilename_lowers_the_tail :
  Server.titleFromFilename basicLatinHost (js "DATA_protection-ACT.PDF")
  = js "Data Protection Act".
Proof. vm_compute. reflexivity. Qed.




(** * The rest of the application

    ** app/server.js: the health check, the request to the model, the chat *)

(** [s.endsWith(suffix)] *)
Definition endsWith (s suffix : jsstring) : bool :=
  (length suffix <=? length s)
  && jsstring_eqb (skipn (length s - length suffix) s) suffix.

(** A value used as a condition: a string that is not empty. *)
Definition truthy (v : option jsstring) : bool := negb (Server.falsy v).

(** [v || d] for a property that holds a string or is [undefined]. *)
Definition orDefault (v : option jsstring) (d : jsstring) : jsstring :=
  match v with
  | Some s => orElse s d
  | None => d
  end.

Module Health.

(** The body of the answer of [GET /api/health]. *)
Record Body := mkBody {
  status : jsstring;
  aiConfigured : bool;
  timestamp : jsstring
}.

(** [app.get('/api/health', ...)] (lines 46-52); [now] is
    [new Date().toISOString()]. *)
Definition health (ANTHROPIC_API_KEY : option jsstring) (now : jsstring) : Body :=
  mkBody (js "ok") (truthy ANTHROPIC_API_KEY) now.

End Health.

Module ExtractRequest.

(** The document as the model gets it (line 90):
    [text.substring(0, 15000)] and a notice when that cut something off. *)
Definition limit : nat := 15 * 1000.

Definition content (text : jsstring) : jsstring :=
  js "Please analyze the following legislation and extract key information:"
  ++ [LF; LF] ++ js "---" ++ [LF]
  ++ JSString.substring text 0 limit
  ++ (if limit <? length text
      then [LF; LF] ++ js "[Document truncated due to length...]"
      else [])
  ++ [LF] ++ js "---" ++ [LF; LF]
  ++ js "Return the extracted information as a JSON object.".

End ExtractRequest.

Module Chat.

(** [req.body] of [POST /api/chat]: [messages] is [None] when it is absent
    or no array; the other properties hold a string or are absent. *)
Record Message (Content : Type) := mkMessage {
  role : option jsstring;
  content : Content
}.
Arguments mkMessage {Content} role content.
Arguments role {Content} _.
Arguments content {Content} _.

Record Context := mkContext {
  legislationTitle : option jsstring;
  country : option jsstring;
  legislationYear : option jsstring;
  jurisdiction : option jsstring;
  parliamentType : option jsstring
}.

Record Request (Content : Type) := mkRequest {
  messages : option (list (Message Content));
  documentText : option jsstring;
  context : option Context
}.
Arguments mkRequest {Content} messages documentText context.
Arguments messages {Content} _.
Arguments documentText {Content} _.
Arguments context {Content} _.

(** A message as the model provider gets it. *)
Record ApiMessage (Content : Type) := mkApiMessage {
  apiRole : jsstring;
  apiContent : Content
}.
Arguments mkApiMessage {Content} apiRole apiContent.
Arguments apiRole {Content} _.
Arguments apiContent {Content} _.

(** The body of the request to the model provider. *)
Record ApiRequest (Content : Type) := mkApiRequest {
  model : jsstring;
  max_tokens : nat;
  system : jsstring;
  apiMessages : list (ApiMessage Content)
}.
Arguments mkApiRequest {Content} model max_tokens system apiMessages.
Arguments system {Content} _.
Arguments apiMessages {Content} _.

(** What the call of the model provider does, as the handler sees it. *)
Inductive Upstream (Reply : Type) :=
| FetchRejects (e : exn)
| NotOk (errorBody : completion unit)
| Ok (assistantMessage : completion Reply).
    (* the outcome of [(await response.json()).content[0].text] *)
Arguments FetchRejects {Reply} e.
Arguments NotOk {Reply} errorBody.
Arguments Ok {Reply} assistantMessage.

Inductive Response (Reply : Type) :=
| BadRequest (error : jsstring)
    (* [res.status(400).json({ success: false, error })] *)
| Failure (error : jsstring)
    (* [res.json({ success: false, error })] *)
| Success (message : Reply).
    (* [res.json({ success: true, message })] *)
Arguments BadRequest {Reply} error.
Arguments Failure {Reply} error.
Arguments Success {Reply} message.

Definition documentLimit : nat := 20 * 1000.

Section Endpoint.

Variables Content Reply : Type.
(** The text of [PLSGPT_SYSTEM_PROMPT] (lines 197-250). *)
Variable PLSGPT_SYSTEM_PROMPT : jsstring.
Variable ANTHROPIC_API_KEY : option jsstring.
(** [fetch('https://api.anthropic.com/v1/messages', ...)] *)
Variable anthropic : ApiRequest Content -> Upstream Reply.

(** The document put into the system prompt (lines 275-277). *)
Definition documentBlock (documentText : option jsstring) : jsstring :=
  match documentText with
  | Some (c :: d) =>
      [LF; LF] ++ js "**CURRENT DOCUMENT UNDER ANALYSIS:**" ++ [LF]
      ++ js "```" ++ [LF]
      ++ JSString.substring (c :: d) 0 documentLimit
      ++ [LF] ++ js "```"
  | _ => []
  end.

(** The legislation put into the system prompt (lines 279-286). *)
Definition contextBlock (context : option Context) : jsstring :=
  match context with
  | Some c =>
      if truthy (legislationTitle c) then
        [LF; LF] ++ js "**USER'S CURRENT LEGISLATION CONTEXT:**" ++ [LF]
        ++ js "- Legislation: " ++ orDefault (legislationTitle c) (js "Not specified")
        ++ [LF]
        ++ js "- Country: " ++ orDefault (country c) (js "Not specified") ++ [LF]
        ++ js "- Year: " ++ orDefault (legislationYear c) (js "Not specified") ++ [LF]
        ++ js "- Jurisdiction: " ++ orDefault (jurisdiction c) (js "Not specified")
        ++ [LF]
        ++ js "- Parliament Type: " ++ orDefault (parliamentType c) (js "Not specified")
      else []
  | None => []
  end.

Definition systemContext (req : Request Content) : jsstring :=
  PLSGPT_SYSTEM_PROMPT ++ documentBlock (documentText req) ++ contextBlock (context req).

(** [messages.map(m => ({ role: m.role === 'assistant' ? 'assistant' : 'user',
    content: m.content }))] *)
Definition anthropicMessage (m : Message Content) : ApiMessage Content :=
  mkApiMessage
    (match role m with
     | Some r => if jsstring_eqb r (js "assistant") then js "assistant" else js "user"
     | None => js "user"
     end)
    (content m).

Definition anthropicMessages (messages : list (Message Content))
  : list (ApiMessage Content) :=
  map anthropicMessage messages.

Definition apiRequest (req : Request Content) (messages : list (Message Content))
  : ApiRequest Content :=
  mkApiRequest (js "claude-sonnet-4-5-20250929") 4096 (systemContext req)
    (anthropicMessages messages).

(** The [try] block. *)
Definition tryChat (req : Request Content) : completion (Response Reply) :=
  match messages req with
  | None => Normal (BadRequest (js "Messages array is required"))
  | Some ms =>
      if Server.falsy ANTHROPIC_API_KEY then
        Normal (Failure
                  (js "AI not configured. Please set ANTHROPIC_API_KEY in your .env file."))
      else
        match anthropic (apiRequest req ms) with
        | FetchRejects e => Throw e
        | NotOk errorBody =>
            _ <- errorBody ;;
            Normal (Failure (js "AI service error. Please try again."))
        | Ok assistantMessage =>
            assistantMessage <- assistantMessage ;;
            Normal (Success assistantMessage)
        end
  end.

(** [app.post('/api/chat', ...)] (lines 253-334) *)
Definition chat (req : Request Content) : Response Reply :=
  match tryChat req with
  | Normal response => response
  | Throw error => Failure (message error)
  end.

End Endpoint.

End Chat.

(** ** [POST /api/extract] on the values that a request can hold

    [express.json()] hands the handler the JSON value of each property of
    the body, and the handler calls methods of strings on them:
    [text.trim] (line 59), and in [extractFallback] [filename.replace]
    (line 140) and [text.match] (line 148). The body itself is taken to
    be an object. *)
Module RawExtract.

(** A property of [req.body]: absent, or a JSON value. Of a number only
    whether it is 0 is kept, of an array or an object nothing: neither has
    a method of a string, whatever it holds. *)
Inductive Value :=
| Absent
| Null
| Boolean (b : bool)
| Number (isZero : bool)
| String (s : jsstring)
| Composite.

Record Request := mkRequest {
  text : Value;
  filename : Value
}.

(** [!v] *)
Definition falsy (v : Value) : bool :=
  match v with
  | Absent | Null | Boolean false | Number true | String [] => true
  | _ => false
  end.

(** A file name that [extractFallback] can work with: a string, or none,
    for which the default parameter stands in. *)
Definition fileName (v : Value) : option (option jsstring) :=
  match v with
  | Absent => Some None
  | String f => Some (Some f)
  | _ => None
  end.

Section Endpoint.

Variable host : Host.
Variable AIData : Type.
Variable JSON_parse : jsstring -> completion AIData.
Variable ANTHROPIC_API_KEY : option jsstring.
(** The message of the [TypeError] of the engine for a method that the
    value does not have. *)
Variable notAFunction : jsstring.

(** [extractFallback(text, filename)] on the values of the request. *)
Definition extractFallback (text filename : Value) : completion ExtractionResult :=
  match fileName filename with
  | Some f =>
      match text with
      | String t => Server.extractFallback host t f
      | _ => Throw (TypeError notAFunction)
      end
  | None => Throw (TypeError notAFunction)
  end.

(** The [try] block (lines 56-125). *)
Definition tryExtract (req : Request) (upstream : Server.Upstream)
  : completion (Server.Response AIData) :=
  if falsy (text req) then
    Normal (Server.BadRequest (js "Document text is too short for analysis"))
  else
    match text req with
    | String t =>
        if length (JSString.trim t) <? 50 then
          Normal (Server.BadRequest (js "Document text is too short for analysis"))
        else if Server.falsy ANTHROPIC_API_KEY then
          data <- extractFallback (text req) (filename req) ;;
          Normal (Server.Json true (js "fallback") (inl data) None)
        else
          match upstream with
          | Server.FetchRejects e => Throw e
          | Server.NotOk errorBody =>
              _ <- errorBody ;;
              data <- extractFallback (text req) (filename req) ;;
              Normal (Server.Json true (js "fallback") (inl data)
                        (Some (js "AI extraction failed, used pattern matching")))
          | Server.Ok content =>
              content <- content ;;
              match JSRegExp.match_ content Server.jsonRe with
              | Some jsonMatch =>
                  extractedData <-
                    JSON_parse (match JSRegExp.elem jsonMatch 0 with
                                | Some s => s
                                | None => js "undefined"
                                end) ;;
                  Normal (Server.Json true (js "ai") (inr extractedData) None)
              | None => Throw (Error (js "Could not parse AI response as JSON"))
              end
          end
    | _ => Throw (TypeError notAFunction)
    end.

(** [app.post('/api/extract', ...)] (lines 55-135) *)
Definition extract (req : Request) (upstream : Server.Upstream)
  : Server.Response AIData :=
  match tryExtract req upstream with
  | Normal response => response
  | Throw error =>
      match extractFallback (text req) (filename req) with
      | Normal data =>
          Server.Json true (js "fallback") (inl data) (Some (message error))
      | Throw e => Server.Unhandled e
      end
  end.

End Endpoint.

End RawExtract.

(** ** app/src/services/aiService.js: the calls of the backend *)

(** What [fetch] does, as its caller sees it: it rejects, or it resolves
    with a response whose [ok] says whether the status is 2xx and whose
    [json()] yields the body or rejects. *)
Inductive Fetched (Body : Type) :=
| NetworkError (e : exn)
| Responded (ok : bool) (json : completion Body).
Arguments NetworkError {Body} e.
Arguments Responded {Body} ok json.

Module AIService.

(** The server status as the component keeps it. *)
Record ServerStatus := mkStatus {
  status : option jsstring;
  aiConfigured : bool;
  error : option jsstring;
  timestamp : option jsstring
}.

(** [export async function checkServerHealth()] (lines 9-19) *)
Definition checkServerHealth (fetched : Fetched ServerStatus) : ServerStatus :=
  match fetched with
  | NetworkError e => mkStatus (Some (js "offline")) false (Some (message e)) None
  | Responded true json =>
      match json with
      | Normal body => body
      | Throw e => mkStatus (Some (js "offline")) false (Some (message e)) None
      end
  | Responded false _ => mkStatus (Some (js "error")) false None None
  end.

(** The body of an answer of [POST /api/extract], each property present or
    absent; [success] is its truth value. *)
Record ExtractBody (AIData : Type) := mkExtractBody {
  bodyError : option jsstring;
  success : bool;
  method : option jsstring;
  data : option (ExtractionResult + AIData);
  warning : option jsstring
}.
Arguments mkExtractBody {AIData} bodyError success method data warning.
Arguments bodyError {AIData} _.
Arguments success {AIData} _.
Arguments method {AIData} _.
Arguments data {AIData} _.
Arguments warning {AIData} _.

(** The object [{ ...result.data, _method: result.method,
    _warning: result.warning }]: the properties spread from [result.data]
    and the two that are set after them. *)
Record Extraction (AIData : Type) := mkExtraction {
  spread : option (ExtractionResult + AIData);
  _method : option jsstring;
  _warning : option jsstring
}.
Arguments mkExtraction {AIData} spread _method _warning.
Arguments spread {AIData} _.
Arguments _method {AIData} _.
Arguments _warning {AIData} _.

(** [export async function extractLegislationWithAI(text, filename)]
    (lines 25-50), given what [fetch] does with the request. *)
Definition extractLegislationWithAI {AIData : Type}
  (fetched : Fetched (ExtractBody AIData)) : completion (Extraction AIData) :=
  match fetched with
  | NetworkError e => Throw e
  | Responded false json =>
      error <- json ;;
      Throw (Error (orDefault (bodyError error)
                      (js "Failed to extract legislation details")))
  | Responded true json =>
      result <- json ;;
      if negb (success result)
      then Throw (Error (orDefault (bodyError result) (js "Extraction failed")))
      else Normal (mkExtraction (data result) (method result) (warning result))
  end.

End AIService.

(** ** Express and [fetch] between the two programs

    [res.json(body)] answers with status 200 and [res.status(400).json(body)]
    with status 400; the strings of a body come out of [JSON.stringify] and
    [JSON.parse] as they went in, and a property that is [undefined] is left
    out. A handler that lets an exception escape sends no answer. *)
Module Wire.

Definition health (body : Health.Body) : Fetched AIService.ServerStatus :=
  Responded true
    (Normal (AIService.mkStatus (Some (Health.status body)) (Health.aiConfigured body)
               None (Some (Health.timestamp body)))).

Definition extract {AIData : Type} (response : Server.Response AIData)
  : option (Fetched (AIService.ExtractBody AIData)) :=
  match response with
  | Server.BadRequest error =>
      Some (Responded false
              (Normal (AIService.mkExtractBody (Some error) false None None None)))
  | Server.Json success method data warning =>
      Some (Responded true
              (Normal (AIService.mkExtractBody None success (Some method) (Some data)
                         warning)))
  | Server.Unhandled _ => None
  end.

End Wire.

(** ** app/src/services/documentParser.js *)

Module DocumentParser.

(** The [info] of the metadata of a PDF: each property a string or absent. *)
Record Metadata := mkMetadata {
  Title : option jsstring;
  Author : option jsstring;
  Subject : option jsstring;
  CreationDate : option jsstring
}.

(** A PDF as [pdfjsLib] opens it: the text items of each page (or the
    failure of [getPage] or [getTextContent]), and the outcome of
    [getMetadata()] with its [info], if it has one. *)
Record PDF := mkPDF {
  pages : list (completion (list jsstring));
  metadata : completion (option Metadata)
}.

(** A [File], and what the libraries make of it: [pdfjsLib.getDocument] of
    its bytes, [mammoth.extractRawText] of its bytes ([result.value]), and
    its [text()]. *)
Record File := mkFile {
  name : jsstring;
  size : N;
  type : jsstring;
  lastModified : Z;
  getDocument : completion PDF;
  extractRawText : completion jsstring;
  text : completion jsstring
}.

(** The loop of [extractTextFromPDF]: [fullText += pageText + '\n\n']. *)
Fixpoint pagesText (fullText : jsstring) (ps : list (completion (list jsstring)))
  : completion jsstring :=
  match ps with
  | [] => Normal fullText
  | p :: rest =>
      items <- p ;;
      pagesText (fullText ++ JSString.join (js " ") items ++ [LF; LF]) rest
  end.

(** [async function extractTextFromPDF(file)] (lines 17-33) *)
Definition extractTextFromPDF (file : File) : completion jsstring :=
  pdf <- getDocument file ;;
  fullText <- pagesText [] (pages pdf) ;;
  Normal (JSString.trim fullText).

(** [async function extractTextFromWord(file)] (lines 38-42) *)
Definition extractTextFromWord (file : File) : completion jsstring :=
  extractRawText file.

(** [async function extractTextFromTxt(file)] (lines 47-49) *)
Definition extractTextFromTxt (file : File) : completion jsstring :=
  text file.

Section Host.

Variable host : Host.

(** The [try] block of [extractTextFromDocument]. *)
Definition dispatch (file : File) (fileName : jsstring) : completion jsstring :=
  if endsWith fileName (js ".pdf") then extractTextFromPDF file
  else if endsWith fileName (js ".docx") then extractTextFromWord file
  else if endsWith fileName (js ".doc") then
    match extractTextFromWord file with
    | Normal t => Normal t
    | Throw _ =>
        Throw (Error (js "Legacy .doc format is not fully supported. Please convert to .docx or PDF."))
    end
  else if endsWith fileName (js ".txt") then extractTextFromTxt file
  else Throw (Error (js "Unsupported file type: " ++ fileName)).

(** [export async function extractTextFromDocument(file)] (lines 54-79) *)
Definition extractTextFromDocument (file : File) : completion jsstring :=
  let fileName := toLowerCase host (name file) in
  match dispatch file fileName with
  | Normal t => Normal t
  | Throw error => Throw (Error (js "Failed to extract text: " ++ message error))
  end.

(** What [getDocumentInfo] returns: [pageCount] and the four properties of
    the metadata are set for a PDF only; a property of the metadata that
    is absent or empty is [null] ([Some None]). *)
Record DocumentInfo := mkInfo {
  infoName : jsstring;
  infoSize : N;
  infoType : jsstring;
  infoLastModified : Z;
  pageCount : option nat;
  title : option (option jsstring);
  author : option (option jsstring);
  subject : option (option jsstring);
  creationDate : option (option jsstring)
}.

(** [v || null] *)
Definition orNull (v : option jsstring) : option jsstring :=
  match v with
  | Some (c :: s) => Some (c :: s)
  | _ => None
  end.

(** [export async function getDocumentInfo(file)] (lines 84-110) *)
Definition getDocumentInfo (file : File) : DocumentInfo :=
  let info :=
    mkInfo (name file) (size file) (type file) (lastModified file)
      None None None None None in
  if endsWith (toLowerCase host (name file)) (js ".pdf") then
    match getDocument file with
    | Normal pdf =>
        let counted :=
          mkInfo (name file) (size file) (type file) (lastModified file)
            (Some (length (pages pdf))) None None None None in
        match metadata pdf with
        | Normal (Some i) =>
            mkInfo (name file) (size file) (type file) (lastModified file)
              (Some (length (pages pdf)))
              (Some (orNull (Title i))) (Some (orNull (Author i)))
              (Some (orNull (Subject i))) (Some (orNull (CreationDate i)))
        | Normal None => counted
        | Throw _ => counted
        end
    | Throw _ => info
    end
  else info.

End Host.

End DocumentParser.

(** ** The component [PLSCommandCenter] *)

Module PLSCommandCenter.

(** *** The tabs of the tool (lines 211-238) *)

(** The [id]s of [toolTabs], in their order. *)
Definition toolTabs : list jsstring :=
  [js "setup"; js "stakeholders"; js "consultation"; js "monitoring";
   js "assessment"; js "export"].

(** [array.findIndex(p)]: [-1] when no element satisfies [p]. *)
Fixpoint findIndex {A : Type} (p : A -> bool) (l : list A) : Z :=
  match l with
  | [] => (-1)%Z
  | a :: rest =>
      if p a then 0%Z
      else match findIndex p rest with
           | Zneg _ => (-1)%Z
           | i => (i + 1)%Z
           end
  end.

Definition currentTabIndex (activeTab : jsstring) : Z :=
  findIndex (fun id => jsstring_eqb id activeTab) toolTabs.

Definition canGoNext (activeTab : jsstring) : bool :=
  (currentTabIndex activeTab <? Z.of_nat (length toolTabs) - 1)%Z.

Definition canGoPrev (activeTab : jsstring) : bool :=
  (currentTabIndex activeTab >? 0)%Z.

(** [toolTabs[i].id], read where [i] is an index of the array. *)
Definition tabAt (i : Z) (activeTab : jsstring) : jsstring :=
  match nth_error toolTabs (Z.to_nat i) with
  | Some id => id
  | None => activeTab
  end.

(** [activeTab] after [goToNextTab()] *)
Definition goToNextTab (activeTab : jsstring) : jsstring :=
  if canGoNext activeTab then tabAt (currentTabIndex activeTab + 1) activeTab
  else activeTab.

(** [activeTab] after [goToPrevTab()] *)
Definition goToPrevTab (activeTab : jsstring) : jsstring :=
  if canGoPrev activeTab then tabAt (currentTabIndex activeTab - 1) activeTab
  else activeTab.

(** What sets [activeTab]: the two navigation buttons, and the button of
    a tab in the row that [toolTabs.map] renders (line 2052), the [i]th
    for the [i]th tab; there is no button beyond the tabs. *)
Inductive TabEvent :=
| NextButton
| PrevButton
| TabButton (i : nat).

Definition onTabEvent (activeTab : jsstring) (e : TabEvent) : jsstring :=
  match e with
  | NextButton => goToNextTab activeTab
  | PrevButton => goToPrevTab activeTab
  | TabButton i =>
      match nth_error toolTabs i with
      | Some id => id
      | None => activeTab
      end
  end.

(** [useState('setup')] (line 125) *)
Definition initialTab : jsstring := js "setup".

(** [activeTab] after the events, from the mount of the component. *)
Definition activeTabAfter (events : list TabEvent) : jsstring :=
  fold_left onTabEvent events initialTab.

(** *** Stakeholders (lines 547-556) *)

(** The form of a stakeholder, and a stakeholder: the form with an [id]. *)
Record Draft := mkDraft {
  name : jsstring;
  type : jsstring;
  influence : jsstring;
  interest : jsstring;
  notes : jsstring
}.

Record Stakeholder := mkStakeholder {
  draft : Draft;
  id : Z
}.

Definition emptyDraft : Draft :=
  mkDraft [] [] (js "medium") (js "medium") [].

(** [addStakeholder()]; [now] is [Date.now()]. *)
Definition addStakeholder (now : Z) (stakeholders : list Stakeholder)
  (newStakeholder : Draft) : list Stakeholder * Draft :=
  match JSString.trim (name newStakeholder) with
  | [] => (stakeholders, newStakeholder)
  | _ => (stakeholders ++ [mkStakeholder newStakeholder now], emptyDraft)
  end.

(** [removeStakeholder(id)] *)
Definition removeStakeholder (i : Z) (stakeholders : list Stakeholder)
  : list Stakeholder :=
  filter (fun s => negb (Z.eqb (id s) i)) stakeholders.

(** *** The consultation (lines 558-565, 1153) *)

(** [array.includes(x)] on strings *)
Definition includes (l : list jsstring) (x : jsstring) : bool :=
  existsb (fun m => jsstring_eqb m x) l.

(** [consultation.methods] after [toggleConsultationMethod(methodId)] *)
Definition toggleConsultationMethod (methodId : jsstring) (methods : list jsstring)
  : list jsstring :=
  if includes methods methodId
  then filter (fun m => negb (jsstring_eqb m methodId)) methods
  else methods ++ [methodId].

(** The text area of the target groups and of the evidence sources: it
    shows [list.join('\n')] and keeps
    [value.split('\n').filter(g => g.trim())]. *)
Definition shown (list : list jsstring) : jsstring := JSString.join [LF] list.

Definition kept (value : jsstring) : list jsstring :=
  filter (fun g => match JSString.trim g with [] => false | _ => true end)
    (JSString.split value [LF]).

(** *** Monitoring (lines 567-583) *)

Module Monitoring.

Record Item := mkItem {
  id : Z;
  text : jsstring;
  status : jsstring
}.

Record t := mk {
  secondaryLegislation : list Item;
  implementationMilestones : list Item;
  dataIndicators : list Item;
  reviewClauses : jsstring
}.

End Monitoring.

(** The three lists that the handlers are called for. *)
Inductive ListName := SecondaryLegislation | ImplementationMilestones | DataIndicators.

(** [prev[type]] *)
Definition get (type : ListName) (m : Monitoring.t) : list Monitoring.Item :=
  match type with
  | SecondaryLegislation => Monitoring.secondaryLegislation m
  | ImplementationMilestones => Monitoring.implementationMilestones m
  | DataIndicators => Monitoring.dataIndicators m
  end.

(** [{ ...prev, [type]: items }] *)
Definition set (type : ListName) (items : list Monitoring.Item) (prev : Monitoring.t)
  : Monitoring.t :=
  match type with
  | SecondaryLegislation =>
      Monitoring.mk items (Monitoring.implementationMilestones prev)
        (Monitoring.dataIndicators prev) (Monitoring.reviewClauses prev)
  | ImplementationMilestones =>
      Monitoring.mk (Monitoring.secondaryLegislation prev) items
        (Monitoring.dataIndicators prev) (Monitoring.reviewClauses prev)
  | DataIndicators =>
      Monitoring.mk (Monitoring.secondaryLegislation prev)
        (Monitoring.implementationMilestones prev) items
        (Monitoring.reviewClauses prev)
  end.

(** [addMonitoringItem(type, value)]; [now] is [Date.now()]. *)
Definition addMonitoringItem (now : Z) (type : ListName) (value : jsstring)
  (prev : Monitoring.t) : Monitoring.t :=
  match JSString.trim value with
  | [] => prev
  | _ => set type (get type prev ++ [Monitoring.mkItem now value (js "pending")]) prev
  end.

(** [updateMonitoringStatus(type, id, status)] *)
Definition updateMonitoringStatus (type : ListName) (id : Z) (status : jsstring)
  (prev : Monitoring.t) : Monitoring.t :=
  set type
    (map (fun item =>
            if Z.eqb (Monitoring.id item) id
            then Monitoring.mkItem (Monitoring.id item) (Monitoring.text item) status
            else item)
       (get type prev))
    prev.

(** *** The upload and the extraction (lines 421-545) *)

(** The legislation the tool is about ([context]). *)
Module Context.

Record t := mk {
  country : jsstring;
  jurisdiction : jsstring;
  parliamentType : jsstring;
  legislationTitle : jsstring;
  legislationYear : jsstring;
  legislationSummary : jsstring;
  primaryObjectives : jsstring;
  implementingAgencies : jsstring
}.

End Context.

(** The state of the upload. *)
Record Upload := mkUpload {
  uploadedFile : option DocumentParser.File;
  documentText : jsstring;
  documentInfo : option DocumentParser.DocumentInfo;
  isExtracting : bool;
  extractionComplete : bool;
  extractionError : option jsstring;
  extractionStatus : jsstring;
  extractionMethod : option jsstring;
  dragActive : bool
}.

Definition setUploadedFile v (u : Upload) :=
  mkUpload v (documentText u) (documentInfo u) (isExtracting u) (extractionComplete u)
    (extractionError u) (extractionStatus u) (extractionMethod u) (dragActive u).
Definition setDocumentText v (u : Upload) :=
  mkUpload (uploadedFile u) v (documentInfo u) (isExtracting u) (extractionComplete u)
    (extractionError u) (extractionStatus u) (extractionMethod u) (dragActive u).
Definition setDocumentInfo v (u : Upload) :=
  mkUpload (uploadedFile u) (documentText u) v (isExtracting u) (extractionComplete u)
    (extractionError u) (extractionStatus u) (extractionMethod u) (dragActive u).
Definition setIsExtracting v (u : Upload) :=
  mkUpload (uploadedFile u) (documentText u) (documentInfo u) v (extractionComplete u)
    (extractionError u) (extractionStatus u) (extractionMethod u) (dragActive u).
Definition setExtractionComplete v (u : Upload) :=
  mkUpload (uploadedFile u) (documentText u) (documentInfo u) (isExtracting u) v
    (extractionError u) (extractionStatus u) (extractionMethod u) (dragActive u).
Definition setExtractionError v (u : Upload) :=
  mkUpload (uploadedFile u) (documentText u) (documentInfo u) (isExtracting u)
    (extractionComplete u) v (extractionStatus u) (extractionMethod u) (dragActive u).
Definition setExtractionStatus v (u : Upload) :=
  mkUpload (uploadedFile u) (documentText u) (documentInfo u) (isExtracting u)
    (extractionComplete u) (extractionError u) v (extractionMethod u) (dragActive u).
Definition setExtractionMethod v (u : Upload) :=
  mkUpload (uploadedFile u) (documentText u) (documentInfo u) (isExtracting u)
    (extractionComplete u) (extractionError u) (extractionStatus u) v (dragActive u).
Definition setDragActive v (u : Upload) :=
  mkUpload (uploadedFile u) (documentText u) (documentInfo u) (isExtracting u)
    (extractionComplete u) (extractionError u) (extractionStatus u)
    (extractionMethod u) v.

(** [handleDrag(e)], by [e.type] *)
Definition handleDrag (eventType : jsstring) (u : Upload) : Upload :=
  if (jsstring_eqb eventType (js "dragenter") || jsstring_eqb eventType (js "dragover"))%bool
  then setDragActive true u
  else if jsstring_eqb eventType (js "dragleave") then setDragActive false u
  else u.

Definition validTypes : list jsstring :=
  [js "application/pdf";
   js "application/vnd.openxmlformats-officedocument.wordprocessingml.document";
   js "text/plain";
   js "application/msword"].

(** The condition under which [handleFileUpload] takes the file. *)
Definition accepted (file : DocumentParser.File) : bool :=
  negb (negb (includes validTypes (DocumentParser.type file))
        && negb (endsWith (DocumentParser.name file) (js ".txt"))
        && negb (endsWith (DocumentParser.name file) (js ".pdf"))
        && negb (endsWith (DocumentParser.name file) (js ".docx"))
        && negb (endsWith (DocumentParser.name file) (js ".doc"))).

(** [handleFileUpload(file)] *)
Definition handleFileUpload (file : DocumentParser.File) (u : Upload) : Upload :=
  if accepted file then
    setDocumentInfo None
      (setDocumentText []
         (setExtractionComplete false
            (setExtractionError None (setUploadedFile (Some file) u))))
  else
    setExtractionError
      (Some (js "Please upload a PDF, Word document (.doc/.docx), or text file (.txt)"))
      u.

(** [handleDrop(e)] and [handleFileSelect(e)], by the first file of the
    event, if it has one. *)
Definition handleDrop (file : option DocumentParser.File) (u : Upload) : Upload :=
  match file with
  | Some f => handleFileUpload f (setDragActive false u)
  | None => setDragActive false u
  end.

Definition handleFileSelect (file : option DocumentParser.File) (u : Upload) : Upload :=
  match file with
  | Some f => handleFileUpload f u
  | None => u
  end.

(** [clearUpload()] *)
Definition clearUpload (u : Upload) : Upload :=
  setExtractionStatus []
    (setDocumentInfo None
       (setDocumentText []
          (setExtractionError None
             (setExtractionComplete false (setUploadedFile None u))))).

Section Extraction.

Variable host : Host.
(** The object the model returned, and its ten properties, each a string
    or absent. *)
Variable AIData : Type.
Variable properties : AIData -> ExtractionResult.
(** [fetch] of [/api/extract] with [{ text, filename }]. *)
Variable backend : jsstring -> jsstring -> Fetched (AIService.ExtractBody AIData).

(** [extractedData]: what [extractLegislationWithAI] or
    [extractLegislationFallback] returned. *)
Inductive Extracted :=
| FromBackend (x : AIService.Extraction AIData)
| FromPatterns (r : ExtractionResult).

(** [extractedData.p] for a content property [p]. *)
Definition read (p : ExtractionResult -> option jsstring) (e : Extracted)
  : option jsstring :=
  match e with
  | FromBackend x =>
      match AIService.spread x with
      | Some (inl r) => p r
      | Some (inr d) => p (properties d)
      | None => None
      end
  | FromPatterns r => p r
  end.

(** The update of [context] (lines 506-516). *)
Definition merge (e : Extracted) (prev : Context.t) : Context.t :=
  Context.mk
    (orElse (Context.country prev) (orDefault (read suggestedCountry e) []))
    (orDefault (read jurisdictionLevel e)
       (orElse (Context.jurisdiction prev) (js "national")))
    (orDefault (read parliamentType e) (Context.parliamentType prev))
    (orDefault (read legislationTitle e) (Context.legislationTitle prev))
    (orDefault (read legislationYear e) (Context.legislationYear prev))
    (orDefault (read legislationSummary e) (Context.legislationSummary prev))
    (orDefault (read primaryObjectives e) (Context.primaryObjectives prev))
    (orDefault (read implementingAgencies e) (Context.implementingAgencies prev)).

(** The update of [monitoring] (lines 519-524). *)
Definition mergeReview (e : Extracted) (prev : Monitoring.t) : Monitoring.t :=
  match read reviewClauses e with
  | Some (c :: s) =>
      Monitoring.mk (Monitoring.secondaryLegislation prev)
        (Monitoring.implementationMilestones prev) (Monitoring.dataIndicators prev)
        (c :: s)
  | _ => prev
  end.

(** The [catch] of [extractLegislationDetails]. *)
Definition failed (error : exn) (u : Upload) : Upload :=
  setExtractionStatus []
    (setExtractionError
       (Some (orElse (message error) (js "Failed to extract legislation details")))
       (setIsExtracting false u)).

Definition patterns (text filename : jsstring) : completion (Extracted * jsstring) :=
  r <- Client.extractLegislationFallback host text (Some filename) ;;
  Normal (FromPatterns r, js "fallback").

(** Step 2 of [extractLegislationDetails]: the data and the method. *)
Definition analyse (serverStatus : AIService.ServerStatus) (text filename : jsstring)
  : completion (Extracted * jsstring) :=
  match AIService.status serverStatus with
  | Some s =>
      if jsstring_eqb s (js "ok") then
        match AIService.extractLegislationWithAI (backend text filename) with
        | Normal x =>
            Normal (FromBackend x, orDefault (AIService._method x) (js "ai"))
        | Throw _ => patterns text filename
        end
      else patterns text filename
  | None => patterns text filename
  end.

(** [extractLegislationDetails()] (lines 462-536): the three pieces of
    state it writes, when it is done. *)
Definition extractLegislationDetails (serverStatus : AIService.ServerStatus)
  (u : Upload) (context : Context.t) (monitoring : Monitoring.t)
  : Upload * Context.t * Monitoring.t :=
  match uploadedFile u with
  | None => (u, context, monitoring)
  | Some file =>
      let u1 :=
        setExtractionMethod None
          (setExtractionStatus (js "Extracting text from document...")
             (setExtractionError None (setIsExtracting true u))) in
      match DocumentParser.extractTextFromDocument host file with
      | Throw error => (failed error u1, context, monitoring)
      | Normal text =>
          let u2 :=
            setDocumentInfo (Some (DocumentParser.getDocumentInfo host file))
              (setDocumentText text u1) in
          if (match text with [] => true | _ => false end
              || (length (JSString.trim text) <? 50))%bool
          then
            (failed (Error (js "Could not extract enough text from the document. Please try a different file format.")) u2,
             context, monitoring)
          else
            match analyse serverStatus text (DocumentParser.name file) with
            | Throw error => (failed error u2, context, monitoring)
            | Normal (extractedData, method) =>
                (setExtractionStatus []
                   (setExtractionComplete true
                      (setIsExtracting false
                         (setExtractionMethod (Some method) u2))),
                 merge extractedData context,
                 mergeReview extractedData monitoring)
            end
      end
  end.

End Extraction.

(** *** The chat (lines 1611-1665) *)

Module ChatState.

(** A message of the chat: [content] is a string, or [undefined] when the
    server sent none. *)
Record Message := mkMessage {
  role : jsstring;
  content : option jsstring
}.

Record t := mk {
  chatMessages : list Message;
  chatInput : jsstring;
  isChatLoading : bool;
  chatDocumentText : jsstring
}.

End ChatState.

(** The body of the request to [/api/chat]. *)
Module ChatRequest.

Record t := mk {
  messages : list ChatState.Message;
  documentText : jsstring;
  context : Context.t
}.

End ChatRequest.

(** The body of its answer, each property present or absent; [success] is
    its truth value. *)
Module ChatBody.

Record t := mk {
  success : bool;
  message : option jsstring;
  error : option jsstring
}.

End ChatBody.

(** U+26A0 WARNING SIGN and U+FE0F VARIATION SELECTOR-16. *)
Definition WARNING : jsstring := [9888%N; 65039%N].

Definition sorry : ChatState.Message :=
  ChatState.mkMessage (js "assistant")
    (Some (WARNING ++ js " Sorry, I encountered an error. Please try again.")).

Definition unable : ChatState.Message :=
  ChatState.mkMessage (js "assistant")
    (Some (WARNING
           ++ js " Unable to connect to the assistant. Please check if the server is running.")).

Section Chat.

Variable host : Host.
(** [fetch] of [/api/chat] with the body. *)
Variable fetchChat : ChatRequest.t -> Fetched ChatBody.t.
(** [n.toLocaleString()] *)
Variable toLocaleString : nat -> jsstring.

(** [sendChatMessage(message)]. The function was made in the render of
    [closure]: [chatMessages], [chatDocumentText] and [context] in its
    body are those of that render; the updates [prev => ...] are applied
    to the state [st] they find. *)
Definition sendChatMessage (closure : ChatState.t) (context : Context.t)
  (message : jsstring) (st : ChatState.t) : ChatState.t :=
  match JSString.trim message with
  | [] => st
  | _ =>
      let userMessage := ChatState.mkMessage (js "user") (Some message) in
      let answer :=
        match fetchChat
                (ChatRequest.mk (ChatState.chatMessages closure ++ [userMessage])
                   (ChatState.chatDocumentText closure) context) with
        | NetworkError _ => unable
        | Responded _ (Throw _) => unable
        | Responded _ (Normal data) =>
            if ChatBody.success data
            then ChatState.mkMessage (js "assistant") (ChatBody.message data)
            else sorry
        end in
      ChatState.mk (ChatState.chatMessages st ++ [userMessage] ++ [answer]) [] false
        (ChatState.chatDocumentText st)
  end.

(** The message that announces an upload. *)
Definition uploadMessage (file : DocumentParser.File) (text : jsstring) : jsstring :=
  js "I've uploaded a legislative document: " ++ [34%N] ++ DocumentParser.name file
  ++ [34%N] ++ js " (" ++ toLocaleString (length text)
  ++ js " characters). Please perform an X-Ray Scan of this legislation.".

(** [handleChatFileUpload(e)], by the first file of the event, if it has
    one; the state of the render is the state it starts from. *)
Definition handleChatFileUpload (file : option DocumentParser.File)
  (context : Context.t) (st : ChatState.t) : ChatState.t :=
  match file with
  | None => st
  | Some f =>
      match DocumentParser.extractTextFromDocument host f with
      | Normal text =>
          sendChatMessage st context (uploadMessage f text)
            (ChatState.mk (ChatState.chatMessages st) (ChatState.chatInput st)
               (ChatState.isChatLoading st) text)
      | Throw error =>
          ChatState.mk
            (ChatState.chatMessages st
             ++ [ChatState.mkMessage (js "assistant")
                   (Some (WARNING ++ js " Error reading the file: " ++ message error
                          ++ js ". Please try a different format (PDF, DOCX, or TXT)."))])
            (ChatState.chatInput st) (ChatState.isChatLoading st)
            (ChatState.chatDocumentText st)
      end
  end.

End Chat.

End PLSCommandCenter.

(** ** The chat between the two programs

    The body of the request as [JSON.stringify] writes it and [req.body]
    reads it: the messages are an array, each with the [role] and the
    [content] it has in the component ([content] is left out when it is
    [undefined]), and [context] has its eight properties, of which the
    handler reads five. The answer is read by [response.json()] whatever
    its status is. *)
Module ChatWire.

Import PLSCommandCenter.

Definition message (m : ChatState.Message) : Chat.Message (option jsstring) :=
  Chat.mkMessage (Some (ChatState.role m)) (ChatState.content m).

Definition context (c : Context.t) : Chat.Context :=
  Chat.mkContext (Some (Context.legislationTitle c)) (Some (Context.country c))
    (Some (Context.legislationYear c)) (Some (Context.jurisdiction c))
    (Some (Context.parliamentType c)).

Definition request (body : ChatRequest.t) : Chat.Request (option jsstring) :=
  Chat.mkRequest (Some (map message (ChatRequest.messages body)))
    (Some (ChatRequest.documentText body))
    (Some (context (ChatRequest.context body))).

Definition response (r : Chat.Response (option jsstring)) : Fetched ChatBody.t :=
  match r with
  | Chat.BadRequest error => Responded false (Normal (ChatBody.mk false None (Some error)))
  | Chat.Failure error => Responded true (Normal (ChatBody.mk false None (Some error)))
  | Chat.Success message => Responded true (Normal (ChatBody.mk true message None))
  end.

Section Server.

Variable PLSGPT_SYSTEM_PROMPT : jsstring.
Variable ANTHROPIC_API_KEY : option jsstring.
Variable anthropic : Chat.ApiRequest (option jsstring) -> Chat.Upstream (option jsstring).

(** [fetch] of [/api/chat] when this server answers it. *)
Definition fetchChat (body : ChatRequest.t) : Fetched ChatBody.t :=
  response
    (Chat.chat (option jsstring) (option jsstring) PLSGPT_SYSTEM_PROMPT
       ANTHROPIC_API_KEY anthropic (request body)).

End Server.

End ChatWire.

(** ** The state of the component when it is mounted (lines 126-193) *)
Module Initial.

Import PLSCommandCenter.

Definition context : Context.t := Context.mk [] [] [] [] [] [] [] [].

Definition monitoring : Monitoring.t := Monitoring.mk [] [] [] [].

Definition upload : Upload := mkUpload None [] None false false None [] None false.

Definition serverStatus : AIService.ServerStatus :=
  AIService.mkStatus (Some (js "checking")) false None None.

End Initial.

(** * More of what the code does

    ** The JSON object in the reply of the model (server.js, line 105) *)

Module JsonFacts.

Import RegExp JSRegExp RegExpFacts CharFacts StringFacts MatchFacts ExecFacts ScanFacts.

(** The longest prefix of [l] that ends with [d]. *)
Fixpoint upToLast (d : char) (l : jsstring) : option jsstring :=
  match l with
  | [] => None
  | c :: t =>
      match upToLast d t with
      | Some p => Some (c :: p)
      | None => if N.eqb c d then Some [c] else None
      end
  end.

(** The span of [l] from [{] at its head to the last [}] after it. *)
Definition jsonAt (l : jsstring) : option jsstring :=
  match l with
  | c :: t => if N.eqb c 123%N then option_map (cons c) (upToLast 125%N t) else None
  | [] => None
  end.

(** The span from the first [{] of a string to its last [}]. *)
Fixpoint jsonSpan (l : jsstring) : option jsstring :=
  match l with
  | [] => None
  | c :: t => if N.eqb c 123%N then jsonAt l else jsonSpan t
  end.

Lemma upToLast_prefix d : forall l p,
  upToLast d l = Some p -> p = firstn (length p) l /\ 1 <= length p <= length l.
Proof.
  induction l as [|c t IH]; intros p; simpl; [discriminate|].
  destruct (upToLast d t) as [q|] eqn:E.
  - intros H. inversion H; subst. destruct (IH q eq_refl) as [Hq Hl].
    simpl. rewrite <- Hq. split; [reflexivity|lia].
  - destruct (N.eqb c d); [|discriminate]. intros H. inversion H; subst.
    simpl. split; [reflexivity|lia].
Qed.

Lemma upToLast_none_skipn d : forall l k,
  upToLast d l = None -> upToLast d (skipn k l) = None.
Proof.
  induction l as [|c t IH]; intros k H.
  - rewrite skipn_nil. reflexivity.
  - destruct k as [|k]; [exact H|]. simpl in *.
    destruct (upToLast d t); [discriminate|]. apply IH. reflexivity.
Qed.

Lemma jsonAt_prefix l p :
  jsonAt l = Some p -> p = firstn (length p) l /\ 2 <= length p <= length l.
Proof.
  destruct l as [|c t]; simpl; [discriminate|].
  destruct (N.eqb c 123%N); [|discriminate].
  destruct (upToLast 125%N t) as [q|] eqn:E; [|discriminate].
  intros H. inversion H; subst. apply upToLast_prefix in E. destruct E as [Hq Hl].
  simpl. rewrite <- Hq. split; [reflexivity|lia].
Qed.

(** The first [{] decides: when no [}] follows it, none follows a later one. *)
Lemma jsonSpan_first : forall l,
  match jsonSpan l with
  | Some p => exists n, jsonAt (skipn n l) = Some p
                        /\ forall k, k < n -> jsonAt (skipn k l) = None
  | None => forall k, jsonAt (skipn k l) = None
  end.
Proof.
  induction l as [|c t IH].
  - simpl. intros k. rewrite skipn_nil. reflexivity.
  - cbn [jsonSpan]. destruct (N.eqb c 123%N) eqn:Ec.
    + destruct (jsonAt (c :: t)) as [p|] eqn:E.
      * exists 0. split; [exact E|]. intros k Hk. lia.
      * intros [|k]; [exact E|]. cbn [skipn].
        cbn [jsonAt] in E. rewrite Ec in E.
        destruct (upToLast 125%N t) eqn:Eu; [discriminate|].
        destruct (skipn k t) as [|c' t'] eqn:Es; [reflexivity|].
        cbn [jsonAt]. destruct (N.eqb c' 123%N); [|reflexivity].
        assert (Hs : upToLast 125%N (skipn (S k) t) = None)
          by (apply upToLast_none_skipn; exact Eu).
        replace (skipn (S k) t) with t' in Hs.
        -- rewrite Hs. reflexivity.
        -- change (S k) with (1 + k). rewrite <- skipn_skipn, Es. reflexivity.
    + assert (H0 : jsonAt (c :: t) = None) by (cbn [jsonAt]; rewrite Ec; reflexivity).
      destruct (jsonSpan t) as [p|].
      * destruct IH as (n & Hn & Hk). exists (S n). split; [exact Hn|].
        intros [|k] Hlt; [exact H0|]. apply Hk. lia.
      * intros [|k]; [exact H0|]. apply IH.
Qed.

Section Input.

Variable s : jsstring.

Abbreviation anyChar := [ClSpace; ClNotSpace].

Lemma charOK_any c : charOK false anyChar false c = true.
Proof.
  rewrite charOK_case_sensitive. unfold inCharSet. cbn [existsb inAtom xorb].
  destruct (isWhiteSpace c); reflexivity.
Qed.

(** What the greedy [[\s\S]*] does with its continuation [k] from [e] on,
    [n] code units being left: it tries the longest run first. *)
Fixpoint tryDown (k : Continuation) (caps : list (option (nat * nat))) (e n : nat)
  : MatchResult :=
  match n with
  | 0 => k (mkState e caps)
  | S n' =>
      match tryDown k caps (S e) n' with
      | Some z => Some z
      | None => k (mkState e caps)
      end
  end.

Lemma star_any_tryDown k caps : forall n fuel e,
  n < fuel -> e + n = length s ->
  RepeatMatcher fuel (CharacterSetMatcher s false anyChar false) 0 None true
    (mkState e caps) k []
  = tryDown k caps e n.
Proof.
  induction n as [|n IH]; intros fuel e Hfuel He;
    (destruct fuel as [|fuel]; [lia|]); rewrite RepeatMatcher_step; cbv zeta;
    cbn [Nat.eqb negb endIndex captures option_map pred andb].
  - assert (Hend : nth_error s e = None) by (apply nth_error_None; lia).
    change (clearCaptures [] caps) with caps.
    rewrite (CharacterSetMatcher_end s false _ _ _ _ _ Hend). reflexivity.
  - destruct (nth_error s e) as [c|] eqn:Hc;
      [|apply nth_error_None in Hc; lia].
    change (clearCaptures [] caps) with caps.
    rewrite (CharacterSetMatcher_eval s false _ _ _ _ _ c Hc), charOK_any.
    cbn [endIndex tryDown].
    replace (S e =? e) with false by (symmetry; apply Nat.eqb_neq; lia).
    rewrite (IH fuel (S e)) by lia. reflexivity.
Qed.

(** The continuation of [}] at the end of the pattern, the match having
    begun at [i]. *)
Definition close (i : nat) : Continuation :=
  fun y =>
    compile s false (RChar 125%N) y
      (fun y => Some (mkState (endIndex y)
                        (setCapture 0 (Some (i, endIndex y)) (captures y)))).

Lemma tryDown_close i : forall n e,
  e + n = length s ->
  tryDown (close i) [None] e n
  = match upToLast 125%N (skipn e s) with
    | Some p => Some (mkState (e + length p) [Some (i, e + length p)])
    | None => None
    end.
Proof.
  induction n as [|n IH]; intros e He; cbn [tryDown].
  - rewrite skipn_all2 by lia. unfold close. cbn [compile upToLast].
    rewrite (CharacterSetMatcher_end s false); [reflexivity|].
    apply nth_error_None. lia.
  - rewrite (IH (S e)) by lia. rewrite (hd_skipn s e).
    destruct (nth_error s e) as [c|] eqn:Hc;
      [|apply nth_error_None in Hc; lia].
    cbn [upToLast].
    destruct (upToLast 125%N (skipn (S e) s)) as [p|].
    + cbn [length]. replace (e + S (length p)) with (S e + length p) by lia.
      reflexivity.
    + unfold close. cbn [compile].
      rewrite (CharacterSetMatcher_eval s false _ _ _ _ _ c Hc), charOK_char.
      unfold Canonicalize. rewrite (N.eqb_sym 125%N c).
      destruct (N.eqb c 125%N); [|reflexivity].
      cbn [endIndex captures setCapture length].
      replace (e + 1) with (S e) by lia. reflexivity.
Qed.

Lemma json_matchAt i :
  i <= length s ->
  matchAt s false (source Server.jsonRe) 0 i
  = match jsonAt (skipn i s) with
    | Some p => Some (mkState (i + length p) [Some (i, i + length p)])
    | None => None
    end.
Proof.
  intros Hi. unfold matchAt. cbn [source Server.jsonRe RSeqs repeat].
  change (lit (js "{")) with (RChar 123%N). change (lit (js "}")) with (RChar 125%N).
  rewrite run_RSeq. cbn [compile]. rewrite (hd_skipn s i).
  destruct (nth_error s i) as [c|] eqn:Hc.
  - rewrite (CharacterSetMatcher_eval s false _ _ _ _ _ c Hc), charOK_char.
    unfold Canonicalize. rewrite (N.eqb_sym 123%N c). cbn [jsonAt].
    destruct (N.eqb c 123%N); [|reflexivity].
    assert (Hlt : i < length s) by (apply nth_error_Some; congruence).
    unfold star.
    change (compile s false (RQuant 0 None true (RClass false anyChar))
              (mkState (S i) [None]) ?k)
      with (RepeatMatcher (S (0 + (length s - S i)))
              (CharacterSetMatcher s false anyChar false) 0 None true
              (mkState (S i) [None]) (close i) []).
    rewrite (star_any_tryDown (close i) [None] (length s - S i)) by lia.
    rewrite (tryDown_close i (length s - S i) (S i)) by lia.
    destruct (upToLast 125%N (skipn (S i) s)) as [p|]; [|reflexivity].
    cbn [option_map length]. replace (i + S (length p)) with (S i + length p) by lia.
    reflexivity.
  - rewrite (CharacterSetMatcher_end s false _ _ _ _ _ Hc). reflexivity.
Qed.

End Input.

(** [content.match(/\{[\s\S]*\}/)]: there is a match when a [}] follows the
    first [{], and [jsonMatch[0]] is the span from that [{] to the last
    [}]. *)
Lemma match_jsonRe content :
  option_map (fun jsonMatch => elem jsonMatch 0) (match_ content Server.jsonRe)
  = option_map Some (jsonSpan content).
Proof.
  unfold match_, RegExpBuiltinExec. rewrite Nat.sub_0_r.
  assert (H := jsonSpan_first content).
  destruct (jsonSpan content) as [p|].
  - destruct H as (n & Hn & Hk).
    assert (Hp := jsonAt_prefix _ _ Hn). destruct Hp as [Hpre Hlen].
    rewrite length_skipn in Hlen.
    rewrite (scan_first content Server.jsonRe _ 0 n
               (mkState (n + length p) [Some (n, n + length p)])).
    + cbn [option_map]. unfold elem. cbn [elems captures map nth_error captureString].
      unfold JSString.substring. replace (n + length p - n) with (length p) by lia.
      rewrite <- Hpre. reflexivity.
    + lia.
    + change (ignoreCase Server.jsonRe) with false.
      change (nGroups Server.jsonRe) with 0.
      rewrite json_matchAt by lia. rewrite Hn. reflexivity.
    + intros k Hlt. change (ignoreCase Server.jsonRe) with false.
      change (nGroups Server.jsonRe) with 0.
      rewrite json_matchAt by lia. rewrite Hk by lia. reflexivity.
  - rewrite (scan_all_None content Server.jsonRe); [reflexivity|].
    intros k Hk. change (ignoreCase Server.jsonRe) with false.
    change (nGroups Server.jsonRe) with 0.
    rewrite json_matchAt by lia. rewrite H. reflexivity.
Qed.

End JsonFacts.

(** ** The endpoints of app/server.js *)

Module JsonSpanFacts.

Import JsonFacts.

Lemma upToLast_absent (d : char) : forall l : jsstring,
  Forall (fun c => c <> d) l -> upToLast d l = None.
Proof.
  induction l as [|c t IH]; intros H; [reflexivity|].
  inversion H as [|? ? Hc Ht]; subst. simpl. rewrite (IH Ht).
  destruct (N.eqb_spec c d); [contradiction|reflexivity].
Qed.

Lemma upToLast_app (d : char) (post : jsstring) : forall body : jsstring,
  Forall (fun c => c <> d) post ->
  upToLast d (body ++ d :: post) = Some (body ++ [d]).
Proof.
  intros body Hpost. induction body as [|c t IH]; simpl.
  - rewrite (upToLast_absent d post Hpost), N.eqb_refl. reflexivity.
  - rewrite IH. reflexivity.
Qed.

Lemma jsonSpan_app (post body : jsstring) : forall pre : jsstring,
  Forall (fun c : char => c <> 123%N) pre ->
  Forall (fun c : char => c <> 125%N) post ->
  jsonSpan (pre ++ 123%N :: body ++ 125%N :: post) = Some (123%N :: body ++ [125%N]).
Proof.
  intros pre Hpre Hpost. induction pre as [|c t IH].
  - cbn [app jsonSpan jsonAt]. rewrite !N.eqb_refl.
    assert (H := upToLast_app 125%N post body Hpost). unfold jsstring, char in *.
    rewrite H. reflexivity.
  - inversion Hpre as [|? ? Hc Ht]; subst. cbn [app jsonSpan].
    destruct (N.eqb_spec c 123%N); [contradiction|]. apply IH. exact Ht.
Qed.

(** What [match] finds, and which span. *)
Lemma jsonMatch_span content :
  match JSRegExp.match_ content Server.jsonRe with
  | Some jsonMatch =>
      exists span, JSRegExp.elem jsonMatch 0 = Some span
                   /\ jsonSpan content = Some span
  | None => jsonSpan content = None
  end.
Proof.
  assert (H := match_jsonRe content).
  destruct (JSRegExp.match_ content Server.jsonRe) as [m|];
    destruct (jsonSpan content) as [p|]; cbn [option_map] in H; try discriminate.
  - exists p. inversion H. auto.
  - reflexivity.
Qed.

End JsonSpanFacts.

(** X1. [content.match(/\{[\s\S]*\}/)], which picks what [JSON.parse]
    gets out of the reply of the model, takes the text from the first [{]
    to the last [}]: what stands before the first [{] (it holds none) and
    after the last [}] (it holds none) is dropped, and the braces between
    them are kept, whatever they are. *)
Theorem json_span_is_outermost (pre body post : jsstring) :
  Forall (fun c : char => c <> 123%N) pre ->
  Forall (fun c : char => c <> 125%N) post ->
  option_map (fun jsonMatch => JSRegExp.elem jsonMatch 0)
    (JSRegExp.match_ (pre ++ 123%N :: body ++ 125%N :: post) Server.jsonRe)
  = Some (Some (123%N :: body ++ [125%N])).
Proof.
  intros Hpre Hpost. rewrite JsonFacts.match_jsonRe.
  rewrite (JsonSpanFacts.jsonSpan_app post body pre Hpre Hpost). reflexivity.
Qed.

Definition fencedReply : jsstring :=
  js "Here is the JSON:" ++ [LF] ++ js "```json" ++ [LF]
  ++ js "{ 'a': { 'b': 1 }, 'c': '}' }" ++ [LF] ++ js "```" ++ [LF] ++ js "Done.".

Lemma json_span_is_outermost_witness :
  option_map (fun jsonMatch => JSRegExp.elem jsonMatch 0)
    (JSRegExp.match_ fencedReply Server.jsonRe)
  = Some (Some (js "{ 'a': { 'b': 1 }, 'c': '}' }")).
Proof.
  apply (json_span_is_outermost
           (js "Here is the JSON:" ++ [LF] ++ js "```json" ++ [LF])
           (js " 'a': { 'b': 1 }, 'c': '}' ")
           ([LF] ++ js "```" ++ [LF] ++ js "Done.")).
  - apply Forall_forall. intros c Hc Heq. subst c. vm_compute in Hc.
    repeat (destruct Hc as [Hc|Hc]; [discriminate|]). exact Hc.
  - apply Forall_forall. intros c Hc Heq. subst c. vm_compute in Hc.
    repeat (destruct Hc as [Hc|Hc]; [discriminate|]). exact Hc.
Defined.

Section ExtractEndpoint.

Variable host : Host.
Variable AIData : Type.
Variable JSON_parse : jsstring -> completion AIData.
Variable ANTHROPIC_API_KEY : option jsstring.

Abbreviation extract := (Server.extract host AIData JSON_parse ANTHROPIC_API_KEY).

(** The answers of the handler to a text that passes the validation. *)
Lemma extract_valid text filename upstream :
  50 <= length (JSString.trim text) ->
  exists r, Server.extractFallback host text filename = Normal r
    /\ extract (Server.mkRequest (Some text) filename) upstream
       = match Server.tryExtract host AIData JSON_parse ANTHROPIC_API_KEY text filename
                 upstream with
         | Normal response => response
         | Throw error => Server.Json true (js "fallback") (inl r) (Some (message error))
         end.
Proof.
  intros Hlen.
  destruct (extractFallback_normal host text filename) as (r & Hr & _).
  exists r. split; [exact Hr|].
  unfold Server.extract. cbn [Server.reqText Server.reqFilename].
  assert (Hne : Server.falsy (Some text) = false).
  { destruct text; [simpl in Hlen; lia|reflexivity]. }
  rewrite Hne. cbn [orb]. apply Nat.ltb_ge in Hlen. rewrite Hlen, Hr. reflexivity.
Qed.

Lemma extract_invalid req upstream :
  (forall text, Server.reqText req = Some text -> length (JSString.trim text) < 50) ->
  extract req upstream = Server.BadRequest (js "Document text is too short for analysis").
Proof.
  intros H. unfold Server.extract. destruct (Server.reqText req) as [text|]; [|reflexivity].
  specialize (H text eq_refl). apply Nat.ltb_lt in H. rewrite H, orb_true_r. reflexivity.
Qed.

(** X3. The handler answers with the method ["ai"] and the data [d]
    exactly when the text passes the validation, a credential is
    configured, the model provider answers with a success status and a
    reply that can be read, a [}] follows the first [{] of the reply, and
    [JSON.parse] of the span from that [{] to the last [}] yields [d]. *)
Theorem extract_ai_iff (req : Server.Request) (upstream : Server.Upstream) (d : AIData) :
  (exists success warning,
      extract req upstream = Server.Json success (js "ai") (inr d) warning)
  <-> exists text content span,
        Server.reqText req = Some text
        /\ 50 <= length (JSString.trim text)
        /\ Server.falsy ANTHROPIC_API_KEY = false
        /\ upstream = Server.Ok (Normal content)
        /\ JsonFacts.jsonSpan content = Some span
        /\ JSON_parse span = Normal d.
Proof.
  destruct req as [[text|] filename]; cbn [Server.reqText].
  2: { split; [intros (s & w & H); discriminate|].
       intros (t & _ & _ & H & _); discriminate. }
  destruct (Nat.lt_ge_cases (length (JSString.trim text)) 50) as [Hshort|Hlong].
  { rewrite extract_invalid.
    - split; [intros (s & w & H); discriminate|].
      intros (t & _ & _ & Ht & Hl & _). inversion Ht; subst. lia.
    - cbn [Server.reqText]. intros t Ht. inversion Ht; subst. exact Hshort. }
  destruct (extract_valid text filename upstream Hlong) as (r & Hr & ->).
  unfold Server.tryExtract. rewrite Hr.
  destruct (Server.falsy ANTHROPIC_API_KEY) eqn:Hkey; cbn [bind].
  { split; [intros (s & w & H); discriminate|].
    intros (t & c & sp & _ & _ & H & _); discriminate. }
  destruct upstream as [e|[[]|e]|[content|e]]; cbn [bind];
    try (split; [intros (s & w & H); discriminate
                |intros (t & c & sp & _ & _ & _ & H & _); discriminate]).
  assert (Hspan := JsonSpanFacts.jsonMatch_span content).
  destruct (JSRegExp.match_ content Server.jsonRe) as [m|].
  - destruct Hspan as (span & Hm & Hs). rewrite Hm.
    destruct (JSON_parse span) as [d'|e] eqn:Hp; cbn [bind].
    + split.
      * intros (s & w & H). inversion H; subst. exists text, content, span.
        repeat split; auto.
      * intros (t & c & sp & _ & _ & _ & Hc & Hsp & Hd). inversion Hc; subst c.
        rewrite Hs in Hsp. inversion Hsp; subst sp. rewrite Hp in Hd.
        inversion Hd; subst. eauto.
    + split; [intros (s & w & H); discriminate|].
      intros (t & c & sp & _ & _ & _ & Hc & Hsp & Hd). inversion Hc; subst c.
      rewrite Hs in Hsp. inversion Hsp; subst sp. rewrite Hp in Hd. discriminate.
  - split; [intros (s & w & H); discriminate|].
    intros (t & c & sp & _ & _ & _ & Hc & Hsp & _). inversion Hc; subst c.
    rewrite Hspan in Hsp. discriminate.
Qed.

End ExtractEndpoint.

Section RawEndpoint.

Variable host : Host.
Variable AIData : Type.
Variable JSON_parse : jsstring -> completion AIData.
Variable ANTHROPIC_API_KEY : option jsstring.
Variable notAFunction : jsstring.

Abbreviation rawExtract :=
  (RawExtract.extract host AIData JSON_parse ANTHROPIC_API_KEY notAFunction).

(** On a text that is a string and a file name that is a string or absent,
    the handler is the one of [Server.extract]. *)
Lemma rawExtract_typed t filename f upstream :
  RawExtract.fileName filename = Some f ->
  rawExtract (RawExtract.mkRequest (RawExtract.String t) filename) upstream
  = Server.extract host AIData JSON_parse ANTHROPIC_API_KEY
      (Server.mkRequest (Some t) f) upstream.
Proof.
  intros Hf. unfold RawExtract.extract, RawExtract.tryExtract, Server.extract,
    Server.tryExtract, RawExtract.extractFallback.
  cbn [RawExtract.text RawExtract.filename Server.reqText Server.reqFilename].
  rewrite Hf. destruct t as [|c t]; [reflexivity|].
  cbn [RawExtract.falsy Server.falsy orb].
  destruct (length (JSString.trim (c :: t)) <? 50); [reflexivity|].
  destruct (Server.falsy ANTHROPIC_API_KEY); [reflexivity|].
  destruct upstream as [e|[[]|e]|[content|e]]; reflexivity.
Qed.

(** With a file name that is neither, [extractFallback] throws wherever it
    is called, and the handler answers only when the model did. *)
Lemma rawExtract_untyped_filename t filename upstream :
  50 <= length (JSString.trim t) ->
  RawExtract.fileName filename = None ->
  rawExtract (RawExtract.mkRequest (RawExtract.String t) filename) upstream
  = if Server.falsy ANTHROPIC_API_KEY then Server.Unhandled (TypeError notAFunction)
    else
      match upstream with
      | Server.Ok (Normal content) =>
          match JSRegExp.match_ content Server.jsonRe with
          | Some jsonMatch =>
              match JSON_parse (match JSRegExp.elem jsonMatch 0 with
                                | Some s => s
                                | None => js "undefined"
                                end) with
              | Normal d => Server.Json true (js "ai") (inr d) None
              | Throw _ => Server.Unhandled (TypeError notAFunction)
              end
          | None => Server.Unhandled (TypeError notAFunction)
          end
      | _ => Server.Unhandled (TypeError notAFunction)
      end.
Proof.
  intros Hlen Hf. unfold RawExtract.extract, RawExtract.tryExtract,
    RawExtract.extractFallback.
  cbn [RawExtract.text RawExtract.filename]. rewrite Hf.
  assert (Hne : RawExtract.falsy (RawExtract.String t) = false).
  { destruct t; [simpl in Hlen; lia|reflexivity]. }
  rewrite Hne. apply Nat.ltb_ge in Hlen. rewrite Hlen.
  destruct (Server.falsy ANTHROPIC_API_KEY); [reflexivity|].
  destruct upstream as [e|[[]|e]|[content|e]]; try reflexivity.
  cbn [bind]. destruct (JSRegExp.match_ content Server.jsonRe); [|reflexivity].
  destruct (JSON_parse _); reflexivity.
Qed.

(** X2. The handler of [POST /api/extract] answers a request whose text is
    a string, or that has none, and whose file name is a string or absent:
    with 400 and the one validation message, or with 200 and
    [success: true], the data being what [extractFallback] returns for the
    text and the file name under the method ["fallback"], or what the
    model returned under the method ["ai"] and without a warning. It
    does not answer every request: the exception leaves the handler, and
    nothing is answered, exactly when the text is a value other than a
    string that counts as true, or when the text passes the validation,
    the file name is a value other than a string ([null] included) and
    the AI path fails. *)
Theorem extract_answers_or_escapes (req : RawExtract.Request)
  (upstream : Server.Upstream) :
  match rawExtract req upstream with
  | Server.BadRequest error => error = js "Document text is too short for analysis"
  | Server.Json success method data warning =>
      success = true
      /\ match data with
         | inl r =>
             method = js "fallback"
             /\ exists t f,
                  RawExtract.text req = RawExtract.String t
                  /\ RawExtract.fileName (RawExtract.filename req) = Some f
                  /\ Server.extractFallback host t f = Normal r
         | inr _ => method = js "ai" /\ warning = None
         end
  | Server.Unhandled _ => True
  end
  /\ ((exists e, rawExtract req upstream = Server.Unhandled e)
      <-> (RawExtract.falsy (RawExtract.text req) = false
           /\ forall t, RawExtract.text req <> RawExtract.String t)
          \/ (exists t,
                RawExtract.text req = RawExtract.String t
                /\ 50 <= length (JSString.trim t)
                /\ RawExtract.fileName (RawExtract.filename req) = None
                /\ aiPathFails AIData JSON_parse ANTHROPIC_API_KEY upstream)).
Proof.
  destruct req as [text filename]. cbn [RawExtract.text RawExtract.filename].
  assert (Hcase :
    (RawExtract.falsy text = true
     \/ exists t, text = RawExtract.String t /\ length (JSString.trim t) < 50)
    \/ (RawExtract.falsy text = false /\ forall t, text <> RawExtract.String t)
    \/ (exists t, text = RawExtract.String t /\ 50 <= length (JSString.trim t))).
  { destruct (RawExtract.falsy text) eqn:Hfalsy; [auto|].
    destruct text as [| |b|z|t|];
      try (right; left; split; [reflexivity|intros t'; discriminate]).
    destruct (Nat.lt_ge_cases (length (JSString.trim t)) 50); eauto 6. }
  destruct Hcase as [Hwhy|[[Hfalsy Hns]|(t & -> & Hlong)]].
  - assert (H : rawExtract (RawExtract.mkRequest text filename) upstream
                = Server.BadRequest (js "Document text is too short for analysis")).
    { unfold RawExtract.extract, RawExtract.tryExtract. cbn [RawExtract.text].
      destruct Hwhy as [->|(t & -> & Hshort)]; [reflexivity|].
      apply Nat.ltb_lt in Hshort. rewrite Hshort.
      destruct (RawExtract.falsy _); reflexivity. }
    rewrite H. split; [reflexivity|]. split; [intros [e He]; discriminate|].
    intros [[Hf Hn]|(t & Ht & Hl & _)]; exfalso.
    + destruct Hwhy as [Hw|(t' & Ht' & _)]; [congruence|]. apply (Hn t'). exact Ht'.
    + destruct Hwhy as [Hw|(t' & Ht' & Hs)].
      * subst text. destruct t; [simpl in Hl; lia|discriminate].
      * rewrite Ht in Ht'. inversion Ht'; subst. lia.
  - assert (H : rawExtract (RawExtract.mkRequest text filename) upstream
                = Server.Unhandled (TypeError notAFunction)).
    { unfold RawExtract.extract, RawExtract.tryExtract, RawExtract.extractFallback.
      cbn [RawExtract.text RawExtract.filename]. rewrite Hfalsy.
      destruct text; try discriminate;
        try (destruct (RawExtract.fileName filename); reflexivity).
      exfalso. apply (Hns s). reflexivity. }
    rewrite H. split; [exact I|]. split; [|eauto].
    intros _. left. split; [exact Hfalsy|exact Hns].
  - destruct (RawExtract.fileName filename) as [f|] eqn:Hname.
    + rewrite (rawExtract_typed t filename f upstream Hname).
      destruct (extract_valid host AIData JSON_parse ANTHROPIC_API_KEY t f upstream
                  Hlong) as (r & Hr & ->).
      unfold Server.tryExtract. rewrite Hr.
      assert (Hnever : ~ ((RawExtract.falsy (RawExtract.String t) = false
                           /\ forall t', RawExtract.String t <> RawExtract.String t')
                          \/ (exists t',
                                RawExtract.String t = RawExtract.String t'
                                /\ 50 <= length (JSString.trim t')
                                /\ Some f = None
                                /\ aiPathFails AIData JSON_parse ANTHROPIC_API_KEY
                                     upstream))).
      { intros [[_ H]|(t' & _ & _ & H & _)]; [apply (H t); reflexivity|discriminate]. }
      destruct (Server.falsy ANTHROPIC_API_KEY); cbn [bind].
      { split; [eauto 10|]. split; [intros [e H]; discriminate|tauto]. }
      destruct upstream as [e|[[]|e]|[content|e]]; cbn [bind];
        try (split; [eauto 10|]; split; [intros [e' H]; discriminate|tauto]).
      destruct (JSRegExp.match_ content Server.jsonRe) as [m|];
        [|split; [eauto 10|]; split; [intros [e' H]; discriminate|tauto]].
      destruct (JSON_parse _); cbn [bind];
        (split; [eauto 10|]; split; [intros [e' H]; discriminate|tauto]).
    + rewrite (rawExtract_untyped_filename t filename upstream Hlong Hname).
      assert (Hyes : aiPathFails AIData JSON_parse ANTHROPIC_API_KEY upstream ->
                 (RawExtract.falsy (RawExtract.String t) = false
                  /\ forall t', RawExtract.String t <> RawExtract.String t')
                 \/ (exists t',
                       RawExtract.String t = RawExtract.String t'
                       /\ 50 <= length (JSString.trim t')
                       /\ @None (option jsstring) = None
                       /\ aiPathFails AIData JSON_parse ANTHROPIC_API_KEY upstream)).
      { intros Hfail. right. exists t. auto. }
      unfold aiPathFails in *.
      destruct (Server.falsy ANTHROPIC_API_KEY) eqn:Hkey.
      { split; [exact I|]. split; [intros _; apply Hyes; left; reflexivity|eauto]. }
      destruct upstream as [e|[[]|e]|[content|e]];
        try (split; [exact I|];
             split; [intros _; apply Hyes; right; exact I|eauto]).
      destruct (JSRegExp.match_ content Server.jsonRe) as [m|] eqn:Hm.
      2: { split; [exact I|].
           split; [intros _; apply Hyes; right; exact I|eauto]. }
      destruct (JSON_parse _) as [d|e] eqn:Hp.
      * split; [split; [reflexivity|split; reflexivity]|].
        split; [intros [e H]; discriminate|].
        intros [[_ H]|(t' & _ & _ & _ & [H|H])].
        -- exfalso. apply (H t). reflexivity.
        -- discriminate.
        -- destruct H as [e H]. discriminate.
      * split; [exact I|].
        split; [intros _; apply Hyes; right; eauto|eauto].
Qed.

End RawEndpoint.

(** A request with [filename: null] and no credential on the server: the
    handler throws in the [try] and again in the [catch]. *)
Example extract_null_filename :
  RawExtract.extract basicLatinHost unit (fun _ => Throw (SyntaxError [])) None
    (js "filename.replace is not a function")
    (RawExtract.mkRequest (RawExtract.String sampleText) RawExtract.Null)
    (Server.FetchRejects (TypeError (js "fetch failed")))
  = Server.Unhandled (TypeError (js "filename.replace is not a function")).
Proof. vm_compute. reflexivity. Qed.


(** X4. The document in the request to the model is cut at 15000 code
    units: the message is at most 15170 code units long whatever the
    document, a document of at most 15000 code units stands in it whole
    between the two rules, and a longer one is followed by the notice. *)
Theorem extract_request_is_bounded (text : jsstring) :
  length (ExtractRequest.content text) <= ExtractRequest.limit + 170
  /\ (length text <= ExtractRequest.limit ->
      ExtractRequest.content text
      = js "Please analyze the following legislation and extract key information:"
        ++ [LF; LF] ++ js "---" ++ [LF] ++ text ++ [LF] ++ js "---" ++ [LF; LF]
        ++ js "Return the extracted information as a JSON object.")
  /\ (ExtractRequest.limit < length text ->
      ExtractRequest.content text
      = js "Please analyze the following legislation and extract key information:"
        ++ [LF; LF] ++ js "---" ++ [LF] ++ firstn ExtractRequest.limit text
        ++ [LF; LF] ++ js "[Document truncated due to length...]"
        ++ [LF] ++ js "---" ++ [LF; LF]
        ++ js "Return the extracted information as a JSON object.").
Proof.
  unfold ExtractRequest.content, JSString.substring. rewrite Nat.sub_0_r. cbn [skipn].
  split; [|split].
  - rewrite !length_app, length_firstn.
    destruct (ExtractRequest.limit <? length text); cbn [length app]; simpl length; lia.
  - intros H. apply Nat.ltb_ge in H. rewrite H, app_nil_l.
    apply Nat.ltb_ge in H. rewrite firstn_all2 by exact H. reflexivity.
  - intros H. apply Nat.ltb_lt in H. rewrite H. reflexivity.
Qed.

Section ChatEndpoint.

Variables Content Reply : Type.
Variable PLSGPT_SYSTEM_PROMPT : jsstring.
Variable ANTHROPIC_API_KEY : option jsstring.
Variable anthropic : Chat.ApiRequest Content -> Chat.Upstream Reply.

Abbreviation chat :=
  (Chat.chat Content Reply PLSGPT_SYSTEM_PROMPT ANTHROPIC_API_KEY anthropic).

(** X5. [POST /api/chat] answers 400 exactly when the request has no
    array of messages, with or without a credential; every other answer,
    a failure included, has status 200. *)
Theorem chat_rejects_iff_no_messages (req : Chat.Request Content) :
  (exists error, chat req = Chat.BadRequest error) <-> Chat.messages req = None.
Proof.
  unfold Chat.chat, Chat.tryChat. destruct (Chat.messages req) as [ms|].
  - split; [|discriminate]. intros [error H]. exfalso.
    destruct (Server.falsy ANTHROPIC_API_KEY); [discriminate|].
    destruct (anthropic _) as [e|[[]|e]|[m|e]]; discriminate.
  - split; eauto.
Qed.

(** X6. [POST /api/chat] answers with [success: true] and the message [m]
    exactly when the request has an array of messages, a credential is
    configured, and the model provider answers the request built from it
    with a success status and the reply [m]. *)
Theorem chat_success_iff (req : Chat.Request Content) (m : Reply) :
  chat req = Chat.Success m
  <-> exists ms,
        Chat.messages req = Some ms
        /\ Server.falsy ANTHROPIC_API_KEY = false
        /\ anthropic (Chat.apiRequest Content PLSGPT_SYSTEM_PROMPT req ms)
           = Chat.Ok (Normal m).
Proof.
  unfold Chat.chat, Chat.tryChat. destruct (Chat.messages req) as [ms|].
  - destruct (Server.falsy ANTHROPIC_API_KEY).
    + split; [discriminate|]. intros (ms' & _ & H & _). discriminate.
    + destruct (anthropic _) as [e|[[]|e]|[m'|e]] eqn:E; cbn [bind];
        (split; [intros H; inversion H; subst; eauto
                |intros (ms' & Hms & _ & H); inversion Hms; subst ms';
                 rewrite E in H; inversion H; reflexivity]).
  - split; [discriminate|]. intros (ms' & H & _). discriminate.
Qed.

(** X7. The messages go to the model in their order and with their
    contents; each has the role ["assistant"] or ["user"], and
    ["assistant"] only where the request said ["assistant"]: a message
    sent with another role, ["system"] included, goes out as a message of
    the user. *)
Theorem chat_roles_are_normalized (ms : list (Chat.Message Content)) :
  Forall2
    (fun m out =>
       Chat.apiContent out = Chat.content m
       /\ (Chat.apiRole out = js "assistant" \/ Chat.apiRole out = js "user")
       /\ (Chat.apiRole out = js "assistant" <-> Chat.role m = Some (js "assistant")))
    ms (Chat.anthropicMessages Content ms).
Proof.
  induction ms as [|m ms IH]; [constructor|].
  cbn [Chat.anthropicMessages map]. constructor; [|exact IH].
  unfold Chat.anthropicMessage. cbn [Chat.apiContent Chat.apiRole].
  split; [reflexivity|].
  destruct (Chat.role m) as [r|].
  - destruct (jsstring_eqb r (js "assistant")) eqn:E.
    + apply SetFacts.jsstring_eqb_eq in E. subst r. split; [left; reflexivity|].
      split; reflexivity.
    + split; [right; reflexivity|]. split; [discriminate|].
      intros H. inversion H; subst. discriminate.
  - split; [right; reflexivity|]. split; discriminate.
Qed.

(** X8. The system prompt of a chat begins with the fixed prompt, and of
    the document only the first 20000 code units reach the model: the
    request to the model is the same as for the document cut there. *)
Theorem chat_document_is_cut (req : Chat.Request Content) (document : jsstring) :
  let with_ d := Chat.mkRequest (Chat.messages req) (Some d) (Chat.context req) in
  (exists rest,
      Chat.systemContext Content PLSGPT_SYSTEM_PROMPT (with_ document)
      = PLSGPT_SYSTEM_PROMPT ++ rest)
  /\ Chat.systemContext Content PLSGPT_SYSTEM_PROMPT (with_ document)
     = Chat.systemContext Content PLSGPT_SYSTEM_PROMPT
         (with_ (firstn Chat.documentLimit document)).
Proof.
  intros with_. split; [eexists; reflexivity|].
  unfold Chat.systemContext, with_.
  cbn [Chat.documentText Chat.context]. do 2 f_equal.
  unfold Chat.documentBlock, JSString.substring. rewrite !Nat.sub_0_r. cbn [skipn].
  destruct document as [|c d]; [reflexivity|].
  assert (HL : Chat.documentLimit = S (pred Chat.documentLimit)).
  { symmetry. apply Nat.succ_pred. unfold Chat.documentLimit. lia. }
  set (L := Chat.documentLimit) in *. clearbody L. rewrite HL.
  cbn [firstn]. rewrite firstn_firstn, Nat.min_id. reflexivity.
Qed.

End ChatEndpoint.


(** ** What every result of the pattern extractor looks like *)

Module ShapeFacts.

Import RegExp JSRegExp RegExpFacts ExecFacts ExtractFacts SummaryFacts.

(** No white space other than single spaces between other code units, and
    none at the head when [afterSpace]. *)
Fixpoint spaced (afterSpace : bool) (l : jsstring) : bool :=
  match l with
  | [] => true
  | c :: t =>
      if isWhiteSpace c
      then (N.eqb c 32 && negb afterSpace && spaced true t)%bool
      else spaced false t
  end.

Lemma spaced_collapse : forall l b, spaced b (collapse b l) = true.
Proof.
  induction l as [|c t IH]; intros b; [reflexivity|]. cbn [collapse].
  destruct (isWhiteSpace c) eqn:E.
  - destruct b; [apply IH|]. cbn [spaced]. rewrite (IH true). reflexivity.
  - cbn [spaced]. rewrite E. apply IH.
Qed.

Lemma spaced_weaken l : spaced true l = true -> spaced false l = true.
Proof.
  destruct l as [|c t]; [reflexivity|]. cbn [spaced].
  destruct (isWhiteSpace c); [|auto]. rewrite andb_false_r. discriminate.
Qed.

Lemma spaced_firstn : forall n l b, spaced b l = true -> spaced b (firstn n l) = true.
Proof.
  induction n as [|n IH]; intros [|c t] b H; try reflexivity.
  cbn [firstn spaced] in *. destruct (isWhiteSpace c); [|apply IH; exact H].
  apply andb_true_iff in H. destruct H as [H1 H2]. rewrite H1. apply IH. exact H2.
Qed.

Lemma spaced_trimStart : forall l b,
  spaced b l = true -> spaced true (JSString.trimStart l) = true.
Proof.
  induction l as [|c t IH]; intros b H; [reflexivity|].
  cbn [JSString.trimStart]. cbn [spaced] in H. destruct (isWhiteSpace c) eqn:E.
  - apply andb_true_iff in H. destruct H as [_ H]. apply (IH true H).
  - cbn [spaced]. rewrite E. exact H.
Qed.

Lemma trimStart_skipn : forall l, exists k, JSString.trimStart l = skipn k l.
Proof.
  induction l as [|c t IH]; [exists 0; reflexivity|]. cbn [JSString.trimStart].
  destruct (isWhiteSpace c); [|exists 0; reflexivity].
  destruct IH as [k Hk]. exists (S k). exact Hk.
Qed.

Lemma trimEnd_firstn l : exists k, JSString.trimEnd l = firstn k l.
Proof.
  unfold JSString.trimEnd. destruct (trimStart_skipn (rev l)) as [k Hk].
  rewrite Hk, skipn_rev, rev_involutive. eauto.
Qed.

Lemma spaced_trim l b : spaced b l = true -> spaced true (JSString.trim l) = true.
Proof.
  intros H. unfold JSString.trim.
  destruct (trimEnd_firstn (JSString.trimStart l)) as [k ->].
  apply spaced_firstn. apply (spaced_trimStart l b H).
Qed.

Lemma trimStart_head l c t :
  JSString.trimStart l = c :: t -> isWhiteSpace c = false.
Proof.
  induction l as [|a l IH]; cbn [JSString.trimStart]; [discriminate|].
  destruct (isWhiteSpace a) eqn:E; [exact IH|]. intros H. inversion H; subst. exact E.
Qed.

Lemma trim_head l c t : JSString.trim l = c :: t -> isWhiteSpace c = false.
Proof.
  unfold JSString.trim. destruct (trimEnd_firstn (JSString.trimStart l)) as [k ->].
  destruct (JSString.trimStart l) as [|a l'] eqn:E.
  - rewrite firstn_nil. discriminate.
  - destruct k; [discriminate|]. cbn [firstn]. intros H. inversion H; subst.
    apply (trimStart_head l c l' E).
Qed.

Lemma spaced_collapse_trim l :
  spaced true (collapse false (JSString.trim l)) = true.
Proof.
  destruct (JSString.trim l) as [|c t] eqn:E; [reflexivity|].
  apply trim_head in E. cbn [collapse spaced]. rewrite E. cbn [spaced]. rewrite E.
  apply spaced_collapse.
Qed.

Lemma length_collapse : forall l b, length (collapse b l) <= length l.
Proof.
  induction l as [|c t IH]; intros b; [reflexivity|]. cbn [collapse].
  destruct (isWhiteSpace c); [destruct b|]; cbn [length];
    [specialize (IH true)|specialize (IH true)|specialize (IH false)]; lia.
Qed.

Lemma length_trim l : length (JSString.trim l) <= length l.
Proof.
  unfold JSString.trim. destruct (trimEnd_firstn (JSString.trimStart l)) as [k ->].
  destruct (trimStart_skipn l) as [j ->].
  rewrite length_firstn, length_skipn. lia.
Qed.

Lemma length_firstParagraph : forall l, length (firstParagraph l) <= length l.
Proof.
  induction l as [|c t IH]; [reflexivity|]. cbn [firstParagraph].
  destruct (startsBlankLine (c :: t)); cbn [length]; lia.
Qed.

Lemma spaced_In : forall l b c,
  spaced b l = true -> In c l -> isWhiteSpace c = true -> c = 32%N.
Proof.
  induction l as [|a l IH]; intros b c H Hin Hc; [destruct Hin|].
  cbn [spaced] in H. destruct Hin as [->|Hin].
  - rewrite Hc in H. apply andb_true_iff in H. destruct H as [H _].
    apply andb_true_iff in H. destruct H as [H _]. apply N.eqb_eq. exact H.
  - destruct (isWhiteSpace a); [|apply (IH false c H Hin Hc)].
    apply andb_true_iff in H. destruct H as [_ H]. apply (IH true c H Hin Hc).
Qed.

Lemma spaced_apart : forall l b i c d,
  spaced b l = true -> nth_error l i = Some c -> nth_error l (S i) = Some d ->
  isWhiteSpace c = true -> isWhiteSpace d = false.
Proof.
  induction l as [|a l IH]; intros b i c d H Hi Hsi Hc; [destruct i; discriminate|].
  cbn [spaced] in H. destruct i as [|i].
  - cbn [nth_error] in Hi, Hsi. inversion Hi; subst a. rewrite Hc in H.
    apply andb_true_iff in H. destruct H as [_ H].
    destruct l as [|d' l]; [discriminate|]. cbn [nth_error] in Hsi.
    inversion Hsi; subst d'. cbn [spaced] in H.
    destruct (isWhiteSpace d); [|reflexivity].
    rewrite andb_false_r in H. discriminate.
  - cbn [nth_error] in Hi. change (nth_error (a :: l) (S (S i))) with (nth_error l (S i)) in Hsi.
    destruct (isWhiteSpace a).
    + apply andb_true_iff in H. destruct H as [_ H]. apply (IH true i c d H Hi Hsi Hc).
    + apply (IH false i c d H Hi Hsi Hc).
Qed.

Lemma collapse_last : forall y b c,
  isWhiteSpace c = false -> collapse b (y ++ [c]) = collapse b y ++ [c].
Proof.
  induction y as [|a y IH]; intros b c Hc; cbn [app collapse].
  - rewrite Hc. reflexivity.
  - destruct (isWhiteSpace a); [destruct b|]; rewrite IH by exact Hc; reflexivity.
Qed.

(** A summary ends in white space only where [substring(0, 300)] cut it. *)
Lemma summaryIs_end text summary :
  summaryIs text summary ->
  forall t c, summary = t ++ [c] -> isWhiteSpace c = true ->
  match_ text Server.summaryRe <> None /\ length summary = 300.
Proof.
  unfold summaryIs. destruct (match_ text Server.summaryRe) as [m|].
  - intros (t0 & _ & ->) t c Hs Hc. split; [discriminate|].
    rewrite replace_spaces in *. unfold collapseWhitespace in *.
    unfold JSString.substring in *. rewrite Nat.sub_0_r in *. cbn [skipn] in *.
    set (x := collapse false (JSString.trim t0)) in *.
    destruct (Nat.le_gt_cases (length x) 300) as [Hle|Hgt];
      [|rewrite length_firstn; lia].
    exfalso. rewrite firstn_all2 in Hs by exact Hle.
    destruct (TrimSpec.trim_stripped t0) as (pre & post & _ & _ & _ & _ & Hlast).
    destruct (JSString.trim t0) as [|a e] using rev_ind.
    + subst x. destruct t; discriminate.
    + specialize (Hlast e a eq_refl). subst x.
      rewrite (collapse_last e false a Hlast) in Hs.
      apply app_inj_tail in Hs. destruct Hs as [_ <-]. congruence.
  - intros (fp & _ & ->) t c Hs Hc. exfalso.
    destruct (TrimSpec.trim_stripped (replace fp Server.spacesRe (js " ")))
      as (pre & post & _ & _ & _ & _ & Hlast).
    rewrite (Hlast t c Hs) in Hc. discriminate.
Qed.

(** The summary before the fixed sentence stands in for an empty one. *)
Lemma summaryIs_shape text summary :
  summaryIs text summary ->
  length summary <= 500 /\ spaced true summary = true
  /\ (match_ text Server.summaryRe <> None -> length summary <= 300).
Proof.
  unfold summaryIs. destruct (match_ text Server.summaryRe) as [m|].
  - intros (t & _ & ->). rewrite replace_spaces. unfold collapseWhitespace.
    unfold JSString.substring. rewrite Nat.sub_0_r. cbn [skipn].
    assert (Hl : length (firstn 300 (collapse false (JSString.trim t))) <= 300)
      by (rewrite length_firstn; lia).
    split; [lia|]. split; [|intros _; exact Hl].
    apply spaced_firstn. apply spaced_collapse_trim.
  - intros (fp & Hfp & ->). rewrite split_firstParagraph in Hfp.
    injection Hfp as <-. rewrite replace_spaces. unfold collapseWhitespace.
    split; [|split; [|intros H; congruence]].
    + eapply Nat.le_trans; [apply length_trim|].
      eapply Nat.le_trans; [apply length_collapse|].
      eapply Nat.le_trans; [apply length_firstParagraph|].
      unfold JSString.substring. rewrite length_firstn. lia.
    + apply (spaced_trim _ false). apply spaced_collapse.
Qed.

End ShapeFacts.

(** A summary section of 299 letters, a space and one more letter. *)
Definition cutExample : jsstring :=
  js "summary:" ++ repeat 97%N 299 ++ js " b" ++ [LF; LF].

Lemma cutExample_summary (host : Host) (filename : jsstring) :
  field legislationSummary (Server.extractFallback host cutExample (Some filename))
  = Some (repeat 97%N 299 ++ [32%N]).
Proof.
  destruct (ExtractFacts.title_exists host cutExample filename) as [title' Ht'].
  destruct (ExtractFacts.summary_exists cutExample) as [summary' Hs'].
  destruct (ExtractFacts.objectives_exists cutExample) as [objectives' Ho'].
  rewrite (ExtractFacts.extractFallback_shape _ _ (Some filename) _ _ _ Ht' Hs' Ho').
  cbn [field legislationSummary]. f_equal. clear -Hs'.
  unfold ExtractFacts.summaryIs in Hs'.
  assert (E : exists m, JSRegExp.match_ cutExample Server.summaryRe = Some m
                        /\ JSRegExp.elem m 1 = Some (repeat 97%N 299 ++ js " b")).
  { eexists. split; vm_compute; reflexivity. }
  destruct E as (m & Em & E1). rewrite Em in Hs'.
  destruct Hs' as (t & Ht & ->). rewrite E1 in Ht. inversion Ht; subst t.
  vm_compute. reflexivity.
Qed.

(** X9. In either copy of the extractor and for every text, the summary is
    never empty and at most 500 code units long (at most 300 when the
    summary pattern matched). The only white space in it is the space
    U+0020, never two in a row and never at its beginning. It ends in a
    space only where the summary pattern matched and [substring(0, 300)]
    cut the section after a space: the summary is then exactly 300 code
    units long, as for a section of 299 letters, a space and a letter. *)
Theorem summary_is_short_and_single_spaced (copy : Copy) (host : Host)
  (text filename : jsstring) :
  exists summary,
    field legislationSummary (extractor copy host text filename) = Some summary
    /\ summary <> []
    /\ length summary <= 500
    /\ (JSRegExp.match_ text Server.summaryRe <> None -> length summary <= 300)
    /\ (forall c, In c summary -> isWhiteSpace c = true -> c = 32%N)
    /\ (forall i c d,
          nth_error summary i = Some c -> nth_error summary (S i) = Some d ->
          isWhiteSpace c = true -> isWhiteSpace d = false)
    /\ (forall c t, summary = c :: t -> isWhiteSpace c = false)
    /\ (forall t c, summary = t ++ [c] -> isWhiteSpace c = true ->
          JSRegExp.match_ text Server.summaryRe <> None /\ length summary = 300)
    /\ field legislationSummary (extractor copy host cutExample filename)
       = Some (repeat 97%N 299 ++ [32%N]).
Proof.
  rewrite !extractor_field by (intros; reflexivity).
  destruct (ExtractFacts.title_exists host text filename) as [title Ht].
  destruct (ExtractFacts.summary_exists text) as [summary Hs].
  destruct (ExtractFacts.objectives_exists text) as [objectives Ho].
  rewrite (ExtractFacts.extractFallback_shape _ _ (Some filename) _ _ _ Ht Hs Ho).
  cbn [field legislationSummary].
  destruct (ShapeFacts.summaryIs_shape text summary Hs) as (Hlen & Hsp & Hm).
  assert (Hend := ShapeFacts.summaryIs_end text summary Hs).
  exists (orElse summary defaultSummary). split; [reflexivity|].
  assert (Hdefault : summary = [] ->
            (forall c, In c defaultSummary -> isWhiteSpace c = true -> c = 32%N)
            /\ (forall i c d,
                  nth_error defaultSummary i = Some c ->
                  nth_error defaultSummary (S i) = Some d ->
                  isWhiteSpace c = true -> isWhiteSpace d = false)
            /\ (forall t c, defaultSummary = t ++ [c] -> isWhiteSpace c = true -> False)).
  { intros _.
    assert (Hd : ShapeFacts.spaced true defaultSummary = true) by (vm_compute; reflexivity).
    split; [intros c; apply (ShapeFacts.spaced_In _ _ c Hd)|].
    split; [intros i c d; apply (ShapeFacts.spaced_apart _ _ i c d Hd)|].
    intros t c Hd' Hc.
    assert (Hl : last defaultSummary 0%N = c) by (rewrite Hd'; apply last_last).
    vm_compute in Hl. subst c. vm_compute in Hc. discriminate. }
  destruct summary as [|c s]; cbn [orElse].
  - destruct (Hdefault eq_refl) as (H1 & H2 & H3).
    split; [discriminate|]. split; [vm_compute; lia|].
    split; [intros _; vm_compute; lia|]. split; [exact H1|]. split; [exact H2|].
    split; [intros c t H; inversion H; reflexivity|].
    split; [intros t c H Hc; destruct (H3 t c H Hc)|apply cutExample_summary].
  - split; [discriminate|]. split; [exact Hlen|]. split; [exact Hm|].
    split; [intros x; apply (ShapeFacts.spaced_In _ _ x Hsp)|].
    split; [intros i x d; apply (ShapeFacts.spaced_apart _ _ i x d Hsp)|].
    split.
    { intros x t H. inversion H; subst x t. cbn [ShapeFacts.spaced] in Hsp.
      destruct (isWhiteSpace c); [|reflexivity].
      rewrite andb_false_r in Hsp. discriminate Hsp. }
    split; [exact Hend|apply cutExample_summary].
Qed.

(** The properties that the extractor does not read off the text. *)
Lemma extractor_fixed (copy : Copy) (host : Host) (text filename : jsstring) :
  let r := extractor copy host text filename in
  (exists objectives agencies,
      field primaryObjectives r = Some objectives /\ objectives <> []
      /\ field implementingAgencies r = Some agencies /\ agencies <> [])
  /\ field jurisdictionLevel r = Some (js "national")
  /\ field suggestedCountry r = Some []
  /\ field parliamentType r = Some []
  /\ field keyProvisions r = Some []
  /\ field reviewClauses r = Some [].
Proof.
  intros r. subst r. rewrite !extractor_field by (intros; reflexivity).
  destruct (ExtractFacts.title_exists host text filename) as [title Ht].
  destruct (ExtractFacts.summary_exists text) as [summary Hs].
  destruct (ExtractFacts.objectives_exists text) as [objectives Ho].
  rewrite (ExtractFacts.extractFallback_shape _ _ (Some filename) _ _ _ Ht Hs Ho).
  cbn [field primaryObjectives implementingAgencies jurisdictionLevel suggestedCountry
         parliamentType keyProvisions reviewClauses].
  split; [|repeat split].
  eexists. eexists. split; [reflexivity|]. split; [|split; [reflexivity|]].
  - destruct objectives; cbn [orElse]; discriminate.
  - destruct (ExtractFacts.agenciesOf text); cbn [orElse]; discriminate.
Qed.

(** ** The client and the server together *)

Section Backend.

Variable host : Host.
Variable AIData : Type.
Variable JSON_parse : jsstring -> completion AIData.
Variable ANTHROPIC_API_KEY : option jsstring.

(** What [fetch] of [/api/extract] yields when the server of this
    repository answers the request [{ text, filename }]. *)
Definition served (upstream : Server.Upstream) (text filename : jsstring)
  : option (Fetched (AIService.ExtractBody AIData)) :=
  Wire.extract
    (Server.extract host AIData JSON_parse ANTHROPIC_API_KEY
       (Server.mkRequest (Some text) (Some filename)) upstream).

(** The fallback of the server, as [extractLegislationWithAI] returns it. *)
Lemma served_fallback upstream text filename :
  50 <= length (JSString.trim text) ->
  aiPathFails AIData JSON_parse ANTHROPIC_API_KEY upstream ->
  exists r warning fetched,
    Server.extractFallback host text (Some filename) = Normal r
    /\ served upstream text filename = Some fetched
    /\ AIService.extractLegislationWithAI fetched
       = Normal (AIService.mkExtraction (Some (inl r)) (Some (js "fallback")) warning).
Proof.
  intros Hlen Hfail.
  destruct (extract_valid host AIData JSON_parse ANTHROPIC_API_KEY text (Some filename)
              upstream Hlen) as (r & Hr & He).
  exists r. unfold served. rewrite He. unfold Server.tryExtract. rewrite Hr.
  assert (Hdone : forall w,
    exists warning fetched,
      Normal r = Normal r
      /\ Wire.extract (Server.Json (AIData := AIData) true (js "fallback") (inl r) w)
         = Some fetched
      /\ AIService.extractLegislationWithAI fetched
         = Normal (AIService.mkExtraction (Some (inl r)) (Some (js "fallback")) warning)).
  { intros w. exists w. eexists. split; [reflexivity|]. split; reflexivity. }
  destruct Hfail as [Hkey|Hup].
  - rewrite Hkey. apply Hdone.
  - destruct (Server.falsy ANTHROPIC_API_KEY); [apply Hdone|].
    destruct upstream as [e|[[]|e]|[content|e]]; cbn [bind]; try apply Hdone.
    destruct (JSRegExp.match_ content Server.jsonRe) as [m|]; [|apply Hdone].
    destruct Hup as [e ->]. apply Hdone.
Qed.

(** X10. When the AI path of the server fails (no credential, [fetch]
    throwing, a non-success status, no JSON object in the reply or one
    that does not parse), [extractLegislationWithAI] returns for a text
    that passes the validation what [extractLegislationFallback] returns
    for the same text and file name in the browser: the same ten content
    properties and [_method: "fallback"] (and the warning of the server
    besides). A text that does not pass the validation makes it throw the
    message of the server. *)
Theorem backend_fallback_is_client_fallback (upstream : Server.Upstream)
  (text filename : jsstring) :
  aiPathFails AIData JSON_parse ANTHROPIC_API_KEY upstream ->
  (50 <= length (JSString.trim text) ->
   exists r warning fetched,
     served upstream text filename = Some fetched
     /\ AIService.extractLegislationWithAI fetched
        = Normal (AIService.mkExtraction (Some (inl r)) (Some (js "fallback")) warning)
     /\ Client.extractLegislationFallback host text (Some filename)
        = Normal (withMethod r (Some (js "fallback"))))
  /\ (length (JSString.trim text) < 50 ->
      exists fetched,
        served upstream text filename = Some fetched
        /\ AIService.extractLegislationWithAI fetched
           = Throw (Error (js "Document text is too short for analysis"))).
Proof.
  intros Hfail. split.
  - intros Hlen.
    destruct (served_fallback upstream text filename Hlen Hfail)
      as (r & warning & fetched & Hr & Hs & Hx).
    exists r, warning, fetched. split; [exact Hs|]. split; [exact Hx|].
    destruct (client_is_server_with_method host text filename) as (r' & Hr' & Hc).
    rewrite Hr in Hr'. inversion Hr'; subst r'. exact Hc.
  - intros Hshort. unfold served. rewrite extract_invalid.
    + eexists. split; reflexivity.
    + cbn [Server.reqText]. intros t Ht. inversion Ht; subst. exact Hshort.
Qed.

End Backend.

Lemma backend_fallback_is_client_fallback_witness :
  aiPathFails unit (fun _ => Throw (SyntaxError [])) (Some (js "sk-test"))
    (Server.Ok (Normal (js "I cannot help with that.")))
  /\ exists r warning fetched,
       served basicLatinHost unit (fun _ => Throw (SyntaxError [])) (Some (js "sk-test"))
         (Server.Ok (Normal (js "I cannot help with that."))) sampleText (js "act.txt")
       = Some fetched
       /\ AIService.extractLegislationWithAI fetched
          = Normal (AIService.mkExtraction (Some (inl r)) (Some (js "fallback")) warning)
       /\ Client.extractLegislationFallback basicLatinHost sampleText (Some (js "act.txt"))
          = Normal (withMethod r (Some (js "fallback"))).
Proof.
  assert (H : aiPathFails unit (fun _ => Throw (SyntaxError [])) (Some (js "sk-test"))
                (Server.Ok (Normal (js "I cannot help with that."))))
    by (right; vm_compute; exact I).
  split; [exact H|].
  apply (proj1 (backend_fallback_is_client_fallback basicLatinHost unit
                  (fun _ => Throw (SyntaxError [])) (Some (js "sk-test"))
                  (Server.Ok (Normal (js "I cannot help with that.")))
                  sampleText (js "act.txt") H)).
  vm_compute. lia.
Defined.

(** ** The upload, the parser and the extraction in the component *)

Module ExtractionFacts.

Import PLSCommandCenter.

Lemma orDefault_Some (s d : jsstring) : s <> [] -> orDefault (Some s) d = s.
Proof. destruct s; [congruence|reflexivity]. Qed.

Section Facts.

Variable host : Host.
Variable AIData : Type.
Variable properties : AIData -> ExtractionResult.
Variable backend : jsstring -> jsstring -> Fetched (AIService.ExtractBody AIData).

Abbreviation details :=
  (extractLegislationDetails host AIData properties backend).

(** A document that cannot be read, or that is too short: the error is
    shown and nothing else changes but the text and the information that
    were read. *)
Lemma details_parse_error serverStatus u context monitoring file error :
  uploadedFile u = Some file ->
  DocumentParser.extractTextFromDocument host file = Throw error ->
  details serverStatus u context monitoring
  = (failed error
       (setExtractionMethod None
          (setExtractionStatus (js "Extracting text from document...")
             (setExtractionError None (setIsExtracting true u)))),
     context, monitoring).
Proof.
  intros Hu Hp. unfold extractLegislationDetails. rewrite Hu, Hp. reflexivity.
Qed.

(** The data of the patterns and of a server that fell back are merged
    alike. *)
Lemma merge_fallback r w context :
  merge AIData properties
    (FromBackend AIData
       (AIService.mkExtraction (Some (inl r)) (Some (js "fallback")) w)) context
  = merge AIData properties
      (FromPatterns AIData (withMethod r (Some (js "fallback")))) context.
Proof. reflexivity. Qed.

Lemma mergeReview_fallback r w monitoring :
  mergeReview AIData properties
    (FromBackend AIData
       (AIService.mkExtraction (Some (inl r)) (Some (js "fallback")) w)) monitoring
  = mergeReview AIData properties
      (FromPatterns AIData (withMethod r (Some (js "fallback")))) monitoring.
Proof. reflexivity. Qed.

End Facts.

End ExtractionFacts.

Section EndToEnd.

Variable host : Host.
Variable AIData : Type.
Variable properties : AIData -> ExtractionResult.
Variable JSON_parse : jsstring -> completion AIData.
Variable ANTHROPIC_API_KEY : option jsstring.
Variable backend : jsstring -> jsstring -> Fetched (AIService.ExtractBody AIData).

(** X11. A file that [handleFileUpload] takes for its MIME type alone is
    not one that the parser reads: when its lower-cased name ends in none
    of [.pdf], [.docx], [.doc] and [.txt], the upload shows no error, and
    the extraction then ends with the error
    ["Failed to extract text: Unsupported file type: "] and the
    lower-cased name, the context and the monitoring left as they were. *)
Theorem accepted_type_can_be_unsupported
  (serverStatus : AIService.ServerStatus) (file : DocumentParser.File)
  (u : PLSCommandCenter.Upload) (context : PLSCommandCenter.Context.t)
  (monitoring : PLSCommandCenter.Monitoring.t) :
  let fileName := toLowerCase host (DocumentParser.name file) in
  PLSCommandCenter.includes PLSCommandCenter.validTypes (DocumentParser.type file) = true ->
  endsWith fileName (js ".pdf") = false ->
  endsWith fileName (js ".docx") = false ->
  endsWith fileName (js ".doc") = false ->
  endsWith fileName (js ".txt") = false ->
  let u1 := PLSCommandCenter.handleFileUpload file u in
  PLSCommandCenter.uploadedFile u1 = Some file
  /\ PLSCommandCenter.extractionError u1 = None
  /\ exists u2,
       PLSCommandCenter.extractLegislationDetails host AIData properties backend
         serverStatus u1 context monitoring
       = (u2, context, monitoring)
       /\ PLSCommandCenter.extractionError u2
          = Some (js "Failed to extract text: Unsupported file type: " ++ fileName)
       /\ PLSCommandCenter.isExtracting u2 = false
       /\ PLSCommandCenter.extractionMethod u2 = None.
Proof.
  intros fileName Htype Hpdf Hdocx Hdoc Htxt u1.
  assert (Hacc : PLSCommandCenter.accepted file = true).
  { unfold PLSCommandCenter.accepted. rewrite Htype. reflexivity. }
  assert (Hu1 : PLSCommandCenter.uploadedFile u1 = Some file).
  { unfold u1, PLSCommandCenter.handleFileUpload. rewrite Hacc. reflexivity. }
  split; [exact Hu1|]. split.
  { unfold u1, PLSCommandCenter.handleFileUpload. rewrite Hacc. reflexivity. }
  eexists. split.
  - eapply ExtractionFacts.details_parse_error; [exact Hu1|].
    unfold DocumentParser.extractTextFromDocument, DocumentParser.dispatch.
    fold fileName. rewrite Hpdf, Hdocx, Hdoc, Htxt. reflexivity.
  - cbn. split; [|split; reflexivity].
    reflexivity.
Qed.

(** X12. With the server offline or not asked, [fetch] failing, or the AI
    path of the server failing, the extraction of a document whose text
    passes the validation ends without an error, with the method
    ["fallback"], the text kept, and the context merged with what
    [extractLegislationFallback] returns for the text and the name of the
    file; the monitoring stays as it was. *)
Theorem extraction_falls_back_end_to_end
  (serverStatus : AIService.ServerStatus) (upstream : Server.Upstream)
  (file : DocumentParser.File) (text : jsstring)
  (u : PLSCommandCenter.Upload) (context : PLSCommandCenter.Context.t)
  (monitoring : PLSCommandCenter.Monitoring.t) :
  PLSCommandCenter.uploadedFile u = Some file ->
  DocumentParser.extractTextFromDocument host file = Normal text ->
  50 <= length (JSString.trim text) ->
  (AIService.status serverStatus <> Some (js "ok")
   \/ (exists e, backend text (DocumentParser.name file) = NetworkError e)
   \/ (aiPathFails AIData JSON_parse ANTHROPIC_API_KEY upstream
       /\ served host AIData JSON_parse ANTHROPIC_API_KEY upstream text
            (DocumentParser.name file)
          = Some (backend text (DocumentParser.name file)))) ->
  exists r u',
    Client.extractLegislationFallback host text (Some (DocumentParser.name file))
    = Normal r
    /\ PLSCommandCenter.extractLegislationDetails host AIData properties backend
         serverStatus u context monitoring
       = (u', PLSCommandCenter.merge AIData properties
                (PLSCommandCenter.FromPatterns AIData r) context,
          monitoring)
    /\ PLSCommandCenter.extractionMethod u' = Some (js "fallback")
    /\ PLSCommandCenter.extractionError u' = None
    /\ PLSCommandCenter.extractionComplete u' = true
    /\ PLSCommandCenter.isExtracting u' = false
    /\ PLSCommandCenter.documentText u' = text.
Proof.
  intros Hu Hp Hlen Hcase.
  destruct (client_is_server_with_method host text (DocumentParser.name file))
    as (r0 & Hr0 & Hc).
  destruct (extractor_fixed ClientCopy host text (DocumentParser.name file))
    as (_ & _ & _ & _ & _ & Hreview).
  cbn [extractor] in Hreview. rewrite Hc in Hreview. cbn [field] in Hreview.
  exists (withMethod r0 (Some (js "fallback"))).
  assert (Htext : (match text with [] => true | _ => false end
                   || (length (JSString.trim text) <? 50))%bool = false).
  { apply orb_false_iff. split; [destruct text; [simpl in Hlen; lia|reflexivity]|].
    apply Nat.ltb_ge. exact Hlen. }
  assert (Hpat : PLSCommandCenter.patterns host AIData text (DocumentParser.name file)
                 = Normal (PLSCommandCenter.FromPatterns AIData
                             (withMethod r0 (Some (js "fallback"))), js "fallback")).
  { unfold PLSCommandCenter.patterns. rewrite Hc. reflexivity. }
  assert (Hreview' : forall w,
    PLSCommandCenter.mergeReview AIData properties
      (PLSCommandCenter.FromPatterns AIData (withMethod r0 w)) monitoring = monitoring).
  { intros w. unfold PLSCommandCenter.mergeReview. cbn [PLSCommandCenter.read].
    cbn [withMethod reviewClauses] in *. rewrite Hreview. reflexivity. }
  assert (Han : exists e,
    PLSCommandCenter.analyse host AIData backend serverStatus text
      (DocumentParser.name file) = Normal (e, js "fallback")
    /\ PLSCommandCenter.merge AIData properties e context
       = PLSCommandCenter.merge AIData properties
           (PLSCommandCenter.FromPatterns AIData (withMethod r0 (Some (js "fallback"))))
           context
    /\ PLSCommandCenter.mergeReview AIData properties e monitoring = monitoring).
  { unfold PLSCommandCenter.analyse.
    destruct (AIService.status serverStatus) as [s|] eqn:Es.
    2: { rewrite Hpat. eexists. split; [reflexivity|]. split; [reflexivity|apply Hreview']. }
    destruct (jsstring_eqb s (js "ok")) eqn:Eok.
    2: { rewrite Hpat. eexists. split; [reflexivity|]. split; [reflexivity|apply Hreview']. }
    apply SetFacts.jsstring_eqb_eq in Eok. subst s.
    destruct Hcase as [Hno|[[e He]|[Hfail Hserved]]]; [congruence| |].
    - rewrite He. cbn [AIService.extractLegislationWithAI]. rewrite Hpat.
      eexists. split; [reflexivity|]. split; [reflexivity|apply Hreview'].
    - destruct (served_fallback host AIData JSON_parse ANTHROPIC_API_KEY upstream text
                  (DocumentParser.name file) Hlen Hfail)
        as (r & w & fetched & Hr & Hs & Hx).
      rewrite Hs in Hserved. inversion Hserved as [Hb]. rewrite <- Hb, Hx.
      rewrite Hr0 in Hr. inversion Hr; subst r.
      eexists. split; [reflexivity|]. split; [reflexivity|].
      rewrite ExtractionFacts.mergeReview_fallback. apply Hreview'. }
  destruct Han as (e & He & Hm & Hrev).
  eexists. split; [exact Hc|].
  unfold PLSCommandCenter.extractLegislationDetails. rewrite Hu, Hp, Htext, He, Hm, Hrev.
  split; [reflexivity|]. repeat split.
Qed.

End EndToEnd.

(** ** The handlers of the component *)

Module SplitFacts.

Import FilenameFacts.

(** [s.split(d)] for a separator of one code unit. *)
Lemma splitAux_char d s : forall cur,
  JSString.splitAux [d] 0 cur s
  = match splitOn d s with
    | w :: ws => (rev cur ++ w) :: ws
    | [] => []
    end.
Proof.
  induction s as [|c t IH]; intros cur.
  - simpl. rewrite app_nil_r. reflexivity.
  - cbn [JSString.splitAux splitOn].
    cbn [JSString.startsWith length Nat.sub]. unfold char_eqb.
    rewrite andb_true_r, (N.eqb_sym d).
    destruct (N.eqb c d).
    + rewrite (IH []), app_nil_r. cbn [rev app].
      destruct (splitOn d t) eqn:E; [|reflexivity].
      exfalso. exact (splitOn_nonempty _ _ E).
    + rewrite (IH (c :: cur)). cbn [rev].
      destruct (splitOn d t) eqn:E;
        [exfalso; exact (splitOn_nonempty _ _ E)|].
      rewrite <- app_assoc. reflexivity.
Qed.

Lemma split_char s d : JSString.split s [d] = splitOn d s.
Proof.
  unfold JSString.split. rewrite splitAux_char.
  destruct (splitOn d s) eqn:E; reflexivity.
Qed.

Lemma splitOn_app d a b : splitOn d (a ++ d :: b) = splitOn d a ++ splitOn d b.
Proof.
  induction a as [|c t IH]; cbn [app splitOn].
  - rewrite N.eqb_refl. reflexivity.
  - destruct (N.eqb c d); [rewrite IH; reflexivity|].
    rewrite IH. destruct (splitOn d t) eqn:E; [|reflexivity].
    exfalso. exact (splitOn_nonempty _ _ E).
Qed.

Lemma splitOn_none d g : ~ In d g -> splitOn d g = [g].
Proof.
  induction g as [|c t IH]; intros H; [reflexivity|].
  cbn [splitOn]. destruct (N.eqb_spec c d) as [->|_].
  - exfalso. apply H. left. reflexivity.
  - rewrite IH; [reflexivity|]. intros Hin. apply H. right. exact Hin.
Qed.

Lemma splitOn_join d groups :
  Forall (fun g => ~ In d g) groups -> groups <> [] ->
  splitOn d (JSString.join [d] groups) = groups.
Proof.
  induction 1 as [|g rest Hg Hrest IH]; intros Hne; [congruence|].
  destruct rest as [|g' rest'].
  - cbn [JSString.join]. apply splitOn_none. exact Hg.
  - change (JSString.join [d] (g :: g' :: rest'))
      with (g ++ d :: JSString.join [d] (g' :: rest')).
    rewrite splitOn_app, (splitOn_none d g Hg), IH by discriminate. reflexivity.
Qed.

End SplitFacts.

(** X13. From a tab of the tool, [goToNextTab] and [goToPrevTab] lead to
    a tab of the tool; where one of them moves, the other moves back; and
    [goToNextTab] stays only on ["export"], [goToPrevTab] only on
    ["setup"]. *)
Theorem tabs_next_and_prev_are_inverse (activeTab : jsstring) :
  In activeTab PLSCommandCenter.toolTabs ->
  In (PLSCommandCenter.goToNextTab activeTab) PLSCommandCenter.toolTabs
  /\ In (PLSCommandCenter.goToPrevTab activeTab) PLSCommandCenter.toolTabs
  /\ (PLSCommandCenter.goToNextTab activeTab = activeTab <-> activeTab = js "export")
  /\ (PLSCommandCenter.goToPrevTab activeTab = activeTab <-> activeTab = js "setup")
  /\ (activeTab <> js "export" ->
      PLSCommandCenter.goToPrevTab (PLSCommandCenter.goToNextTab activeTab) = activeTab)
  /\ (activeTab <> js "setup" ->
      PLSCommandCenter.goToNextTab (PLSCommandCenter.goToPrevTab activeTab) = activeTab).
Proof.
  intros Hin. unfold PLSCommandCenter.toolTabs in Hin. cbn [In] in Hin.
  repeat (destruct Hin as [<-|Hin]); [..|contradiction];
    (split; [vm_compute; tauto|]); (split; [vm_compute; tauto|]);
    (split; [split; intros H; first [reflexivity | discriminate H]|]);
    (split; [split; intros H; first [reflexivity | discriminate H]|]);
    (split; intros H; first [reflexivity | exfalso; apply H; reflexivity]).
Qed.

Lemma tabs_next_and_prev_are_inverse_witness :
  PLSCommandCenter.goToPrevTab (PLSCommandCenter.goToNextTab (js "consultation"))
  = js "consultation".
Proof.
  apply (tabs_next_and_prev_are_inverse (js "consultation")).
  - vm_compute. tauto.
  - discriminate.
Defined.

Module TabFacts.

Import PLSCommandCenter.

(** The index of a tab of the tool, and the tab at that index. *)
Lemma tab_index activeTab :
  In activeTab toolTabs ->
  (0 <= currentTabIndex activeTab < Z.of_nat (length toolTabs))%Z
  /\ nth_error toolTabs (Z.to_nat (currentTabIndex activeTab)) = Some activeTab.
Proof.
  intros Hin. unfold toolTabs in Hin. cbn [In] in Hin.
  repeat (destruct Hin as [<-|Hin]); [..|contradiction];
    (split; [vm_compute; split; congruence|reflexivity]).
Qed.

Lemma onTabEvent_tab activeTab e :
  In activeTab toolTabs -> In (onTabEvent activeTab e) toolTabs.
Proof.
  intros Hin. destruct e as [| |i]; cbn [onTabEvent].
  - unfold toolTabs in Hin. cbn [In] in Hin.
    repeat (destruct Hin as [<-|Hin]); [..|contradiction]; vm_compute; tauto.
  - unfold toolTabs in Hin. cbn [In] in Hin.
    repeat (destruct Hin as [<-|Hin]); [..|contradiction]; vm_compute; tauto.
  - destruct (nth_error toolTabs i) as [id|] eqn:E; [|exact Hin].
    eapply nth_error_In. exact E.
Qed.

End TabFacts.

(** X14. Whatever buttons are pressed after the component is mounted,
    [activeTab] is a tab of the tool: [findIndex] never gives -1 for it,
    [currentTabIndex] is an index of [toolTabs], and the tab at that
    index is the active one. *)
Theorem active_tab_is_always_a_tool_tab (events : list PLSCommandCenter.TabEvent) :
  let activeTab := PLSCommandCenter.activeTabAfter events in
  In activeTab PLSCommandCenter.toolTabs
  /\ (0 <= PLSCommandCenter.currentTabIndex activeTab
      < Z.of_nat (length PLSCommandCenter.toolTabs))%Z
  /\ nth_error PLSCommandCenter.toolTabs
       (Z.to_nat (PLSCommandCenter.currentTabIndex activeTab))
     = Some activeTab.
Proof.
  intros activeTab.
  assert (Hin : In activeTab PLSCommandCenter.toolTabs).
  { unfold activeTab, PLSCommandCenter.activeTabAfter.
    assert (H0 : In PLSCommandCenter.initialTab PLSCommandCenter.toolTabs)
      by (left; reflexivity).
    revert H0. generalize PLSCommandCenter.initialTab as tab.
    induction events as [|e events IH]; intros tab Htab; [exact Htab|].
    cbn [fold_left]. apply IH. apply TabFacts.onTabEvent_tab. exact Htab. }
  split; [exact Hin|]. apply TabFacts.tab_index. exact Hin.
Qed.

Module ListFacts.

Import PLSCommandCenter.

Lemma filter_all {A} (p : A -> bool) (l : list A) :
  Forall (fun a => p a = true) l -> filter p l = l.
Proof.
  induction 1 as [|a l Ha _ IH]; [reflexivity|].
  cbn [filter]. rewrite Ha, IH. reflexivity.
Qed.

Lemma filter_same {A} (p : A -> bool) (l : list A) :
  filter p l = l -> Forall (fun a => p a = true) l.
Proof.
  intros H. apply Forall_forall. intros a Ha. rewrite <- H in Ha.
  apply filter_In in Ha. tauto.
Qed.

Lemma includes_In l x : includes l x = true <-> In x l.
Proof.
  unfold includes. rewrite existsb_exists. split.
  - intros (m & Hm & E). apply SetFacts.jsstring_eqb_eq in E. subst. exact Hm.
  - intros H. exists x. split; [exact H|]. apply SetFacts.jsstring_eqb_eq. reflexivity.
Qed.

Lemma includes_false l x : includes l x = false <-> ~ In x l.
Proof.
  rewrite <- includes_In. destruct (includes l x); split; congruence.
Qed.

Lemma neq_eqb (m x : jsstring) : negb (jsstring_eqb m x) = true <-> m <> x.
Proof.
  rewrite negb_true_iff. rewrite <- (SetFacts.jsstring_eqb_eq m x).
  destruct (jsstring_eqb m x); split; congruence.
Qed.

End ListFacts.

(** X15. When the name of the new stakeholder is not blank,
    [removeStakeholder] with the [id] that [addStakeholder] gave, the
    time of the call, gives back the list as it was exactly when no
    stakeholder of the list has that [id]: stakeholders added within the
    same millisecond are removed together. *)
Theorem remove_undoes_add_iff_fresh (now : Z)
  (stakeholders : list PLSCommandCenter.Stakeholder)
  (newStakeholder : PLSCommandCenter.Draft) :
  JSString.trim (PLSCommandCenter.name newStakeholder) <> [] ->
  (PLSCommandCenter.removeStakeholder now
     (fst (PLSCommandCenter.addStakeholder now stakeholders newStakeholder))
   = stakeholders
   <-> Forall (fun s => PLSCommandCenter.id s <> now) stakeholders).
Proof.
  intros Hname. unfold PLSCommandCenter.addStakeholder.
  destruct (JSString.trim (PLSCommandCenter.name newStakeholder)); [congruence|].
  cbn [fst]. unfold PLSCommandCenter.removeStakeholder.
  rewrite filter_app. cbn [filter PLSCommandCenter.id]. rewrite Z.eqb_refl.
  cbn [negb]. rewrite app_nil_r. split.
  - intros H. apply ListFacts.filter_same in H.
    eapply Forall_impl; [|exact H]. cbn. intros s Hs.
    apply negb_true_iff, Z.eqb_neq in Hs. exact Hs.
  - intros H. apply ListFacts.filter_all.
    eapply Forall_impl; [|exact H]. cbn. intros s Hs.
    apply negb_true_iff, Z.eqb_neq. exact Hs.
Qed.

Definition ministry : PLSCommandCenter.Draft :=
  PLSCommandCenter.mkDraft (js "Ministry of Health") (js "government")
    (js "high") (js "medium") [].

Lemma remove_undoes_add_iff_fresh_witness :
  PLSCommandCenter.removeStakeholder 2
    (fst (PLSCommandCenter.addStakeholder 2
            [PLSCommandCenter.mkStakeholder ministry 1] ministry))
  = [PLSCommandCenter.mkStakeholder ministry 1].
Proof.
  apply (remove_undoes_add_iff_fresh 2 [PLSCommandCenter.mkStakeholder ministry 1]
           ministry).
  - vm_compute. discriminate.
  - repeat constructor. cbn. lia.
Defined.

(** X16. [toggleConsultationMethod] flips whether the method is among
    the methods and changes this for no other method; it keeps a list
    without repetitions so, and it removes every occurrence of a method
    that is there. *)
Theorem toggle_flips_one_method (methodId : jsstring) (methods : list jsstring) :
  let toggled := PLSCommandCenter.toggleConsultationMethod methodId methods in
  PLSCommandCenter.includes toggled methodId
  = negb (PLSCommandCenter.includes methods methodId)
  /\ (forall other, other <> methodId ->
        PLSCommandCenter.includes toggled other
        = PLSCommandCenter.includes methods other)
  /\ (NoDup methods -> NoDup toggled).
Proof.
  intros toggled. unfold toggled, PLSCommandCenter.toggleConsultationMethod.
  destruct (PLSCommandCenter.includes methods methodId) eqn:E.
  - split; [|split].
    + cbn [negb]. apply ListFacts.includes_false. intros H.
      apply filter_In in H. destruct H as [_ H].
      apply ListFacts.neq_eqb in H. congruence.
    + intros other Hne.
      destruct (PLSCommandCenter.includes methods other) eqn:Eo.
      * apply ListFacts.includes_In. apply ListFacts.includes_In in Eo.
        apply filter_In. split; [exact Eo|]. apply ListFacts.neq_eqb. exact Hne.
      * apply ListFacts.includes_false. apply ListFacts.includes_false in Eo.
        intros H. apply filter_In in H. tauto.
    + intros H. apply NoDup_filter. exact H.
  - split; [|split].
    + cbn [negb]. apply ListFacts.includes_In. apply in_or_app. right. left. reflexivity.
    + intros other Hne.
      destruct (PLSCommandCenter.includes methods other) eqn:Eo.
      * apply ListFacts.includes_In. apply ListFacts.includes_In in Eo.
        apply in_or_app. left. exact Eo.
      * apply ListFacts.includes_false. apply ListFacts.includes_false in Eo.
        intros H. apply in_app_or in H. destruct H as [H|[H|[]]]; [tauto|congruence].
    + intros H. apply ListFacts.includes_false in E.
      apply NoDup_rev in H. rewrite <- (rev_involutive (methods ++ [methodId])).
      apply NoDup_rev. rewrite rev_app_distr. cbn [rev app]. constructor.
      * rewrite <- in_rev. exact E.
      * exact H.
Qed.

(** X17. Toggling a method twice gives back the methods when the method
    was not among them; when it was, every occurrence is removed and the
    method is put at the end. *)
Theorem toggle_twice (methodId : jsstring) (methods : list jsstring) :
  PLSCommandCenter.toggleConsultationMethod methodId
    (PLSCommandCenter.toggleConsultationMethod methodId methods)
  = if PLSCommandCenter.includes methods methodId
    then filter (fun m => negb (jsstring_eqb m methodId)) methods ++ [methodId]
    else methods.
Proof.
  unfold PLSCommandCenter.toggleConsultationMethod at 2.
  destruct (PLSCommandCenter.includes methods methodId) eqn:E.
  - unfold PLSCommandCenter.toggleConsultationMethod.
    replace (PLSCommandCenter.includes
               (filter (fun m => negb (jsstring_eqb m methodId)) methods) methodId)
      with false; [reflexivity|].
    symmetry. apply ListFacts.includes_false. intros H. apply filter_In in H.
    destruct H as [_ H]. apply ListFacts.neq_eqb in H. congruence.
  - unfold PLSCommandCenter.toggleConsultationMethod.
    replace (PLSCommandCenter.includes (methods ++ [methodId]) methodId) with true.
    + rewrite filter_app. cbn [filter].
      replace (jsstring_eqb methodId methodId) with true
        by (symmetry; apply SetFacts.jsstring_eqb_eq; reflexivity).
      cbn [negb]. rewrite app_nil_r. apply ListFacts.filter_all.
      apply Forall_forall. intros m Hm. apply ListFacts.neq_eqb. intros ->.
      apply ListFacts.includes_false in E. contradiction.
    + symmetry. apply ListFacts.includes_In. apply in_or_app. right. left. reflexivity.
Qed.

(** X18. The text area of the target groups and of the evidence sources
    gives back the list it shows, when no entry of the list is blank or
    holds a line feed. *)
Theorem textarea_round_trip (groups : list jsstring) :
  Forall (fun g => JSString.trim g <> [] /\ ~ In LF g) groups ->
  PLSCommandCenter.kept (PLSCommandCenter.shown groups) = groups.
Proof.
  intros H. unfold PLSCommandCenter.kept, PLSCommandCenter.shown.
  rewrite SplitFacts.split_char. destruct groups as [|g rest]; [reflexivity|].
  rewrite SplitFacts.splitOn_join; [| |discriminate].
  - apply ListFacts.filter_all. eapply Forall_impl; [|exact H].
    cbn. intros a [Ha _]. destruct (JSString.trim a); congruence.
  - eapply Forall_impl; [|exact H]. cbn. tauto.
Qed.

Lemma textarea_round_trip_witness :
  PLSCommandCenter.kept
    (PLSCommandCenter.shown [js "Healthcare workers"; js "Rural communities"])
  = [js "Healthcare workers"; js "Rural communities"].
Proof.
  apply (textarea_round_trip [js "Healthcare workers"; js "Rural communities"]).
  repeat constructor; try (vm_compute; discriminate);
    vm_compute; intuition discriminate.
Defined.

(** X19. A line feed typed at the end of such a text area is not kept:
    the list is the same as before, and so is the text that the area
    then shows. *)
Theorem textarea_drops_trailing_newline (value : jsstring) :
  PLSCommandCenter.kept (value ++ [LF]) = PLSCommandCenter.kept value
  /\ PLSCommandCenter.shown (PLSCommandCenter.kept (value ++ [LF]))
     = PLSCommandCenter.shown (PLSCommandCenter.kept value).
Proof.
  assert (H : PLSCommandCenter.kept (value ++ [LF]) = PLSCommandCenter.kept value).
  { unfold PLSCommandCenter.kept. rewrite !SplitFacts.split_char.
    rewrite SplitFacts.splitOn_app, filter_app. cbn. apply app_nil_r. }
  split; [exact H|]. rewrite H. reflexivity.
Qed.

(** X20. [updateMonitoringStatus] changes statuses only: the three lists
    keep their items in their order with their [id]s and texts, the two
    lists it was not called for and the review clauses stay as they
    were, and in the list it was called for every item with the [id]
    gets the status and no other item changes. *)
Theorem status_update_changes_statuses_only (type other : PLSCommandCenter.ListName)
  (id : Z) (status : jsstring) (prev : PLSCommandCenter.Monitoring.t) :
  let next := PLSCommandCenter.updateMonitoringStatus type id status prev in
  map PLSCommandCenter.Monitoring.id (PLSCommandCenter.get other next)
  = map PLSCommandCenter.Monitoring.id (PLSCommandCenter.get other prev)
  /\ map PLSCommandCenter.Monitoring.text (PLSCommandCenter.get other next)
     = map PLSCommandCenter.Monitoring.text (PLSCommandCenter.get other prev)
  /\ (other <> type ->
      PLSCommandCenter.get other next = PLSCommandCenter.get other prev)
  /\ PLSCommandCenter.Monitoring.reviewClauses next
     = PLSCommandCenter.Monitoring.reviewClauses prev
  /\ Forall2
       (fun before after =>
          PLSCommandCenter.Monitoring.status after
          = if Z.eqb (PLSCommandCenter.Monitoring.id before) id
            then status
            else PLSCommandCenter.Monitoring.status before)
       (PLSCommandCenter.get type prev) (PLSCommandCenter.get type next).
Proof.
  intros next.
  assert (Hsame : PLSCommandCenter.get type next
                  = map (fun item =>
                           if Z.eqb (PLSCommandCenter.Monitoring.id item) id
                           then PLSCommandCenter.Monitoring.mkItem
                                  (PLSCommandCenter.Monitoring.id item)
                                  (PLSCommandCenter.Monitoring.text item) status
                           else item)
                      (PLSCommandCenter.get type prev)).
  { destruct type; reflexivity. }
  assert (Hother : other <> type ->
                   PLSCommandCenter.get other next = PLSCommandCenter.get other prev).
  { destruct type, other; intros H; try reflexivity; congruence. }
  assert (Hmap : forall (A : Type) (f : PLSCommandCenter.Monitoring.Item -> A) l,
             (forall item, f (PLSCommandCenter.Monitoring.mkItem
                                (PLSCommandCenter.Monitoring.id item)
                                (PLSCommandCenter.Monitoring.text item) status)
                           = f item) ->
             map f (map (fun item =>
                           if Z.eqb (PLSCommandCenter.Monitoring.id item) id
                           then PLSCommandCenter.Monitoring.mkItem
                                  (PLSCommandCenter.Monitoring.id item)
                                  (PLSCommandCenter.Monitoring.text item) status
                           else item) l)
             = map f l).
  { intros A f l Hf. rewrite map_map. apply map_ext. intros item.
    destruct (Z.eqb _ id); [apply Hf|reflexivity]. }
  assert (Hcase : other = type \/ other <> type) by (destruct type, other; auto; right; discriminate).
  split; [|split; [|split; [exact Hother|split]]].
  - destruct Hcase as [->|Hne]; [|rewrite (Hother Hne); reflexivity].
    rewrite Hsame. apply Hmap. reflexivity.
  - destruct Hcase as [->|Hne]; [|rewrite (Hother Hne); reflexivity].
    rewrite Hsame. apply Hmap. reflexivity.
  - destruct type; reflexivity.
  - rewrite Hsame. clear. generalize (PLSCommandCenter.get type prev) as l.
    induction l as [|item l IH]; [constructor|].
    cbn [map]. constructor; [|exact IH].
    destruct (Z.eqb _ id); reflexivity.
Qed.

(** ** The chat of the component and the chat of the server *)

Module TrimFacts.

Lemma trimStart_nil l : JSString.trimStart l = [] -> Forall (fun c => isWhiteSpace c = true) l.
Proof.
  induction l as [|c l IH]; [constructor|].
  cbn [JSString.trimStart]. destruct (isWhiteSpace c) eqn:E; [|discriminate].
  intros H. constructor; [exact E|apply IH; exact H].
Qed.

(** A string whose [trim()] is empty holds white space only. *)
Lemma trim_nil l : JSString.trim l = [] -> Forall (fun c => isWhiteSpace c = true) l.
Proof.
  unfold JSString.trim, JSString.trimEnd. intros H.
  apply (f_equal (@rev char)) in H. rewrite rev_involutive in H. cbn [rev] in H.
  apply trimStart_nil in H. apply Forall_rev in H. rewrite rev_involutive in H.
  revert H. induction l as [|a l IH]; [constructor|].
  cbn [JSString.trimStart]. destruct (isWhiteSpace a) eqn:Ea.
  - intros H. constructor; [exact Ea|apply IH; exact H].
  - intros H. exact H.
Qed.

Lemma trim_starts c l : isWhiteSpace c = false -> JSString.trim (c :: l) <> [].
Proof.
  intros Hc H. apply trim_nil in H. inversion H; subst. congruence.
Qed.

End TrimFacts.

Section ChatClient.

Variable host : Host.
Variable PLSGPT_SYSTEM_PROMPT : jsstring.
Variable ANTHROPIC_API_KEY : option jsstring.
Variable anthropic : Chat.ApiRequest (option jsstring) -> Chat.Upstream (option jsstring).
Variable toLocaleString : nat -> jsstring.

Abbreviation fetchChat :=
  (ChatWire.fetchChat PLSGPT_SYSTEM_PROMPT ANTHROPIC_API_KEY anthropic).
Abbreviation serverChat :=
  (Chat.chat (option jsstring) (option jsstring) PLSGPT_SYSTEM_PROMPT
     ANTHROPIC_API_KEY anthropic).

(** What the chat shows for an answer of the server. *)
Lemma sendChatMessage_served closure context message st :
  JSString.trim message <> [] ->
  PLSCommandCenter.sendChatMessage fetchChat closure context message st
  = let userMessage := PLSCommandCenter.ChatState.mkMessage (js "user") (Some message) in
    PLSCommandCenter.ChatState.mk
      (PLSCommandCenter.ChatState.chatMessages st
       ++ [userMessage;
           match serverChat
                   (ChatWire.request
                      (PLSCommandCenter.ChatRequest.mk
                         (PLSCommandCenter.ChatState.chatMessages closure ++ [userMessage])
                         (PLSCommandCenter.ChatState.chatDocumentText closure) context))
           with
           | Chat.Success m => PLSCommandCenter.ChatState.mkMessage (js "assistant") m
           | _ => PLSCommandCenter.sorry
           end])
      [] false (PLSCommandCenter.ChatState.chatDocumentText st).
Proof.
  intros Hm. unfold PLSCommandCenter.sendChatMessage.
  destruct (JSString.trim message); [congruence|].
  cbv zeta. unfold ChatWire.fetchChat.
  destruct (Chat.chat _ _ _ _ _ _); reflexivity.
Qed.

(** X21. A message that is not blank adds two messages to the chat, the
    user's and one of the assistant. Answered by this server, the
    assistant's message is the reply of the model when the server
    succeeded, and else always the same apology: the error that the
    server names, a missing credential included, is not shown, and the
    request is never refused for its messages. *)
Theorem chat_shows_reply_or_apology
  (closure st : PLSCommandCenter.ChatState.t) (context : PLSCommandCenter.Context.t)
  (message : jsstring) :
  JSString.trim message <> [] ->
  let userMessage := PLSCommandCenter.ChatState.mkMessage (js "user") (Some message) in
  let request :=
    ChatWire.request
      (PLSCommandCenter.ChatRequest.mk
         (PLSCommandCenter.ChatState.chatMessages closure ++ [userMessage])
         (PLSCommandCenter.ChatState.chatDocumentText closure) context) in
  exists answer,
    PLSCommandCenter.sendChatMessage fetchChat closure context message st
    = PLSCommandCenter.ChatState.mk
        (PLSCommandCenter.ChatState.chatMessages st ++ [userMessage; answer])
        [] false (PLSCommandCenter.ChatState.chatDocumentText st)
    /\ (forall error, serverChat request <> Chat.BadRequest error)
    /\ (forall m, serverChat request = Chat.Success m ->
          answer = PLSCommandCenter.ChatState.mkMessage (js "assistant") m)
    /\ (forall error, serverChat request = Chat.Failure error ->
          answer = PLSCommandCenter.sorry)
    /\ (Server.falsy ANTHROPIC_API_KEY = true -> answer = PLSCommandCenter.sorry).
Proof.
  intros Hm userMessage request.
  eexists. split; [apply sendChatMessage_served; exact Hm|].
  cbv zeta. fold userMessage. fold request.
  assert (Hbad : forall error, serverChat request <> Chat.BadRequest error).
  { intros error. unfold Chat.chat, Chat.tryChat, request. cbn [ChatWire.request Chat.messages].
    destruct (Server.falsy ANTHROPIC_API_KEY); [discriminate|].
    destruct (anthropic _) as [e|[[]|e]|[m|e]]; discriminate. }
  split; [exact Hbad|]. split; [|split].
  - intros m H. rewrite H. reflexivity.
  - intros error H. rewrite H. reflexivity.
  - intros Hkey. unfold Chat.chat, Chat.tryChat, request.
    cbn [ChatWire.request Chat.messages]. rewrite Hkey. reflexivity.
Qed.

Lemma uploadMessage_not_blank file text :
  JSString.trim (PLSCommandCenter.uploadMessage toLocaleString file text) <> [].
Proof. apply TrimFacts.trim_starts. reflexivity. Qed.

(** X22. When a document is attached to the chat and can be read, the
    request that announces it still carries the document that was there
    before; the text just read is kept for the requests after it. The
    announcement of the first document reaches the model with a system
    prompt that holds no document. *)
Theorem chat_upload_sends_previous_document
  (file : DocumentParser.File) (text : jsstring)
  (context : PLSCommandCenter.Context.t) (st : PLSCommandCenter.ChatState.t) :
  DocumentParser.extractTextFromDocument host file = Normal text ->
  let announcement :=
    PLSCommandCenter.ChatState.mkMessage (js "user")
      (Some (PLSCommandCenter.uploadMessage toLocaleString file text)) in
  let request :=
    ChatWire.request
      (PLSCommandCenter.ChatRequest.mk
         (PLSCommandCenter.ChatState.chatMessages st ++ [announcement])
         (PLSCommandCenter.ChatState.chatDocumentText st) context) in
  PLSCommandCenter.handleChatFileUpload host fetchChat toLocaleString (Some file)
    context st
  = PLSCommandCenter.ChatState.mk
      (PLSCommandCenter.ChatState.chatMessages st
       ++ [announcement;
           match serverChat request with
           | Chat.Success m => PLSCommandCenter.ChatState.mkMessage (js "assistant") m
           | _ => PLSCommandCenter.sorry
           end])
      [] false text
  /\ Chat.documentText request = Some (PLSCommandCenter.ChatState.chatDocumentText st)
  /\ (PLSCommandCenter.ChatState.chatDocumentText st = [] ->
      Chat.systemContext (option jsstring) PLSGPT_SYSTEM_PROMPT request
      = PLSGPT_SYSTEM_PROMPT ++ Chat.contextBlock (Chat.context request)).
Proof.
  intros Hp announcement request. split; [|split].
  - unfold PLSCommandCenter.handleChatFileUpload. rewrite Hp.
    rewrite sendChatMessage_served by apply uploadMessage_not_blank. reflexivity.
  - reflexivity.
  - intros Hd. unfold Chat.systemContext, request.
    cbn [ChatWire.request Chat.documentText PLSCommandCenter.ChatRequest.documentText].
    rewrite Hd. reflexivity.
Qed.

End ChatClient.

(** ** The text of a PDF *)

Module PdfFacts.

Import DocumentParser.

(** The text of the pages: the items of each page joined by a space, and
    two line feeds after each page. *)
Definition pageTexts (items : list (list jsstring)) : jsstring :=
  concat (map (fun page => JSString.join (js " ") page ++ [LF; LF]) items).

Lemma pagesText_Normal ps : forall fullText t,
  pagesText fullText ps = Normal t
  <-> exists items, ps = map (@Normal _) items /\ t = fullText ++ pageTexts items.
Proof.
  induction ps as [|p rest IH]; intros fullText t.
  - cbn [pagesText]. split.
    + intros H. inversion H; subst. exists []. split; [reflexivity|].
      symmetry. apply app_nil_r.
    + intros (items & Hi & ->). destruct items; [|discriminate].
      unfold pageTexts. cbn. rewrite app_nil_r. reflexivity.
  - cbn [pagesText]. destruct p as [page|e]; cbn [bind].
    + rewrite IH. split.
      * intros (items & -> & ->). exists (page :: items). split; [reflexivity|].
        unfold pageTexts. cbn [map concat]. rewrite <- !app_assoc. reflexivity.
      * intros (items & Hi & ->). destruct items as [|page' items]; [discriminate|].
        cbn [map] in Hi. inversion Hi; subst. exists items. split; [reflexivity|].
        unfold pageTexts. cbn [map concat]. rewrite <- !app_assoc. reflexivity.
    + split; [discriminate|]. intros (items & Hi & _).
      destruct items; discriminate.
Qed.

End PdfFacts.

(** The loop of [extractTextFromPDF] in closed form. *)
Lemma extractTextFromPDF_Normal (file : DocumentParser.File) (text : jsstring) :
  DocumentParser.extractTextFromPDF file = Normal text
  <-> exists pdf items,
        DocumentParser.getDocument file = Normal pdf
        /\ DocumentParser.pages pdf = map (@Normal _) items
        /\ text = JSString.trim (PdfFacts.pageTexts items).
Proof.
  unfold DocumentParser.extractTextFromPDF.
  destruct (DocumentParser.getDocument file) as [pdf|e]; cbn [bind].
  - destruct (DocumentParser.pagesText [] (DocumentParser.pages pdf)) as [t|e] eqn:E;
      cbn [bind].
    + apply PdfFacts.pagesText_Normal in E. destruct E as (items & Hi & ->).
      cbn [app]. split.
      * intros H. inversion H; subst. exists pdf, items. auto.
      * intros (pdf' & items' & Hpdf & Hi' & ->). inversion Hpdf; subst pdf'.
        rewrite Hi in Hi'. f_equal. f_equal. f_equal.
        clear -Hi'. revert items' Hi'.
        induction items as [|a items IH]; intros [|b items'] H; try discriminate;
          [reflexivity|].
        cbn [map] in H. inversion H; subst. f_equal. apply IH. assumption.
    + split; [discriminate|]. intros (pdf' & items & Hpdf & Hi & _).
      inversion Hpdf; subst pdf'.
      assert (H : DocumentParser.pagesText [] (DocumentParser.pages pdf)
                  = Normal ([] ++ PdfFacts.pageTexts items)).
      { apply PdfFacts.pagesText_Normal. exists items. auto. }
      congruence.
  - split; [discriminate|]. intros (pdf & items & H & _). discriminate.
Qed.

(** X23. [extractTextFromPDF] yields a text exactly when the document
    opens and every page gives its items, and the text is then the text
    of the pages in their order, the items of a page joined by a space
    and two line feeds after each page, with the white space at both
    ends removed (and nothing else: the text neither begins nor ends
    with white space): one page that cannot be read leaves no text at
    all. *)
Theorem pdf_text_is_the_pages_joined (file : DocumentParser.File) (text : jsstring) :
  DocumentParser.extractTextFromPDF file = Normal text
  <-> exists pdf items,
        DocumentParser.getDocument file = Normal pdf
        /\ DocumentParser.pages pdf = map (@Normal _) items
        /\ TrimSpec.stripped (PdfFacts.pageTexts items) text.
Proof.
  rewrite extractTextFromPDF_Normal. split.
  - intros (pdf & items & Hd & Hp & ->). exists pdf, items.
    split; [exact Hd|]. split; [exact Hp|]. apply TrimSpec.trim_stripped.
  - intros (pdf & items & Hd & Hp & Hs). exists pdf, items.
    split; [exact Hd|]. split; [exact Hp|]. symmetry.
    apply TrimSpec.stripped_trim. exact Hs.
Qed.

(** ** Examples *)

Module Sample.

(** A text file with the text of [sampleText]. *)
Definition act : DocumentParser.File :=
  DocumentParser.mkFile (js "act.txt") 80 (js "text/plain") 0
    (Throw (Error (js "Invalid PDF structure")))
    (Throw (Error (js "Could not find the body element")))
    (Normal sampleText).

(** A file that the browser holds to be plain text, with another
    extension. *)
Definition notes : DocumentParser.File :=
  DocumentParser.mkFile (js "notes.md") 5 (js "text/plain") 0
    (Throw (Error (js "Invalid PDF structure")))
    (Throw (Error (js "Could not find the body element")))
    (Normal (js "hello")).

Definition offline : jsstring -> jsstring -> Fetched (AIService.ExtractBody Empty_set) :=
  fun _ _ => NetworkError (TypeError (js "Failed to fetch")).

Definition properties (d : Empty_set) : ExtractionResult := match d with end.

Definition chat : PLSCommandCenter.ChatState.t :=
  PLSCommandCenter.ChatState.mk [] [] false [].

Definition prompt : jsstring := js "You are PLSGPT.".

Definition model (_ : Chat.ApiRequest (option jsstring)) : Chat.Upstream (option jsstring) :=
  Chat.Ok (Normal (Some (js "Post-legislative scrutiny."))).

End Sample.

Lemma accepted_type_can_be_unsupported_witness :
  PLSCommandCenter.extractionError
    (fst (fst (PLSCommandCenter.extractLegislationDetails basicLatinHost Empty_set
                 Sample.properties Sample.offline Initial.serverStatus
                 (PLSCommandCenter.handleFileUpload Sample.notes Initial.upload)
                 Initial.context Initial.monitoring)))
  = Some (js "Failed to extract text: Unsupported file type: notes.md").
Proof.
  destruct (accepted_type_can_be_unsupported basicLatinHost Empty_set Sample.properties
              Sample.offline Initial.serverStatus Sample.notes Initial.upload
              Initial.context Initial.monitoring)
    as (_ & _ & u2 & Hd & He & _); [reflexivity..|].
  rewrite Hd. exact He.
Defined.

Lemma extraction_falls_back_end_to_end_witness :
  PLSCommandCenter.extractionMethod
    (fst (fst (PLSCommandCenter.extractLegislationDetails basicLatinHost Empty_set
                 Sample.properties Sample.offline Initial.serverStatus
                 (PLSCommandCenter.handleFileUpload Sample.act Initial.upload)
                 Initial.context Initial.monitoring)))
  = Some (js "fallback").
Proof.
  destruct (extraction_falls_back_end_to_end basicLatinHost Empty_set Sample.properties
              (fun _ => Throw (SyntaxError [])) None Sample.offline
              Initial.serverStatus (Server.FetchRejects (TypeError [])) Sample.act
              sampleText (PLSCommandCenter.handleFileUpload Sample.act Initial.upload)
              Initial.context Initial.monitoring)
    as (r & u' & _ & Hd & Hm & _).
  - reflexivity.
  - reflexivity.
  - vm_compute. lia.
  - left. vm_compute. discriminate.
  - rewrite Hd. exact Hm.
Defined.

Lemma chat_shows_reply_or_apology_witness :
  PLSCommandCenter.ChatState.chatMessages
    (PLSCommandCenter.sendChatMessage
       (ChatWire.fetchChat Sample.prompt None Sample.model)
       Sample.chat Initial.context (js "What is PLS?") Sample.chat)
  = [PLSCommandCenter.ChatState.mkMessage (js "user") (Some (js "What is PLS?"));
     PLSCommandCenter.sorry].
Proof.
  destruct (chat_shows_reply_or_apology Sample.prompt None Sample.model
              Sample.chat Sample.chat Initial.context (js "What is PLS?"))
    as (answer & Hs & _ & _ & _ & Hkey).
  - vm_compute. discriminate.
  - rewrite Hs, (Hkey eq_refl). reflexivity.
Defined.

Lemma chat_upload_sends_previous_document_witness :
  Chat.systemContext (option jsstring) Sample.prompt
    (ChatWire.request
       (PLSCommandCenter.ChatRequest.mk
          (PLSCommandCenter.ChatState.chatMessages Sample.chat
           ++ [PLSCommandCenter.ChatState.mkMessage (js "user")
                 (Some (PLSCommandCenter.uploadMessage (fun _ => js "80") Sample.act
                          sampleText))])
          (PLSCommandCenter.ChatState.chatDocumentText Sample.chat) Initial.context))
  = Sample.prompt.
Proof.
  destruct (chat_upload_sends_previous_document basicLatinHost Sample.prompt
              (Some (js "sk-test")) Sample.model (fun _ => js "80") Sample.act sampleText
              Initial.context Sample.chat)
    as (_ & _ & H).
  - reflexivity.
  - rewrite (H eq_refl). reflexivity.
Defined.

(** ** The context after a pattern extraction *)

Lemma extractor_summary_nonempty (copy : Copy) (host : Host) (text filename : jsstring) :
  exists summary,
    field legislationSummary (extractor copy host text filename) = Some summary
    /\ summary <> [].
Proof.
  rewrite extractor_field by (intros; reflexivity).
  destruct (ExtractFacts.title_exists host text filename) as [title Ht].
  destruct (ExtractFacts.summary_exists text) as [summary Hs].
  destruct (ExtractFacts.objectives_exists text) as [objectives Ho].
  rewrite (ExtractFacts.extractFallback_shape _ _ (Some filename) _ _ _ Ht Hs Ho).
  cbn [field legislationSummary]. eexists. split; [reflexivity|].
  destruct summary; cbn [orElse]; discriminate.
Qed.

Section Merge.

Variable host : Host.
Variable AIData : Type.
Variable properties : AIData -> ExtractionResult.

(** X24. What [extractLegislationFallback] returns changes the context in
    the same way for every text: the country and the type of parliament
    stay as they were, the jurisdiction becomes ["national"] whatever it
    was, the summary, the objectives and the agencies are replaced, and
    the year stays as it was when the text has none. *)
Theorem pattern_extraction_overrides_jurisdiction
  (text filename : jsstring) (prev : PLSCommandCenter.Context.t) :
  exists r,
    Client.extractLegislationFallback host text (Some filename) = Normal r
    /\ let next :=
         PLSCommandCenter.merge AIData properties
           (PLSCommandCenter.FromPatterns AIData r) prev in
       PLSCommandCenter.Context.country next = PLSCommandCenter.Context.country prev
       /\ PLSCommandCenter.Context.parliamentType next
          = PLSCommandCenter.Context.parliamentType prev
       /\ PLSCommandCenter.Context.jurisdiction next = js "national"
       /\ legislationSummary r = Some (PLSCommandCenter.Context.legislationSummary next)
       /\ primaryObjectives r = Some (PLSCommandCenter.Context.primaryObjectives next)
       /\ implementingAgencies r
          = Some (PLSCommandCenter.Context.implementingAgencies next)
       /\ (legislationYear r = Some [] ->
           PLSCommandCenter.Context.legislationYear next
           = PLSCommandCenter.Context.legislationYear prev).
Proof.
  destruct (client_is_server_with_method host text filename) as (r0 & Hr0 & Hc).
  destruct (extractor_fixed ClientCopy host text filename)
    as ((objectives & agencies & Ho & Hone & Ha & Hane) & Hj & Hs & Hp & _ & _).
  destruct (extractor_summary_nonempty ClientCopy host text filename)
    as (summary & Hsum & Hsne).
  cbn [extractor] in *. rewrite Hc in *. cbn [field] in *.
  eexists. split; [reflexivity|]. cbv zeta.
  unfold PLSCommandCenter.merge. cbn [PLSCommandCenter.read
    PLSCommandCenter.Context.country PLSCommandCenter.Context.parliamentType
    PLSCommandCenter.Context.jurisdiction PLSCommandCenter.Context.legislationSummary
    PLSCommandCenter.Context.primaryObjectives
    PLSCommandCenter.Context.implementingAgencies
    PLSCommandCenter.Context.legislationYear].
  rewrite Hs, Hp, Hj, Hsum, Ho, Ha.
  rewrite (ExtractionFacts.orDefault_Some summary),
    (ExtractionFacts.orDefault_Some objectives),
    (ExtractionFacts.orDefault_Some agencies) by assumption.
  split; [|split; [|split; [|split; [|split; [|split]]]]]; try reflexivity.
  - cbn [orDefault orElse]. destruct (PLSCommandCenter.Context.country prev); reflexivity.
  - intros Hy. rewrite Hy. reflexivity.
Qed.

End Merge.

(** ** The validation in the component and in the server *)

Section Validation.

Variable host : Host.
Variable AIData : Type.
Variable properties : AIData -> ExtractionResult.
Variable JSON_parse : jsstring -> completion AIData.
Variable ANTHROPIC_API_KEY : option jsstring.

Lemma extract_valid_not_rejected text filename upstream error :
  50 <= length (JSString.trim text) ->
  Server.extract host AIData JSON_parse ANTHROPIC_API_KEY
    (Server.mkRequest (Some text) filename) upstream
  <> Server.BadRequest error.
Proof.
  intros Hlen.
  destruct (extract_valid host AIData JSON_parse ANTHROPIC_API_KEY text filename
              upstream Hlen) as (r & Hr & ->).
  unfold Server.tryExtract. rewrite Hr.
  destruct (Server.falsy ANTHROPIC_API_KEY); cbn [bind]; [discriminate|].
  destruct upstream as [e|[[]|e]|[content|e]]; cbn [bind]; try discriminate.
  destruct (JSRegExp.match_ content Server.jsonRe) as [m|]; [|discriminate].
  destruct (JSON_parse _); cbn [bind]; discriminate.
Qed.

(** X25. The component and the server validate the text alike. A text
    that the component holds to be too short ends the extraction with
    its own message, whatever the server is or would answer; a text
    that it passes on is never answered with a 400 by the server. *)
Theorem component_validates_like_the_server
  (backend : jsstring -> jsstring -> Fetched (AIService.ExtractBody AIData))
  (serverStatus : AIService.ServerStatus) (file : DocumentParser.File)
  (text : jsstring) (u : PLSCommandCenter.Upload)
  (context : PLSCommandCenter.Context.t) (monitoring : PLSCommandCenter.Monitoring.t) :
  PLSCommandCenter.uploadedFile u = Some file ->
  DocumentParser.extractTextFromDocument host file = Normal text ->
  (length (JSString.trim text) < 50 ->
   exists u',
     PLSCommandCenter.extractLegislationDetails host AIData properties backend
       serverStatus u context monitoring
     = (u', context, monitoring)
     /\ PLSCommandCenter.extractionError u'
        = Some (js "Could not extract enough text from the document. Please try a different file format.")
     /\ PLSCommandCenter.documentText u' = text
     /\ PLSCommandCenter.extractionComplete u' = PLSCommandCenter.extractionComplete u)
  /\ (50 <= length (JSString.trim text) ->
      forall upstream error,
        Server.extract host AIData JSON_parse ANTHROPIC_API_KEY
          (Server.mkRequest (Some text) (Some (DocumentParser.name file))) upstream
        <> Server.BadRequest error).
Proof.
  intros Hu Hp. split.
  - intros Hshort. unfold PLSCommandCenter.extractLegislationDetails.
    rewrite Hu, Hp. apply Nat.ltb_lt in Hshort. rewrite Hshort, orb_true_r.
    eexists. split; [reflexivity|]. repeat split.
  - intros Hlong upstream error. apply extract_valid_not_rejected. exact Hlong.
Qed.

End Validation.

Lemma component_validates_like_the_server_witness :
  Server.extract basicLatinHost Empty_set (fun _ => Throw (SyntaxError []))
    (Some (js "sk-test"))
    (Server.mkRequest (Some sampleText) (Some (js "act.txt")))
    (Server.FetchRejects (TypeError (js "fetch failed")))
  <> Server.BadRequest (js "Document text is too short for analysis").
Proof.
  apply (component_validates_like_the_server basicLatinHost Empty_set Sample.properties
           (fun _ => Throw (SyntaxError [])) (Some (js "sk-test")) Sample.offline
           Initial.serverStatus Sample.act sampleText
           (PLSCommandCenter.handleFileUpload Sample.act Initial.upload)
           Initial.context Initial.monitoring).
  - reflexivity.
  - reflexivity.
  - vm_compute. lia.
Defined.

(** ** The outcomes of an extraction *)

Section Outcomes.

Variable host : Host.
Variable AIData : Type.
Variable properties : AIData -> ExtractionResult.
Variable backend : jsstring -> jsstring -> Fetched (AIService.ExtractBody AIData).

(** The analysis itself cannot fail: what the server does not deliver,
    the patterns do. *)
Lemma analyse_normal serverStatus text filename :
  exists extractedData method,
    PLSCommandCenter.analyse host AIData backend serverStatus text filename
    = Normal (extractedData, method).
Proof.
  destruct (client_is_server_with_method host text filename) as (r0 & _ & Hc).
  assert (Hpat : exists e m,
             PLSCommandCenter.patterns host AIData text filename = Normal (e, m)).
  { unfold PLSCommandCenter.patterns. rewrite Hc. cbn [bind]. eauto. }
  unfold PLSCommandCenter.analyse.
  destruct (AIService.status serverStatus) as [s|]; [|exact Hpat].
  destruct (jsstring_eqb s (js "ok")); [|exact Hpat].
  destruct (AIService.extractLegislationWithAI (backend text filename));
    [eauto|exact Hpat].
Qed.

(** X26. With a file uploaded, [extractLegislationDetails] ends in one
    of two ways, and is no longer extracting. Either the extraction is
    complete, with a method and without an error; or an error is shown
    and the context and the monitoring are as they were. The error is
    the one of the parser, which begins with
    ["Failed to extract text: "], or the one for a text that is too
    short: the message that the handler holds ready for an error without
    one is never shown. *)
Theorem extraction_completes_or_explains
  (serverStatus : AIService.ServerStatus) (file : DocumentParser.File)
  (u : PLSCommandCenter.Upload) (context : PLSCommandCenter.Context.t)
  (monitoring : PLSCommandCenter.Monitoring.t) :
  PLSCommandCenter.uploadedFile u = Some file ->
  exists u' context' monitoring',
    PLSCommandCenter.extractLegislationDetails host AIData properties backend
      serverStatus u context monitoring
    = (u', context', monitoring')
    /\ PLSCommandCenter.isExtracting u' = false
    /\ PLSCommandCenter.extractionStatus u' = []
    /\ ((PLSCommandCenter.extractionComplete u' = true
         /\ PLSCommandCenter.extractionError u' = None
         /\ PLSCommandCenter.extractionMethod u' <> None)
        \/ (context' = context /\ monitoring' = monitoring
            /\ PLSCommandCenter.extractionMethod u' = None
            /\ PLSCommandCenter.extractionComplete u'
               = PLSCommandCenter.extractionComplete u
            /\ exists error,
                 PLSCommandCenter.extractionError u' = Some error
                 /\ error <> js "Failed to extract legislation details"
                 /\ (error = js "Could not extract enough text from the document. Please try a different file format."
                     \/ exists m, error = js "Failed to extract text: " ++ m))).
Proof.
  intros Hu. unfold PLSCommandCenter.extractLegislationDetails. rewrite Hu.
  destruct (DocumentParser.extractTextFromDocument host file) as [text|error] eqn:Hp.
  - destruct (_ || _)%bool.
    + eexists. eexists. eexists. split; [reflexivity|].
      split; [reflexivity|]. split; [reflexivity|]. right.
      split; [reflexivity|]. split; [reflexivity|]. split; [reflexivity|].
      split; [reflexivity|]. eexists. split; [reflexivity|].
      split; [discriminate|]. left. reflexivity.
    + destruct (analyse_normal serverStatus text (DocumentParser.name file))
        as (e & m & ->).
      eexists. eexists. eexists. split; [reflexivity|].
      split; [reflexivity|]. split; [reflexivity|]. left.
      split; [reflexivity|]. split; [reflexivity|]. discriminate.
  - unfold DocumentParser.extractTextFromDocument in Hp.
    destruct (DocumentParser.dispatch _ _) as [t|cause]; [discriminate|].
    inversion Hp; subst error.
    eexists. eexists. eexists. split; [reflexivity|].
    split; [reflexivity|]. split; [reflexivity|]. right.
    split; [reflexivity|]. split; [reflexivity|]. split; [reflexivity|].
    split; [reflexivity|]. eexists. split; [reflexivity|].
    split; [|right; exists (message cause); reflexivity].
    cbn. discriminate.
Qed.

End Outcomes.

Lemma extraction_completes_or_explains_witness :
  PLSCommandCenter.isExtracting
    (fst (fst (PLSCommandCenter.extractLegislationDetails basicLatinHost Empty_set
                 Sample.properties Sample.offline Initial.serverStatus
                 (PLSCommandCenter.handleFileUpload Sample.act Initial.upload)
                 Initial.context Initial.monitoring)))
  = false.
Proof.
  destruct (extraction_completes_or_explains basicLatinHost Empty_set Sample.properties
              Sample.offline Initial.serverStatus Sample.act
              (PLSCommandCenter.handleFileUpload Sample.act Initial.upload)
              Initial.context Initial.monitoring)
    as (u' & c' & m' & Hd & Hx & _).
  - reflexivity.
  - rewrite Hd. exact Hx.
Defined.
